(** * KC868-AP control core: a shallow embedding of the firmware and its
      verified properties.

    The development follows the source files: Python values and the
    builtins the firmware calls, then [logger.py], [hardware.py] and
    [main.py], each as executable definitions; the properties come last. *)

From Stdlib Require Import ZArith String Ascii List Lia.
From stdpp Require Import base option gmap strings pretty list fin_maps.

Local Open Scope string_scope.
Local Open Scope Z_scope.

(** ** Python values

    The values [ujson.loads] can hand to a handler, floats left aside: the
    handlers only ever pass them through [int] and [str]. A dictionary is a
    finite map with string keys. *)

#[warnings="-register-all"]
Inductive pyval : Type :=
  | VNone
  | VBool (b : bool)
  | VInt (n : Z)
  | VStr (s : string)
  | VList (l : list pyval)
  | VDict (d : gmap string pyval).

(** Exceptions, each with the text [str(e)] yields. *)
Inductive pyexn : Type :=
  | ValueError (msg : string)
  | TypeError (msg : string)
  | AttributeError (msg : string)
  | IndexError (msg : string)
  | HardwareError (msg : string)
  | OSError (msg : string).

Definition str_exn (e : pyexn) : string :=
  match e with
  | ValueError m | TypeError m | AttributeError m | IndexError m
  | HardwareError m | OSError m => m
  end.

Inductive result (A : Type) : Type :=
  | Ok (a : A)
  | Err (e : pyexn).
Arguments Ok {A} a.
Arguments Err {A} e.

(** Faults raised by the interpreter itself; their wording belongs to the
    runtime. *)
Inductive fault : Type :=
  | BadIntLiteral (s : string)
  | IntOfNonNumber
  | NoSuchAttribute (name : string)
  | Unhashable
  | BadCall (name : string)
  | BadByte
  | BadIndex
  | BusFault.

(** What the firmware takes from the Python runtime: [int] on text, which
    reads at least the plain decimal numerals that [str.format] prints; the
    text [str] gives a list or a dictionary; and the wording of the
    interpreter's own faults. *)
Class Runtime : Type := {
  int_of_text : string → option Z;
  int_of_text_pretty : ∀ n : N, int_of_text (pretty n) = Some (Z.of_N n);
  container_text : pyval → string;
  fault_text : fault → string
}.

(** ** Builtins on text *)

Definition upper_char (c : ascii) : ascii :=
  let n := nat_of_ascii c in
  if ((97 <=? n) && (n <=? 122))%nat then ascii_of_nat (n - 32) else c.

(** [s.upper()] *)
Fixpoint upper (s : string) : string :=
  match s with
  | EmptyString => EmptyString
  | String c s' => String (upper_char c) (upper s')
  end.

(** [s.startswith(p)] *)
Definition startswith (s p : string) : bool := String.prefix p s.

(** [s.endswith(p)]: [p] is [s] or ends what follows the first character. *)
Fixpoint endswith (s p : string) : bool :=
  if String.eqb s p then true
  else match s with
       | String _ s' => endswith s' p
       | EmptyString => false
       end.

(** [s.split(sep)] for a one-character separator: the piece up to the first
    separator, then the pieces after it. *)
Fixpoint split_go (sep : ascii) (s : string) : string * list string :=
  match s with
  | EmptyString => (EmptyString, [])
  | String c s' =>
      let '(piece, pieces) := split_go sep s' in
      if decide (c = sep) then (EmptyString, piece :: pieces)
      else (String c piece, pieces)
  end.
Definition split (s : string) (sep : ascii) : list string :=
  let '(piece, pieces) := split_go sep s in piece :: pieces.

(** [sep not in s] *)
Fixpoint lacks (sep : ascii) (s : string) : bool :=
  match s with
  | EmptyString => true
  | String c s' => negb (bool_decide (c = sep)) && lacks sep s'
  end.

(** [s.replace('PWM', '')]: every occurrence, left to right. *)
Fixpoint replace_PWM (s : string) : string :=
  match s with
  | String "P" (String "W" (String "M" rest)) => replace_PWM rest
  | String c rest => String c (replace_PWM rest)
  | EmptyString => EmptyString
  end.

(** ** Builtins on values *)

Section Builtins.
Context `{Runtime}.

(** Truth value, as [not v] and [if v] take it. *)
Definition truthy (v : pyval) : bool :=
  match v with
  | VNone => false
  | VBool b => b
  | VInt n => negb (Z.eqb n 0)
  | VStr s => negb (String.eqb s "")
  | VList l => negb (Nat.eqb (length l) 0)
  | VDict d => negb (Nat.eqb (size d) 0)
  end.

(** [int(v)] *)
Definition py_int (v : pyval) : result Z :=
  match v with
  | VInt n => Ok n
  | VBool b => Ok (if b then 1 else 0)
  | VStr s =>
      match int_of_text s with
      | Some n => Ok n
      | None => Err (ValueError (fault_text (BadIntLiteral s)))
      end
  | VNone | VList _ | VDict _ => Err (TypeError (fault_text IntOfNonNumber))
  end.

(** [str(v)] *)
Definition py_str (v : pyval) : string :=
  match v with
  | VNone => "None"
  | VBool true => "True"
  | VBool false => "False"
  | VInt n => pretty n
  | VStr s => s
  | VList _ | VDict _ => container_text v
  end.

(** [v.get(key)], with [None] for a missing key. *)
Definition py_get (v : pyval) (key : string) : result pyval :=
  match v with
  | VDict d => Ok (default VNone (d !! key))
  | _ => Err (AttributeError (fault_text (NoSuchAttribute "get")))
  end.

(** [v.get(key, dflt)] *)
Definition py_get_default (v : pyval) (key : string) (dflt : pyval)
  : result pyval :=
  match v with
  | VDict d => Ok (default dflt (d !! key))
  | _ => Err (AttributeError (fault_text (NoSuchAttribute "get")))
  end.
End Builtins.

(** ** Computations that change a state and may raise

    A Python call is a function from the state it works on to its outcome
    and the state it leaves; an exception keeps the changes made so far. *)

Definition M (S A : Type) : Type := S → result A * S.

Definition ret {S A} (a : A) : M S A := λ s, (Ok a, s).
Definition raise {S A} (e : pyexn) : M S A := λ s, (Err e, s).
Definition bind {S A B} (m : M S A) (k : A → M S B) : M S B :=
  λ s, match m s with
       | (Ok a, s') => k a s'
       | (Err e, s') => (Err e, s')
       end.
(** A pure outcome inside a stateful computation. *)
Definition lift {S A} (r : result A) : M S A := λ s, (r, s).
(** [try: m  except Exception as e: h e] *)
Definition try_except {S A} (m : M S A) (h : pyexn → M S A) : M S A :=
  λ s, match m s with
       | (Ok a, s') => (Ok a, s')
       | (Err e, s') => h e s'
       end.
(** Run a computation on a component [get s] of the state. *)
Definition zoom {S T A} (get : S → T) (set : T → S → S) (m : M T A) : M S A :=
  λ s, let '(r, t) := m (get s) in (r, set t s).

Notation "'do' x <- m ; k" := (bind m (λ x, k))
  (at level 10, x name, m at level 100, k at level 200,
   format "'[v' 'do'  x  <-  m ; '/' k ']'").

(** ** config.py: the settings the control core reads *)

Class Config : Type := {
  system_debug : bool;            (* system.debug *)
  system_log_level : string;      (* system.log_level *)
  mqtt_base_topic : string;       (* mqtt.base_topic *)
  addr_inputs_1_8 : Z;            (* hardware.addresses.inputs_1_8 *)
  addr_inputs_9_16 : Z;           (* hardware.addresses.inputs_9_16 *)
  addr_pca9685 : Z                (* hardware.addresses.pca9685 *)
}.

(** ** logger.py *)

Inductive level : Type := DEBUG | INFO | WARNING | ERROR | CRITICAL.

Definition level_name (l : level) : string :=
  match l with
  | DEBUG => "DEBUG" | INFO => "INFO" | WARNING => "WARNING"
  | ERROR => "ERROR" | CRITICAL => "CRITICAL"
  end.

(** [Logger.LEVELS] *)
Definition LEVELS : gmap string Z :=
  {[ "DEBUG" := 0; "INFO" := 1; "WARNING" := 2; "ERROR" := 3; "CRITICAL" := 4 ]}.

Section Logger.
Context `{Runtime} `{Config}.

(** [Logger.__init__]: [self.level] and [self.debug_mode] *)
Definition logger_level : Z := default 1 (LEVELS !! system_log_level).
Definition logger_debug_mode : bool := system_debug.

(** [Logger._log], its outcome. The printed line is not part of the state;
    [_log_prints] gives it where a property speaks of it. In debug
    mode an ERROR or CRITICAL line is followed by [sys.print_exception()],
    called without the exception it needs, which raises. *)
Definition _log (l : level) : result unit :=
  if bool_decide (default 0 (LEVELS !! level_name l) >= logger_level) then
    if logger_debug_mode
       && bool_decide (level_name l ∈ ["ERROR"; "CRITICAL"]) then
      Err (TypeError (fault_text (BadCall "print_exception")))
    else Ok tt
  else Ok tt.

(** [Logger._log], its output: the line it prints, kept as its level and
    message (the time stamp and the logger's name of the formatted line
    are left out), when the level reaches [self.level]; nothing
    otherwise. *)
Definition _log_prints (l : level) (message : string)
  : list (level * string) :=
  if bool_decide (default 0 (LEVELS !! level_name l) >= logger_level) then
    [(l, message)]
  else [].
End Logger.

(** ** hardware.py *)

(** The I2C bus, shared by the three devices. [faults] scripts the coming
    transfers, one entry each, [true] for a transfer that fails (a bus with
    no entry left answers); [port] is the byte each address presents to a
    read; [wire] records the writes the devices acknowledged. *)
Record I2C : Type := {
  faults : list bool;
  port : Z → Z;
  wire : list (Z * list Z)
}.

(** [I2CDevice]: [retry_count] is 3 for every device. *)
Record I2CDevice : Type := {
  address : Z;
  name : string;
  is_valid : bool
}.
Definition retry_count : nat := 3.

(** [RelayController]: the level last written to each pin, and [states]. *)
Record RelayController : Type := {
  relay1 : Z;
  relay2 : Z;
  states : gmap string bool
}.

Record HardwareManager : Type := {
  i2c : I2C;
  pcf_inputs_1_8 : I2CDevice;
  pcf_inputs_9_16 : I2CDevice;
  pca9685 : I2CDevice;
  relay_controller : RelayController
}.

Definition set_i2c (b : I2C) (hw : HardwareManager) : HardwareManager :=
  {| i2c := b; pcf_inputs_1_8 := pcf_inputs_1_8 hw;
     pcf_inputs_9_16 := pcf_inputs_9_16 hw; pca9685 := pca9685 hw;
     relay_controller := relay_controller hw |}.
Definition set_relay_controller (r : RelayController) (hw : HardwareManager)
  : HardwareManager :=
  {| i2c := i2c hw; pcf_inputs_1_8 := pcf_inputs_1_8 hw;
     pcf_inputs_9_16 := pcf_inputs_9_16 hw; pca9685 := pca9685 hw;
     relay_controller := r |}.

(** [0 <= x <= hi] *)
Definition between (lo x hi : Z) : bool := (lo <=? x) && (x <=? hi).

(** [f"{n:02d}"] *)
Definition fmt_02d (n : Z) : string :=
  if (0 <=? n) && (n <? 10) then "0" +:+ pretty n else pretty n.

Section Hardware.
Context `{Runtime} `{Config}.

(** One transfer: the bus either fails it or carries it. *)
Definition transfer : M I2C unit := λ bus,
  match faults bus with
  | true :: rest =>
      (Err (OSError (fault_text BusFault)),
       {| faults := rest; port := port bus; wire := wire bus |})
  | false :: rest =>
      (Ok tt, {| faults := rest; port := port bus; wire := wire bus |})
  | [] => (Ok tt, bus)
  end.

(** [bytes(l)] *)
Definition bytes (l : list Z) : result (list Z) :=
  if forallb (λ b, between 0 b 255) l then Ok l
  else Err (ValueError (fault_text BadByte)).

(** [i2c.writeto(addr, buf)] *)
Definition writeto (addr : Z) (buf : list Z) : M I2C unit :=
  do _ <- transfer;
  λ bus, (Ok tt, {| faults := faults bus; port := port bus;
                    wire := wire bus ++ [(addr, buf)] |}).

(** [i2c.readfrom(addr, 1)[0]] *)
Definition readfrom (addr : Z) : M I2C Z :=
  do _ <- transfer;
  λ bus, (Ok (port bus addr), bus).

(** [I2CDevice._retry_operation]: [attempts] counts the rounds left of
    [range(self.retry_count)], [last] is [str(last_exception)]. *)
Fixpoint retry_rounds {A} (dev : I2CDevice) (attempts : nat) (last : string)
    (operation : M I2C A) : M I2C A :=
  match attempts with
  | O => raise (HardwareError (name dev +:+ " operation failed: " +:+ last))
  | S rest =>
      try_except operation (λ e,
        do _ <- lift (if bool_decide (rest = O) then _log ERROR
                      else _log DEBUG);
        retry_rounds dev rest (str_exn e) operation)
  end.
Definition _retry_operation {A} (dev : I2CDevice) (operation : M I2C A)
  : M I2C A :=
  retry_rounds dev retry_count "None" operation.

(** [PCF8574.read_all] *)
Definition read_all (dev : I2CDevice) : M I2C (option Z) :=
  if negb (is_valid dev) then ret None
  else
    try_except
      (do b <- _retry_operation dev (readfrom (address dev)); ret (Some b))
      (λ e, match e with
            | HardwareError _ => ret None
            | _ => raise e
            end).

(** [PCA9685._write] *)
Definition _write (dev : I2CDevice) (reg value : Z) : M I2C unit :=
  if negb (is_valid dev) then ret tt
  else
    _retry_operation dev
      (do buf <- lift (bytes [reg; value]); writeto (address dev) buf).

Definition LED0_ON_L : Z := 6.

(** [PCA9685.set_pwm] *)
Definition set_pwm (dev : I2CDevice) (channel on off : Z) : M I2C unit :=
  if negb (between 0 channel 15) then
    raise (ValueError "Channel must be between 0 and 15")
  else if negb (between 0 on 4095) || negb (between 0 off 4095) then
    raise (ValueError "PWM values must be between 0 and 4095")
  else
    let base_reg := LED0_ON_L + 4 * channel in
    do _ <- _write dev base_reg (Z.land on 255);
    do _ <- _write dev (base_reg + 1) (Z.shiftr on 8);
    do _ <- _write dev (base_reg + 2) (Z.land off 255);
    _write dev (base_reg + 3) (Z.shiftr off 8).

(** [int(level_percent * 4095 / 100)]: the product is at most 409500 and
    the float quotient of such an integer by 100 lies within 0.001 of the
    exact one, which itself is an integer or at least 0.05 away from one;
    so [int] of it is the exact quotient, truncated. *)
Definition pulse_of_level (level_percent : Z) : Z :=
  Z.quot (level_percent * 4095) 100.

(** [PCA9685.set_level] *)
Definition set_level (dev : I2CDevice) (channel level_percent : Z)
  : M I2C unit :=
  if negb (between 0 channel 15) then
    raise (ValueError "Channel must be between 0 and 15")
  else
    let level_percent := Z.max 0 (Z.min 100 level_percent) in
    let pulse := pulse_of_level level_percent in
    do _ <- set_pwm dev channel 0 pulse;
    lift (_log DEBUG).

(** [RelayController.set_relay] *)
Definition set_relay (relay_name : string) (state : bool)
  : M RelayController unit := λ rc,
  if negb (bool_decide (relay_name ∈ dom (states rc))) then
    (Err (ValueError ("Invalid relay name: " +:+ relay_name)), rc)
  else
    let level := if state then 1 else 0 in
    let rc1 :=
      if bool_decide (relay_name = "Relay1") then
        {| relay1 := level; relay2 := relay2 rc; states := states rc |}
      else if bool_decide (relay_name = "Relay2") then
        {| relay1 := relay1 rc; relay2 := level; states := states rc |}
      else rc in
    (_log DEBUG,
     {| relay1 := relay1 rc1; relay2 := relay2 rc1;
        states := <[relay_name := state]> (states rc1) |}).

(** [RelayController.toggle_relay] *)
Definition toggle_relay (relay_name : string) : M RelayController bool :=
  λ rc,
  match states rc !! relay_name with
  | None => (Err (ValueError ("Invalid relay name: " +:+ relay_name)), rc)
  | Some cur =>
      let new_state := negb cur in
      (do _ <- set_relay relay_name new_state; ret new_state) rc
  end.

(** The loop body of [get_input_states] over [range(8)]; [first] is the
    number of the expander's first input. *)
Definition fill_inputs (first : Z) (data : Z) (st : gmap string bool)
  : gmap string bool :=
  foldl (λ acc i,
           <["X" +:+ fmt_02d (i + first) :=
               negb (negb (Z.eqb (Z.land data (Z.shiftl 1 i)) 0))]> acc)
        st (seqZ 0 8).

(** One of the two blocks of [get_input_states]: the expander [dev], whose
    first input has the number [first], is read into [states]. *)
Definition read_inputs (dev : I2CDevice) (first : Z)
    (st : gmap string bool) : M HardwareManager (gmap string bool) :=
  if is_valid dev then
    do data <- zoom i2c set_i2c (read_all dev);
    match data with
    | Some d => ret (fill_inputs first d st)
    | None => ret st
    end
  else ret st.

(** [HardwareManager.get_input_states] *)
Definition get_input_states : M HardwareManager (gmap string bool) :=
  λ hw,
  (do st1 <- read_inputs (pcf_inputs_1_8 hw) 1 ∅;
   read_inputs (pcf_inputs_9_16 hw) 9 st1) hw.
End Hardware.

(** ** main.py *)

(** [StateManager]; the lock has no part in a sequential run. *)
Record StateManager : Type := {
  dimmer_levels : gmap string Z;
  last_non_zero_levels : gmap string Z;
  relay_states : gmap string bool;
  input_states : gmap string bool;
  last_update : Z
}.

(** The application: the state mirror, the hardware, and the messages
    handed to [MQTTManager.publish] (topic and payload), oldest first. The
    MQTT manager exists whenever a handler runs: it is the one calling. *)
Record App : Type := {
  state_manager : StateManager;
  hardware_manager : HardwareManager;
  mqtt_out : list (string * pyval)
}.

Definition set_state_manager (sm : StateManager) (app : App) : App :=
  {| state_manager := sm; hardware_manager := hardware_manager app;
     mqtt_out := mqtt_out app |}.
Definition set_hardware_manager (hw : HardwareManager) (app : App) : App :=
  {| state_manager := state_manager app; hardware_manager := hw;
     mqtt_out := mqtt_out app |}.

(** [{f"PWM{i}": v for i in range(16)}] *)
Definition pwm_table (v : Z) : gmap string Z :=
  list_to_map ((λ i, ("PWM" +:+ pretty i, v)) <$> seqZ 0 16).

(** [StateManager.__init__]; [now] is what [time.ticks_ms()] returns. *)
Definition StateManager_init (now : Z) : StateManager :=
  {| dimmer_levels := pwm_table 0;
     last_non_zero_levels := pwm_table 100;
     relay_states := {[ "Relay1" := false; "Relay2" := false ]};
     input_states := ∅;
     last_update := now |}.

(** [RelayController.__init__] *)
Definition RelayController_init : RelayController :=
  {| relay1 := 0; relay2 := 0;
     states := {[ "Relay1" := false; "Relay2" := false ]} |}.

(** [StateManager.get_state] *)
Definition get_state (sm : StateManager) : pyval :=
  VDict {[ "dimmers" := VDict (VInt <$> dimmer_levels sm);
           "relays" := VDict (VBool <$> relay_states sm);
           "inputs" := VDict (VBool <$> input_states sm);
           "timestamp" := VInt (last_update sm) ]}.

(** [StateManager.update_dimmer] *)
Definition update_dimmer (now : Z) (channel : string) (level : Z)
  : M StateManager unit := λ sm,
  if negb (between 0 level 100) then
    (Err (ValueError "Dimmer level must be between 0 and 100"), sm)
  else
    (Ok tt,
     {| dimmer_levels := <[channel := level]> (dimmer_levels sm);
        last_non_zero_levels :=
          if 0 <? level then <[channel := level]> (last_non_zero_levels sm)
          else last_non_zero_levels sm;
        relay_states := relay_states sm;
        input_states := input_states sm;
        last_update := now |}).

(** [StateManager.update_relay] *)
Definition update_relay (now : Z) (relay_name : string) (state : bool)
  : M StateManager unit := λ sm,
  if negb (bool_decide (relay_name ∈ dom (relay_states sm))) then
    (Err (ValueError ("Invalid relay name: " +:+ relay_name)), sm)
  else
    (Ok tt,
     {| dimmer_levels := dimmer_levels sm;
        last_non_zero_levels := last_non_zero_levels sm;
        relay_states := <[relay_name := state]> (relay_states sm);
        input_states := input_states sm;
        last_update := now |}).

(** [StateManager.update_inputs]: [dict.update] keeps the keys that
    [inputs] lacks. *)
Definition update_inputs (now : Z) (inputs : gmap string bool)
  : M StateManager unit := λ sm,
  (Ok tt,
   {| dimmer_levels := dimmer_levels sm;
      last_non_zero_levels := last_non_zero_levels sm;
      relay_states := relay_states sm;
      input_states := inputs ∪ input_states sm;
      last_update := now |}).

(** [MQTTManager.publish_dimmer_state] and [publish_relay_state]: the
    message goes to [publish], which swallows every transport error. *)
Definition publish_dimmer_state `{Config} (channel_index percent : Z)
  : M App unit := λ app,
  let topic := mqtt_base_topic +:+ "/dimmer/" +:+ pretty channel_index
               +:+ "/state" in
  let payload :=
    VDict {[ "state" := VStr (if 0 <? percent then "ON" else "OFF");
             "brightness" := VInt percent ]} in
  (Ok tt, {| state_manager := state_manager app;
             hardware_manager := hardware_manager app;
             mqtt_out := mqtt_out app ++ [(topic, payload)] |}).

Definition publish_relay_state `{Config} (relay_index : Z) (is_on : bool)
  : M App unit := λ app,
  let topic := mqtt_base_topic +:+ "/relay/" +:+ pretty relay_index
               +:+ "/state" in
  (Ok tt, {| state_manager := state_manager app;
             hardware_manager := hardware_manager app;
             mqtt_out := mqtt_out app
                         ++ [(topic, VStr (if is_on then "ON" else "OFF"))] |}).

Section Main.
Context `{Runtime} `{Config}.

Definition on_state {A} (m : M StateManager A) : M App A :=
  zoom state_manager set_state_manager m.
Definition on_hardware {A} (m : M HardwareManager A) : M App A :=
  zoom hardware_manager set_hardware_manager m.
(** A call on [self.hardware_manager.pca9685]. *)
Definition on_pca9685 {A} (m : I2CDevice → M I2C A) : M App A :=
  on_hardware (λ hw, zoom i2c set_i2c (m (pca9685 hw)) hw).
(** A call on [self.hardware_manager.relay_controller]. *)
Definition on_relays {A} (m : M RelayController A) : M App A :=
  on_hardware (zoom relay_controller set_relay_controller m).

(** [key in d] for a dictionary with string keys: a list or a dictionary
    cannot be hashed, any other value that is no string is no key. *)
Definition py_in {V} (key : pyval) (d : gmap string V) : result bool :=
  match key with
  | VStr s => Ok (bool_decide (s ∈ dom d))
  | VList _ | VDict _ => Err (TypeError (fault_text Unhashable))
  | _ => Ok false
  end.

(** [CommandProcessor._handle_dimmer_command] *)
Definition _handle_dimmer_command (now : Z) (command : pyval) : M App unit :=
  do channel <- lift (py_get command "channel");
  do raw <- lift (py_get_default command "value" (VInt 0));
  do value <- lift (py_int raw);
  do name <-
    (if negb (truthy channel) then
       raise (ValueError "Invalid dimmer channel")
     else match channel with
          | VStr s =>
              if negb (startswith s "PWM") then
                raise (ValueError "Invalid dimmer channel")
              else ret s
          | _ => raise (AttributeError
                          (fault_text (NoSuchAttribute "startswith")))
          end);
  do channel_num <- lift (py_int (VStr (replace_PWM name)));
  if negb (between 0 channel_num 15) then
    raise (ValueError "Dimmer channel must be between 0 and 15")
  else
    do _ <- on_pca9685 (λ dev, set_level dev channel_num value);
    do _ <- on_state (update_dimmer now name value);
    lift (_log INFO).

(** [CommandProcessor._handle_relay_command] *)
Definition _handle_relay_command (now : Z) (command : pyval) : M App unit :=
  do channel <- lift (py_get command "channel");
  do known <- (λ app, (py_in channel (relay_states (state_manager app)), app));
  if negb known then
    raise (ValueError ("Invalid relay channel: " +:+ py_str channel))
  else
    match channel with
    | VStr name =>
        do new_state <- on_relays (toggle_relay name);
        do _ <- on_state (update_relay now name new_state);
        lift (_log INFO)
    | _ => raise (ValueError ("Invalid relay channel: " +:+ py_str channel))
    end.

(** [v == 'text'] *)
Definition eq_str (v : pyval) (text : string) : bool :=
  match v with
  | VStr s => String.eqb s text
  | _ => false
  end.

(** [CommandProcessor.process_command] *)
Definition process_command (now : Z) (command : pyval) : M App pyval :=
  try_except
    (do command_type <- lift (py_get command "type");
     if eq_str command_type "set_dimmer" then
       do _ <- _handle_dimmer_command now command;
       ret (VDict {[ "status" := VStr "success"; "command" := command ]})
     else if eq_str command_type "toggle_relay" then
       do _ <- _handle_relay_command now command;
       ret (VDict {[ "status" := VStr "success"; "command" := command ]})
     else if eq_str command_type "get_state" then
       λ app, (Ok (get_state (state_manager app)), app)
     else
       raise (ValueError ("Unknown command type: " +:+ py_str command_type)))
    (λ e,
      do _ <- lift (_log ERROR);
      ret (VDict {[ "status" := VStr "error";
                    "message" := VStr (str_exn e) ]})).

(** The loop over [current_inputs.items()] in [InputScanner._scan_loop]:
    for each entry that [prev_inputs] lacks or holds with another value,
    [logger.debug] is called with the message [Input <name>: ON] or
    [Input <name>: OFF]. The result is the messages of these calls, in
    order: the change notifications handed to the logger. *)
Fixpoint log_changes (prev_inputs : gmap string bool)
    (items : list (string * bool)) : result (list string) :=
  match items with
  | [] => Ok []
  | (input_name, state) :: rest =>
      let prev_state := prev_inputs !! input_name in
      if bool_decide (prev_state = None)
         || bool_decide (prev_state ≠ Some state) then
        let message :=
          "Input " +:+ input_name +:+ ": "
          +:+ (if state then "ON" else "OFF") in
        match _log DEBUG with
        | Ok _ =>
            match log_changes prev_inputs rest with
            | Ok messages => Ok (message :: messages)
            | Err e => Err e
            end
        | Err e => Err e
        end
      else log_changes prev_inputs rest
  end.

(** One round of the [while self.running] loop of
    [InputScanner._scan_loop]: the round's [prev_inputs] on leaving and
    the change notifications it handed to [logger.debug]. A raised outcome
    is an exception that leaves the loop and ends the scanner's thread. *)
Definition scan_round (now : Z) (prev_inputs : gmap string bool)
  : M App (gmap string bool * list string) :=
  try_except
    (do current_inputs <- on_hardware get_input_states;
     if bool_decide (current_inputs ≠ prev_inputs) then
       do messages <- lift (log_changes prev_inputs
                              (map_to_list current_inputs));
       do _ <- on_state (update_inputs now current_inputs);
       ret (current_inputs, messages)
     else ret (prev_inputs, []))
    (λ e, do _ <- lift (_log ERROR); ret (prev_inputs, [])).

(** The value of [level] when [_on_mqtt_command] leaves the payload
    analysis of a dimmer command; [None] is Python's. *)
Definition dimmer_level (payload : pyval) : result (option Z) :=
  match payload with
  | VDict d =>
      match (match d !! "brightness" with
             | Some b => match py_int b with
                         | Ok n => Ok (Some n)
                         | Err e => Err e
                         end
             | None => Ok None
             end) with
      | Err e => Err e
      | Ok level =>
          match d !! "state" with
          | Some st =>
              let state_str := upper (py_str st) in
              if String.eqb state_str "OFF" then Ok (Some 0)
              else if String.eqb state_str "ON" && bool_decide (level = None)
                   then Ok (Some 100)
              else Ok level
          | None => Ok level
          end
      end
  | VStr s =>
      let up := upper s in
      if String.eqb up "OFF" then Ok (Some 0)
      else if String.eqb up "ON" then Ok (Some 100)
      else match py_int payload with
           | Ok n => Ok (Some n)
           | Err _ => Ok (Some 0)
           end
  | _ =>
      match py_int payload with
      | Ok n => Ok (Some n)
      | Err _ => Ok (Some 0)
      end
  end.

(** [int(level)] where [level] may be [None] *)
Definition int_of_level (level : option Z) : result Z :=
  match level with
  | Some n => Ok n
  | None => py_int VNone
  end.

(** [int(topic.split('/')[2])] *)
Definition topic_index (topic : string) : result Z :=
  match split topic "/" !! 2%nat with
  | Some part => py_int (VStr part)
  | None => Err (IndexError (fault_text BadIndex))
  end.

(** The value of [desired] in the relay branch of [_on_mqtt_command]. *)
Definition relay_desired (payload : pyval) (current : bool) : bool :=
  let desired :=
    match payload with
    | VStr s => Some (String.eqb (upper s) "ON")
    | VDict d =>
        match d !! "state" with
        | Some st => Some (String.eqb (upper (py_str st)) "ON")
        | None => None
        end
    | _ => None
    end in
  match desired with
  | Some b => b
  | None => negb current
  end.

(** [KC868Application._on_mqtt_command] *)
Definition _on_mqtt_command (now : Z) (topic : string) (payload : pyval)
  : M App unit :=
  try_except
    (let base := mqtt_base_topic in
     if startswith topic (base +:+ "/dimmer/") && endswith topic "/set" then
       do idx <- lift (topic_index topic);
       do level <- lift (dimmer_level payload);
       if between 0 idx 15 then
         do l1 <- lift (int_of_level level);
         do _ <- on_pca9685 (λ dev,
                   set_level dev idx (Z.max 0 (Z.min 100 l1)));
         do l2 <- lift (int_of_level level);
         do _ <- on_state (update_dimmer now ("PWM" +:+ pretty idx)
                             (Z.max 0 (Z.min 100 l2)));
         do l3 <- lift (int_of_level level);
         publish_dimmer_state idx (Z.max 0 (Z.min 100 l3))
       else ret tt
     else if startswith topic (base +:+ "/relay/") && endswith topic "/set"
     then
       do idx <- lift (topic_index topic);
       let channel := "Relay" +:+ pretty idx in
       λ app,
         match relay_states (state_manager app) !! channel with
         | Some current =>
             let desired := relay_desired payload current in
             (do _ <- on_relays (set_relay channel desired);
              do _ <- on_state (update_relay now channel desired);
              publish_relay_state idx desired) app
         | None => (Ok tt, app)
         end
     else ret tt)
    (λ e, lift (_log DEBUG)).

(** [KC868Application.__init__] followed by [initialize]: a fresh state
    mirror next to the hardware manager as [get_hardware_manager] built
    it, with its relays off. *)
Definition App_init (now : Z) (bus : I2C) (valid1 valid2 valid3 : bool)
  : App :=
  {| state_manager := StateManager_init now;
     hardware_manager :=
       {| i2c := bus;
          pcf_inputs_1_8 :=
            {| address := addr_inputs_1_8; name := "PCF8574_Inputs_1_8";
               is_valid := valid1 |};
          pcf_inputs_9_16 :=
            {| address := addr_inputs_9_16; name := "PCF8574_Inputs_9_16";
               is_valid := valid2 |};
          pca9685 :=
            {| address := addr_pca9685; name := "PCA9685_Dimmers";
               is_valid := valid3 |};
          relay_controller := RelayController_init |};
     mqtt_out := [] |}.
End Main.

(** ** A concrete runtime and configuration, to run the model on inputs *)

Definition is_space (c : ascii) : bool :=
  bool_decide (nat_of_ascii c ∈ [32; 9; 10; 11; 12; 13]%nat).

Definition digit_of (c : ascii) : option Z :=
  let n := nat_of_ascii c in
  if ((48 <=? n) && (n <=? 57))%nat then Some (Z.of_nat n - 48) else None.

Fixpoint lstrip (s : string) : string :=
  match s with
  | String c s' => if is_space c then lstrip s' else s
  | EmptyString => EmptyString
  end.

Fixpoint rstrip (s : string) : string :=
  match s with
  | String c s' =>
      match rstrip s' with
      | EmptyString => if is_space c then EmptyString else String c EmptyString
      | r => String c r
      end
  | EmptyString => EmptyString
  end.

(** The number a digit string denotes, with the weight of the position to
    its left. Digits may be grouped by single underscores, as in [5_0] for
    50; [None] when the string is empty, holds another character, or has
    an underscore that is not between two digits. *)
Fixpoint digits_value (s : string) : option (Z * Z) :=
  match s with
  | EmptyString => None
  | String c s' =>
      match digit_of c with
      | None => None
      | Some d =>
          match s' with
          | EmptyString => Some (d, 10)
          | String c' s'' =>
              match (if Ascii.eqb c' "_" then digits_value s''
                     else digits_value s') with
              | Some (v, w) => Some (d * w + v, 10 * w)
              | None => None
              end
          end
      end
  end.

(** [int(s)] on decimal text: blanks around, an optional sign, digits that
    single underscores may group. *)
Definition decimal_int (s : string) : option Z :=
  match rstrip (lstrip s) with
  | String "-" ds => (λ vw, - vw.1) <$> digits_value ds
  | String "+" ds => fst <$> digits_value ds
  | ds => fst <$> digits_value ds
  end.

(** The text of a container, up to its bracket. *)
Definition bracket_text (v : pyval) : string :=
  match v with
  | VList _ => "[...]"
  | _ => "{...}"
  end.

(** [DEFAULT_CONFIG] of config.py *)
Definition DEFAULT_CONFIG : Config :=
  {| system_debug := false;
     system_log_level := "INFO";
     mqtt_base_topic := "kc868-ap";
     addr_inputs_1_8 := 58;
     addr_inputs_9_16 := 33;
     addr_pca9685 := 64 |}.

(** The same with [system.debug] switched on. *)
Definition DEBUG_CONFIG : Config :=
  {| system_debug := true;
     system_log_level := "INFO";
     mqtt_base_topic := "kc868-ap";
     addr_inputs_1_8 := 58;
     addr_inputs_9_16 := 33;
     addr_pca9685 := 64 |}.

(** The same as [DEFAULT_CONFIG] with [system.log_level] set to DEBUG. *)
Definition VERBOSE_CONFIG : Config :=
  {| system_debug := false;
     system_log_level := "DEBUG";
     mqtt_base_topic := "kc868-ap";
     addr_inputs_1_8 := 58;
     addr_inputs_9_16 := 33;
     addr_pca9685 := 64 |}.

(** A bus on which every transfer succeeds and every input line is high. *)
Definition quiet_bus : I2C :=
  {| faults := []; port := λ _, 255; wire := [] |}.

(** ** Observations used to state the properties *)

(** What a device register holds: the value of the last acknowledged
    two-byte write [reg, value] to it. *)
Definition register (addr reg : Z) (w : list (Z * list Z)) : option Z :=
  last (omap (λ m, match m with
                   | (a, [r; v]) =>
                       if bool_decide (a = addr ∧ r = reg) then Some v
                       else None
                   | _ => None
                   end) w).

(** The 12-bit OFF count of a PWM channel, from [LEDn_OFF_L] and
    [LEDn_OFF_H]: the duty value of the channel. *)
Definition channel_duty (addr channel : Z) (w : list (Z * list Z))
  : option Z :=
  match register addr (6 + 4 * channel + 2) w,
        register addr (6 + 4 * channel + 3) w with
  | Some lo, Some hi => Some (lo + 256 * hi)
  | _, _ => None
  end.

(** [r] is [num / den] rounded to a nearest integer, whichever way a tie
    goes. *)
Definition is_rounding (num den r : Z) : Prop :=
  2 * Z.abs (den * r - num) ≤ den.

(** The direct command [{"type": "set_dimmer", "channel": "PWM<c>",
    "value": level}]. *)
Definition set_dimmer_command (c level : Z) : pyval :=
  VDict {[ "type" := VStr "set_dimmer";
           "channel" := VStr ("PWM" +:+ pretty c);
           "value" := VInt level ]}.

(** The direct command [{"type": "toggle_relay", "channel": name}]. *)
Definition toggle_relay_command (name : string) : pyval :=
  VDict {[ "type" := VStr "toggle_relay"; "channel" := VStr name ]}.

(** [v[key]] where [v] is a dictionary holding [key]. *)
Definition py_item (v : pyval) (key : string) : option pyval :=
  match v with
  | VDict d => d !! key
  | _ => None
  end.

(** The [status] entry of a response. *)
Definition status_of (response : pyval) : option pyval :=
  py_item response "status".

(** The two responses [process_command] builds itself:
    [{"status": "success", "command": command}] and
    [{"status": "error", "message": message}]. *)
Definition success_response (command : pyval) : pyval :=
  VDict {[ "status" := VStr "success"; "command" := command ]}.
Definition error_response (message : string) : pyval :=
  VDict {[ "status" := VStr "error"; "message" := VStr message ]}.

(** [snapshot["dimmers"][channel]] *)
Definition snapshot_dimmer (snapshot : pyval) (channel : string)
  : option pyval :=
  match py_item snapshot "dimmers" with
  | Some d => py_item d channel
  | None => None
  end.

(** [max(0, min(100, level))] *)
Definition clamp (level : Z) : Z := Z.max 0 (Z.min 100 level).

(** The application on [DEFAULT_CONFIG], all devices found, nothing done
    yet. *)
Definition demo_app : App :=
  @App_init DEFAULT_CONFIG 0 quiet_bus true true true.

(** A step that leaves the devices as they were. *)
Definition same_lines (b b' : I2C) : Prop :=
  wire b' = wire b ∧ port b' = port b.

(** What one register write leaves on the wire: nothing when the device
    was not found at start-up. *)
Definition written (dev : I2CDevice) (reg value : Z) : list (Z * list Z) :=
  if is_valid dev then [(address dev, [reg; value])] else [].

(** The four register writes of [set_pwm]. *)
Definition pwm_writes (dev : I2CDevice) (channel on off : Z)
  : list (Z * list Z) :=
  (written dev (6 + 4 * channel) (Z.land on 255)
   ++ written dev (6 + 4 * channel + 1) (Z.shiftr on 8)
   ++ written dev (6 + 4 * channel + 2) (Z.land off 255)
   ++ written dev (6 + 4 * channel + 3) (Z.shiftr off 8))%list.

(** The state mirror once [update_dimmer] has stored [level]. *)
Definition dimmer_written (now : Z) (channel : string) (level : Z)
    (sm : StateManager) : StateManager :=
  {| dimmer_levels := <[channel := level]> (dimmer_levels sm);
     last_non_zero_levels :=
       if 0 <? level then <[channel := level]> (last_non_zero_levels sm)
       else last_non_zero_levels sm;
     relay_states := relay_states sm;
     input_states := input_states sm;
     last_update := now |}.

(** The relay controller once [set_relay] has switched a relay. *)
Definition relay_switched (relay_name : string) (state : bool)
    (rc : RelayController) : RelayController :=
  let level := if state then 1 else 0 in
  {| relay1 := if bool_decide (relay_name = "Relay1") then level
               else relay1 rc;
     relay2 := if bool_decide (relay_name = "Relay1") then relay2 rc
               else if bool_decide (relay_name = "Relay2") then level
               else relay2 rc;
     states := <[relay_name := state]> (states rc) |}.

(** The state mirror once [update_relay] has stored [state]. *)
Definition relay_written (now : Z) (relay_name : string) (state : bool)
    (sm : StateManager) : StateManager :=
  {| dimmer_levels := dimmer_levels sm;
     last_non_zero_levels := last_non_zero_levels sm;
     relay_states := <[relay_name := state]> (relay_states sm);
     input_states := input_states sm;
     last_update := now |}.

(** The level on the pin that drives a relay. *)
Definition relay_pin (relay_name : string) (rc : RelayController) : option Z :=
  if bool_decide (relay_name = "Relay1") then Some (relay1 rc)
  else if bool_decide (relay_name = "Relay2") then Some (relay2 rc)
  else None.

(** The two copies of the relay state agree, and they are about the two
    relays. *)
Definition relays_agree (app : App) : Prop :=
  states (relay_controller (hardware_manager app))
  = relay_states (state_manager app)
  ∧ dom (relay_states (state_manager app))
    = ({[ "Relay1"; "Relay2" ]} : gset string).

(** [m] keeps the property [P] of the application. *)
Definition keeps {A} (P : App → Prop) (m : M App A) : Prop :=
  ∀ app, P app → P (m app).2.

(** The states the application can be in: from [init], any run of direct
    commands, MQTT commands and scanner rounds. *)
Inductive reachable `{Runtime} `{Config} (init : App) : App → Prop :=
  | reach_init : reachable init init
  | reach_command app now command :
      reachable init app →
      reachable init (process_command now command app).2
  | reach_mqtt app now topic payload :
      reachable init app →
      reachable init (_on_mqtt_command now topic payload app).2
  | reach_scan app now prev_inputs :
      reachable init app →
      reachable init (scan_round now prev_inputs app).2.

(** The expander that input line [n] hangs on. *)
Definition input_expander (hw : HardwareManager) (n : Z) : I2CDevice :=
  if n <=? 8 then pcf_inputs_1_8 hw else pcf_inputs_9_16 hw.

(** The physical bit of input line [n]: the line's bit in the byte its
    expander presents. *)
Definition input_bit (hw : HardwareManager) (n : Z) : bool :=
  Z.testbit (port (i2c hw) (address (input_expander hw n))) ((n - 1) mod 8).

(** [fill_inputs] when the read gave a byte, nothing otherwise. *)
Definition fill_read (first : Z) (data : option Z) (st : gmap string bool)
  : gmap string bool :=
  match data with
  | Some d => fill_inputs first d st
  | None => st
  end.

(** What a scan of [quiet_bus] reads: all sixteen lines high. *)
Definition demo_inputs : gmap string bool :=
  fill_inputs 9 255 (fill_inputs 1 255 ∅).

(** [str(v).upper() == text] *)
Definition says `{Runtime} (v : pyval) (text : string) : bool :=
  String.eqb (upper (py_str v)) text.

(** The level of a dimmer command in the order the code resolves it: for an
    object, a brightness that is no number drops the command; a state of OFF
    gives 0; else the brightness counts; else a state of ON gives 100; else
    the command is dropped. For a string, OFF gives 0, ON gives 100, else
    its number, 0 when it has none. Any other value counts as its number,
    0 when it has none. [None] stands for a dropped command. *)
Definition resolved_level `{Runtime} (payload : pyval) : option Z :=
  match payload with
  | VDict d =>
      let off := match d !! "state" with
                 | Some st => says st "OFF"
                 | None => false
                 end in
      let on := match d !! "state" with
                | Some st => says st "ON"
                | None => false
                end in
      match d !! "brightness" with
      | Some b =>
          match py_int b with
          | Ok n => if off then Some 0 else Some n
          | Err _ => None
          end
      | None => if off then Some 0 else if on then Some 100 else None
      end
  | VStr s =>
      if String.eqb (upper s) "OFF" then Some 0
      else if String.eqb (upper s) "ON" then Some 100
      else Some (default 0 (int_of_text s))
  | VInt n => Some n
  | VBool b => Some (if b then 1 else 0)
  | VNone | VList _ => Some 0
  end.

(** The level of a dimmer command in the order the specification words it:
    the brightness of an object first, then a state of OFF, then a state of
    ON, then a bare number, and 0 for anything unparsable. *)
Definition claimed_level `{Runtime} (payload : pyval) : Z :=
  let number (v : pyval) : Z :=
    match py_int v with
    | Ok n => n
    | Err _ => 0
    end in
  match payload with
  | VDict d =>
      match d !! "brightness", d !! "state" with
      | Some b, _ => number b
      | None, Some st =>
          if says st "OFF" then 0 else if says st "ON" then 100 else 0
      | None, None => 0
      end
  | VStr s =>
      if String.eqb (upper s) "OFF" then 0
      else if String.eqb (upper s) "ON" then 100
      else number payload
  | _ => number payload
  end.

(** The topic [<base>/dimmer/<idx>/set]. *)
Definition dimmer_topic `{Config} (idx : Z) : string :=
  mqtt_base_topic +:+ "/dimmer/" +:+ pretty idx +:+ "/set".

(** The state message [publish_dimmer_state] hands over. *)
Definition dimmer_message `{Config} (idx level : Z) : string * pyval :=
  (mqtt_base_topic +:+ "/dimmer/" +:+ pretty idx +:+ "/state",
   VDict {[ "state" := VStr (if 0 <? level then "ON" else "OFF");
            "brightness" := VInt level ]}).

(** The state mirror once [update_inputs] has merged [inputs]. *)
Definition inputs_merged (now : Z) (inputs : gmap string bool)
    (sm : StateManager) : StateManager :=
  {| dimmer_levels := dimmer_levels sm;
     last_non_zero_levels := last_non_zero_levels sm;
     relay_states := relay_states sm;
     input_states := inputs ∪ input_states sm;
     last_update := now |}.

(** The state mirror is as before, or went through one of its three
    updates. *)
Definition sm_step (sm sm' : StateManager) : Prop :=
  sm' = sm
  ∨ (∃ now name level,
       0 ≤ level ≤ 100 ∧ sm' = dimmer_written now name level sm)
  ∨ (∃ now name state, sm' = relay_written now name state sm)
  ∨ (∃ now inputs, sm' = inputs_merged now inputs sm).

(** [m] leaves the state mirror alone; [m] changes it by at most one
    update. *)
Definition sm_frames {A} (m : M App A) : Prop :=
  ∀ app, state_manager (m app).2 = state_manager app.
Definition sm_steps {A} (m : M App A) : Prop :=
  ∀ app, sm_step (state_manager app) (state_manager (m app).2).

(** An entry of last_non_zero_levels that differs between [sm] and [sm']
    holds a level above 0 that is also the channel's dimmer level. *)
Definition last_non_zero_kept (sm sm' : StateManager) : Prop :=
  ∀ c, last_non_zero_levels sm' !! c ≠ last_non_zero_levels sm !! c →
       ∃ level, 0 < level
                ∧ dimmer_levels sm' !! c = Some level
                ∧ last_non_zero_levels sm' !! c = Some level.

(** No transfer on the bus is scheduled to fail. *)
Definition clear (bus : I2C) : Prop := Forall (λ f, f = false) (faults bus).

(** ** Further observations *)

(** The entries of the snapshot [current_inputs] that [prev_inputs] lacks
    or holds with another value, in the order the dictionary yields
    them. *)
Definition changed_inputs (prev_inputs current_inputs : gmap string bool)
  : list (string * bool) :=
  filter (λ kv, prev_inputs !! kv.1 ≠ Some kv.2) (map_to_list current_inputs).

(** The change notification for an entry: the message that names the
    input and says ON or OFF. *)
Definition input_note (entry : string * bool) : string :=
  "Input " +:+ entry.1 +:+ ": " +:+ (if entry.2 then "ON" else "OFF").

(** The topic [<base>/relay/<idx>/set]. *)
Definition relay_topic `{Config} (idx : Z) : string :=
  mqtt_base_topic +:+ "/relay/" +:+ pretty idx +:+ "/set".

(** The state message [publish_relay_state] hands over. *)
Definition relay_message `{Config} (idx : Z) (is_on : bool) : string * pyval :=
  (mqtt_base_topic +:+ "/relay/" +:+ pretty idx +:+ "/state",
   VStr (if is_on then "ON" else "OFF")).

(** The direct command [{"type": "set_dimmer", "channel": name,
    "value": level}] for any channel text. *)
Definition named_dimmer_command (name : string) (level : Z) : pyval :=
  VDict {[ "type" := VStr "set_dimmer";
           "channel" := VStr name;
           "value" := VInt level ]}.

(** A bus whose next three transfers fail. *)
Definition stuck_bus : I2C :=
  {| faults := [true; true; true]; port := λ _, 255; wire := [] |}.

(** The application on [DEFAULT_CONFIG] with that bus. *)
Definition stuck_app : App :=
  @App_init DEFAULT_CONFIG 0 stuck_bus true true true.

(** The byte an expander contributes to a scan on a bus without faults:
    none when it was not found at start-up. *)
Definition expander_byte (bus : I2C) (dev : I2CDevice) : option Z :=
  if is_valid dev then Some (port bus (address dev)) else None.

(** What a scan reads on a bus without faults. *)
Definition snapshot_of (hw : HardwareManager) : gmap string bool :=
  fill_read 9 (expander_byte (i2c hw) (pcf_inputs_9_16 hw))
    (fill_read 1 (expander_byte (i2c hw) (pcf_inputs_1_8 hw)) ∅).

(** ** The rest of hardware.py: single pins, relay queries, shutdown *)

(** [for x in xs: body(x)] *)
Fixpoint for_each {S X} (xs : list X) (body : X → M S unit) : M S unit :=
  match xs with
  | [] => ret tt
  | x :: rest => do _ <- body x; for_each rest body
  end.

Section Shutdown.
Context `{Runtime} `{Config}.

(** [PCF8574.read_pin] *)
Definition read_pin (dev : I2CDevice) (pin_number : Z) : M I2C (option bool) :=
  if negb (between 0 pin_number 7) then
    raise (ValueError "Pin number must be between 0 and 7")
  else
    do all_pins <- read_all dev;
    match all_pins with
    | None => ret None
    | Some d =>
        ret (Some (negb (Z.eqb (Z.land d (Z.shiftl 1 pin_number)) 0)))
    end.

(** [PCA9685.all_off] *)
Definition PCA9685_all_off (dev : I2CDevice) : M I2C unit :=
  do _ <- for_each (seqZ 0 16) (λ channel, set_level dev channel 0);
  lift (_log INFO).

(** [RelayController.get_state] *)
Definition RelayController_get_state (relay_name : string)
  : M RelayController bool := λ rc,
  match states rc !! relay_name with
  | None => (Err (ValueError ("Invalid relay name: " +:+ relay_name)), rc)
  | Some state => (Ok state, rc)
  end.

(** [RelayController.all_off] *)
Definition RelayController_all_off : M RelayController unit :=
  do _ <- set_relay "Relay1" false;
  do _ <- set_relay "Relay2" false;
  lift (_log INFO).

(** [HardwareManager.get_relay_states] *)
Definition get_relay_states : M HardwareManager (gmap string bool) :=
  zoom relay_controller set_relay_controller
    (do r1 <- RelayController_get_state "Relay1";
     do r2 <- RelayController_get_state "Relay2";
     ret {[ "Relay1" := r1; "Relay2" := r2 ]}).

(** [HardwareManager.shutdown] *)
Definition HardwareManager_shutdown : M HardwareManager unit :=
  do _ <- lift (_log INFO);
  try_except
    (do _ <- (λ hw,
               (if is_valid (pca9685 hw) then
                  zoom i2c set_i2c (PCA9685_all_off (pca9685 hw))
                else ret tt) hw);
     do _ <- zoom relay_controller set_relay_controller
               RelayController_all_off;
     lift (_log INFO))
    (λ e, lift (_log ERROR)).
End Shutdown.

(** ** The rest of mqtt_manager.py and main.py: state broadcast, discovery *)

(** [MQTTManager.publish_input_state] *)
Definition publish_input_state `{Config} (input_index : Z) (is_on : bool)
  : M App unit := λ app,
  let topic := mqtt_base_topic +:+ "/input/" +:+ pretty input_index
               +:+ "/state" in
  (Ok tt, {| state_manager := state_manager app;
             hardware_manager := hardware_manager app;
             mqtt_out := mqtt_out app
                         ++ [(topic, VStr (if is_on then "ON" else "OFF"))] |}).



Section Mqtt.
Context `{Runtime} `{Config}.

(** [KC868Application._broadcast_state]; [is_connected] is
    [self.mqtt.connected]. The snapshot [state] is taken once, before the
    first message. *)
Definition _broadcast_state (is_connected : bool) : M App unit :=
  try_except
    (λ app,
       let state := state_manager app in
       (if is_connected then
          do _ <- for_each (seqZ 0 16) (λ i,
                    match dimmer_levels state !! ("PWM" +:+ pretty i) with
                    | Some level => publish_dimmer_state i level
                    | None => ret tt
                    end);
          do _ <- for_each (seqZ 1 2) (λ i,
                    match relay_states state !! ("Relay" +:+ pretty i) with
                    | Some is_on => publish_relay_state i is_on
                    | None => ret tt
                    end);
          for_each (seqZ 1 16) (λ i,
            match input_states state !! ("X" +:+ fmt_02d i) with
            | Some val => publish_input_state i val
            | None => ret tt
            end)
        else ret tt) app)
    (λ e, lift (_log ERROR)).








End Mqtt.

(** ** The rest of config.py: settings by dotted path *)

(** Python holds a dictionary by reference: [Config.get] returns, and
    [Config.set] stores, the dictionary itself and no copy, so one
    dictionary can be reached by several paths. A setting is therefore a
    plain value or the location of a dictionary, and the dictionaries live
    in a store, a map from locations to dictionaries. *)
#[warnings="-register-all"] Inductive object :=
  | ONone
  | OBool (b : bool)
  | OInt (n : Z)
  | OStr (s : string)
  | OList (items : list object)
  | ODict (l : positive).

Section Settings.
Context `{Runtime}.

(** The loop of [Config.get]: [value = value[key]] along [keys]; [None]
    where the subscript raises KeyError (a missing key) or TypeError (a
    value that is no dictionary). *)
Fixpoint config_walk (dicts : gmap positive (gmap string object))
    (value : object) (keys : list string) : option object :=
  match keys with
  | [] => Some value
  | key :: rest =>
      match value with
      | ODict l =>
          match dicts !! l with
          | Some d =>
              match d !! key with
              | Some v => config_walk dicts v rest
              | None => None
              end
          | None => None
          end
      | _ => None
      end
  end.

(** [Config.get], where [config] is the location of [self.config] *)
Definition Config_get (config : positive)
    (dicts : gmap positive (gmap string object)) (key_path : string)
    (dflt : object) : object :=
  default dflt (config_walk dicts (ODict config) (split key_path ".")).

(** The body of [Config.set] with [config] the value it has reached: a
    missing key of the path gets a new, empty dictionary, and the last key
    is assigned in the dictionary reached, in place. On a value that is no
    dictionary the membership test, the subscript or the assignment raises
    TypeError. (A location without a dictionary does not occur in a closed
    store; it is answered like a value that is no dictionary.) *)
Fixpoint config_store (keys : list string) (value : object)
    (config : object) : M (gmap positive (gmap string object)) unit := λ dicts,
  match keys with
  | [] => (Ok tt, dicts)
  | [key] =>
      match config with
      | ODict l =>
          match dicts !! l with
          | Some d => (Ok tt, <[l := <[key := value]> d]> dicts)
          | None => (Err (TypeError (fault_text (BadCall "item"))), dicts)
          end
      | _ => (Err (TypeError (fault_text (BadCall "item"))), dicts)
      end
  | key :: rest =>
      match config with
      | ODict l =>
          match dicts !! l with
          | Some d =>
              match d !! key with
              | Some v => config_store rest value v dicts
              | None =>
                  let l' := fresh (dom dicts) in
                  config_store rest value (ODict l')
                    (<[l := <[key := ODict l']> d]> (<[l' := ∅]> dicts))
              end
          | None => (Err (TypeError (fault_text (BadCall "item"))), dicts)
          end
      | _ => (Err (TypeError (fault_text (BadCall "item"))), dicts)
      end
  end.

(** [Config.set] *)
Definition Config_set (config : positive) (key_path : string)
    (value : object) : M (gmap positive (gmap string object)) unit :=
  config_store (split key_path ".") value (ODict config).
End Settings.

(** ** Observations on shutdown, relays and broadcast *)

(** The level [set_relay] puts on a pin. *)
Definition pin_level (state : bool) : Z := if state then 1 else 0.

(** The recorded relay states are about the two relays, and each pin
    carries the level of its recorded state. *)
Definition pins_match (rc : RelayController) : Prop :=
  ∃ s1 s2, states rc = {[ "Relay1" := s1; "Relay2" := s2 ]}
           ∧ relay1 rc = pin_level s1 ∧ relay2 rc = pin_level s2.

(** The hardware of [stuck_app] with relay 1 switched on. *)
Definition stuck_hardware_relay_on : HardwareManager :=
  set_relay_controller
    {| relay1 := 1; relay2 := 0;
       states := {[ "Relay1" := true; "Relay2" := false ]} |}
    (hardware_manager stuck_app).

(** In the application, the relay pins carry what the controller records. *)
Definition relays_follow (app : App) : Prop :=
  pins_match (relay_controller (hardware_manager app)).

(** Every dimmer level the mirror holds lies in 0..100, every remembered
    level in 1..100, and each of the sixteen channels has both. *)
Definition levels_in_range (sm : StateManager) : Prop :=
  (∀ key l, dimmer_levels sm !! key = Some l → 0 ≤ l ≤ 100)
  ∧ (∀ key l, last_non_zero_levels sm !! key = Some l → 1 ≤ l ≤ 100)
  ∧ (∀ c, 0 ≤ c ≤ 15 →
          is_Some (dimmer_levels sm !! ("PWM" +:+ pretty c))
          ∧ is_Some (last_non_zero_levels sm !! ("PWM" +:+ pretty c))).

(** The state message [publish_input_state] hands over. *)
Definition input_message `{Config} (idx : Z) (is_on : bool) : string * pyval :=
  (mqtt_base_topic +:+ "/input/" +:+ pretty idx +:+ "/state",
   VStr (if is_on then "ON" else "OFF")).

(** The input messages of a broadcast: one for each of X01..X16 that the
    mirror knows, in that order. *)
Definition input_messages `{Config} (sm : StateManager)
  : list (string * pyval) :=
  omap (λ i, input_message i <$> input_states sm !! ("X" +:+ fmt_02d i))
       (seqZ 1 16).

(** The application with [extra] appended to the messages handed over. *)
Definition published (extra : list (string * pyval)) (app : App) : App :=
  {| state_manager := state_manager app;
     hardware_manager := hardware_manager app;
     mqtt_out := mqtt_out app ++ extra |}.


(** ** Observations on discovery and settings *)


Section DiscoveryCalls.
Context `{Config}.


End DiscoveryCalls.

(** A value that is a dictionary. *)
Definition is_dict (v : object) : Prop := ∃ l, v = ODict l.

(** Every dictionary that a dictionary of the store holds is in the store,
    as it is for the objects of a running program. *)
Definition closed (dicts : gmap positive (gmap string object)) : Prop :=
  ∀ l d key l', dicts !! l = Some d → d !! key = Some (ODict l') →
                l' ∈ dom dicts.

(** [dicts'] holds every dictionary of [dicts], each with the same entries
    but for the entry [key] of the dictionary at [l]. *)
Definition same_but (l : positive) (key : string)
    (dicts dicts' : gmap positive (gmap string object)) : Prop :=
  ∀ l' d, dicts !! l' = Some d →
          ∃ d', dicts' !! l' = Some d'
                ∧ ∀ key', (l', key') ≠ (l, key) → d' !! key' = d !! key'.

(** The path [keys], followed from the dictionary at [config], does not go
    through the entry [key] of the dictionary at [l]. *)
Definition avoids (dicts : gmap positive (gmap string object))
    (config : positive) (keys : list string) (l : positive) (key : string)
  : Prop :=
  ∀ ks k ks', keys = (ks ++ k :: ks')%list →
              ¬ (config_walk dicts (ODict config) ks = Some (ODict l)
                 ∧ k = key).


(** Settings in which two paths lead to one dictionary, as after
    [c.set("backup", c.get("mqtt"))]. *)
Definition demo_settings : gmap positive (gmap string object) :=
  {[ 1%positive := {[ "mqtt" := ODict 2%positive;
                      "backup" := ODict 2%positive;
                      "system" := ODict 3%positive ]};
     2%positive := {[ "host" := OStr "10.0.0.2"; "port" := OInt 1883 ]};
     3%positive := {[ "debug" := OBool false ]} ]}.

(** * Properties *)

(** ** The decimal reader reads what [pretty] prints *)

Lemma digit_of_pretty_N_char (d : N) :
  (d < 10)%N → digit_of (pretty_N_char d) = Some (Z.of_N d).
Proof.
  intros Hd.
  assert (d = 0 ∨ d = 1 ∨ d = 2 ∨ d = 3 ∨ d = 4 ∨ d = 5 ∨ d = 6 ∨ d = 7
          ∨ d = 8 ∨ d = 9)%N as Hcases by lia.
  repeat (destruct Hcases as [-> | Hcases]; [reflexivity |]).
  subst d. reflexivity.
Qed.

Lemma digit_not_underscore (c : ascii) (d : Z) :
  digit_of c = Some d → Ascii.eqb c "_" = false.
Proof.
  destruct c as [[] [] [] [] [] [] [] []]; vm_compute; congruence.
Qed.

Lemma digits_value_head (s : string) (vw : Z * Z) :
  digits_value s = Some vw →
  ∃ c s' d, s = String c s' ∧ digit_of c = Some d.
Proof.
  destruct s as [| c s']; [discriminate |]. intros Hs.
  destruct (digit_of c) as [d |] eqn:Hc; [by exists c, s', d |].
  exfalso. simpl in Hs. rewrite Hc in Hs. discriminate.
Qed.

Lemma digits_value_cons (c : ascii) (s : string) (d v w : Z) :
  digit_of c = Some d → digits_value s = Some (v, w) →
  digits_value (String c s) = Some (d * w + v, 10 * w).
Proof.
  intros Hc Hs.
  destruct (digits_value_head _ _ Hs) as (c' & s' & d' & -> & Hc').
  change (digits_value (String c (String c' s')))
    with (match digit_of c with
          | None => None
          | Some d =>
              match (if Ascii.eqb c' "_" then digits_value s'
                     else digits_value (String c' s')) with
              | Some (v, w) => Some (d * w + v, 10 * w)
              | None => None
              end
          end).
  by rewrite Hc, (digit_not_underscore _ _ Hc'), Hs.
Qed.

(** A digit string is one digit, or a digit before a digit string, or a
    digit and an underscore before a digit string. *)
Lemma digits_value_cases (c : ascii) (s : string) (vw : Z * Z) :
  digits_value (String c s) = Some vw →
  ∃ d, digit_of c = Some d
       ∧ (s = EmptyString
          ∨ (∃ vw', digits_value s = Some vw')
          ∨ (∃ s' vw', s = String "_" s' ∧ digits_value s' = Some vw')).
Proof.
  intros Hs.
  destruct (digits_value_head _ _ Hs) as (c0 & s0 & d & [= <- <-] & Hc).
  exists d. split; [done |].
  destruct s as [| c' s']; [by left |]. right.
  change (digits_value (String c (String c' s')))
    with (match digit_of c with
          | None => None
          | Some d =>
              match (if Ascii.eqb c' "_" then digits_value s'
                     else digits_value (String c' s')) with
              | Some (v, w) => Some (d * w + v, 10 * w)
              | None => None
              end
          end) in Hs.
  rewrite Hc in Hs. destruct (Ascii.eqb c' "_") eqn:Hu.
  - apply Ascii.eqb_eq in Hu as ->. right.
    destruct (digits_value s') as [vw' |] eqn:Hs'; [| discriminate].
    by exists s', vw'.
  - left. destruct (digits_value (String c' s')) as [vw' |] eqn:Hs';
      [| discriminate].
    by exists vw'.
Qed.

Lemma digits_value_shape (P : string → Prop) :
  (∀ c d, digit_of c = Some d → P (String c EmptyString)) →
  (∀ c d s, digit_of c = Some d → s ≠ EmptyString → P s → P (String c s)) →
  (∀ c d s, digit_of c = Some d → s ≠ EmptyString → P s →
            P (String c (String "_" s))) →
  ∀ s vw, digits_value s = Some vw → P s.
Proof.
  intros Hone Hcons Hgroup s.
  remember (String.length s) as n eqn:Hn. revert s Hn.
  induction (lt_wf n) as [n _ IH]. intros s -> vw Hs.
  destruct s as [| c s]; [discriminate |].
  destruct (digits_value_cases _ _ _ Hs)
    as (d & Hc & [-> | [[vw' Hs'] | (s' & vw' & -> & Hs')]]).
  - by apply (Hone c d).
  - apply (Hcons c d); [done | by intros -> |].
    apply (IH (String.length s) ltac:(cbn; lia) s eq_refl vw' Hs').
  - apply (Hgroup c d); [done | by intros -> |].
    apply (IH (String.length s') ltac:(cbn; lia) s' eq_refl vw' Hs').
Qed.

Lemma digits_value_pretty_N_go (x : N) :
  ∀ (s : string) (v w : Z),
    digits_value s = Some (v, w) →
    ∃ w', digits_value (pretty_N_go x s) = Some (Z.of_N x * w + v, w').
Proof.
  induction (N.lt_wf_0 x) as [x _ IH]. intros s v w Hs.
  destruct (decide (x = 0%N)) as [-> | Hx].
  - rewrite pretty_N_go_0. exists w. rewrite Hs. repeat f_equal; lia.
  - rewrite pretty_N_go_step by lia.
    assert (x `mod` 10 < 10)%N as Hmod by (apply N.mod_lt; lia).
    pose proof (digits_value_cons _ s _ v w
                  (digit_of_pretty_N_char _ Hmod) Hs) as Hcons.
    destruct (IH (x `div` 10)%N ltac:(apply N.div_lt; lia) _ _ _ Hcons)
      as [w' Hw'].
    exists w'. rewrite Hw'.
    pose proof (N.div_mod x 10 ltac:(lia)) as Hdm.
    assert (Z.of_N x = 10 * Z.of_N (x `div` 10) + Z.of_N (x `mod` 10))
      as -> by lia.
    do 2 f_equal. ring.
Qed.

Lemma digits_value_pretty (n : N) :
  ∃ w, digits_value (pretty n) = Some (Z.of_N n, w).
Proof.
  unfold pretty, pretty_N. case_decide as Hn.
  - subst n. by exists 10.
  - rewrite pretty_N_go_step by lia.
    assert (n `mod` 10 < 10)%N as Hmod by (apply N.mod_lt; lia).
    assert (digits_value (String (pretty_N_char (n `mod` 10)) "")
            = Some (Z.of_N (n `mod` 10), 10)) as Hone.
    { simpl. by rewrite (digit_of_pretty_N_char _ Hmod). }
    destruct (digits_value_pretty_N_go (n `div` 10)%N _ _ _ Hone) as [w Hw].
    exists w. rewrite Hw.
    pose proof (N.div_mod n 10 ltac:(lia)) as Hdm. do 2 f_equal. lia.
Qed.

Lemma digit_not_space (c : ascii) (d : Z) :
  digit_of c = Some d → is_space c = false.
Proof.
  destruct c as [[] [] [] [] [] [] [] []]; vm_compute; congruence.
Qed.

Lemma rstrip_cons (c : ascii) (s : string) :
  s ≠ EmptyString → rstrip s = s → rstrip (String c s) = String c s.
Proof.
  intros Hne Hs. destruct s as [| c' s']; [done |].
  change (rstrip (String c (String c' s')))
    with (match rstrip (String c' s') with
          | EmptyString =>
              if is_space c then EmptyString else String c EmptyString
          | r => String c r
          end).
  by rewrite Hs.
Qed.

Lemma rstrip_digits (s : string) (vw : Z * Z) :
  digits_value s = Some vw → rstrip s = s.
Proof.
  revert s vw. apply digits_value_shape.
  - intros c d Hc. simpl. by rewrite (digit_not_space _ _ Hc).
  - intros c d s _ Hne Hs. by apply rstrip_cons.
  - intros c d s _ Hne Hs. apply rstrip_cons; [done |].
    by apply rstrip_cons.
Qed.

Lemma decimal_int_digits (s : string) (v w : Z) :
  digits_value s = Some (v, w) → decimal_int s = Some v.
Proof.
  intros Hs. unfold decimal_int.
  destruct (digits_value_head _ _ Hs) as (c & s' & d & -> & Hc).
  assert (lstrip (String c s') = String c s') as ->.
  { simpl. by rewrite (digit_not_space _ _ Hc). }
  rewrite (rstrip_digits _ _ Hs).
  destruct c as [[] [] [] [] [] [] [] []];
    try (vm_compute in Hc; discriminate Hc); by rewrite Hs.
Qed.

Lemma decimal_int_pretty (n : N) : decimal_int (pretty n) = Some (Z.of_N n).
Proof.
  destruct (digits_value_pretty n) as [w Hw].
  by apply (decimal_int_digits _ _ w).
Qed.

(** The runtime used to run the model: decimal [int], plain texts for the
    faults. *)
#[export] Instance decimal_runtime : Runtime :=
  {| int_of_text := decimal_int;
     int_of_text_pretty := decimal_int_pretty;
     container_text := bracket_text;
     fault_text := λ f,
       match f with
       | BadIntLiteral s => "invalid literal for int(): " +:+ s
       | IntOfNonNumber => "int() argument is not a number"
       | NoSuchAttribute a => "object has no attribute " +:+ a
       | Unhashable => "unhashable type"
       | BadCall f => f +:+ "() is missing an argument"
       | BadByte => "bytes must be in range(0, 256)"
       | BadIndex => "list index out of range"
       | BusFault => "I2C transfer failed"
       end |}.

(** ** Elementary facts *)

Lemma between_spec (lo x hi : Z) : between lo x hi = true ↔ lo ≤ x ≤ hi.
Proof. unfold between. rewrite andb_true_iff, !Z.leb_le. done. Qed.

Lemma between_false (lo x hi : Z) :
  between lo x hi = false ↔ ¬ (lo ≤ x ≤ hi).
Proof. rewrite <- between_spec. by destruct (between lo x hi). Qed.

Section LoggerFacts.
Context `{Runtime} `{Config}.

(** Only ERROR and CRITICAL lines can raise. *)
Lemma log_DEBUG : _log DEBUG = Ok tt.
Proof. unfold _log. case_bool_decide; [| done]. by rewrite andb_false_r. Qed.

Lemma log_INFO : _log INFO = Ok tt.
Proof. unfold _log. case_bool_decide; [| done]. by rewrite andb_false_r. Qed.

Lemma log_no_debug (l : level) : system_debug = false → _log l = Ok tt.
Proof.
  intros Hd. unfold _log, logger_debug_mode. rewrite Hd.
  by case_bool_decide.
Qed.

(** Debug lines are printed exactly when the configured level is DEBUG. *)
Lemma log_level_DEBUG : logger_level ≤ 0 ↔ system_log_level = "DEBUG".
Proof.
  unfold logger_level, LEVELS.
  destruct (decide (system_log_level = "DEBUG")) as [-> | Hn0]; [done |].
  destruct (decide (system_log_level = "INFO")) as [-> | Hn1]; [done |].
  destruct (decide (system_log_level = "WARNING")) as [-> | Hn2]; [done |].
  destruct (decide (system_log_level = "ERROR")) as [-> | Hn3]; [done |].
  destruct (decide (system_log_level = "CRITICAL")) as [-> | Hn4]; [done |].
  rewrite !lookup_insert_ne by done. by rewrite lookup_singleton_ne.
Qed.

Lemma log_prints_DEBUG (message : string) :
  _log_prints DEBUG message
  = if bool_decide (system_log_level = "DEBUG") then [(DEBUG, message)]
    else [].
Proof.
  unfold _log_prints. change (default 0 (LEVELS !! level_name DEBUG)) with 0.
  pose proof log_level_DEBUG as Hl.
  destruct (decide (system_log_level = "DEBUG")) as [Hd | Hd].
  - rewrite (bool_decide_eq_true_2 _ Hd).
    rewrite bool_decide_eq_true_2; [done |]. apply Hl in Hd. lia.
  - rewrite (bool_decide_eq_false_2 _ Hd).
    rewrite bool_decide_eq_false_2; [done |]. intros Hge. apply Hd, Hl. lia.
Qed.

(** The loop of a scan round hands the logger the notification of each
    changed entry of [items], in order, and never raises. *)
Lemma log_changes_run (prev : gmap string bool) (items : list (string * bool)) :
  log_changes prev items
  = Ok (input_note <$> filter (λ kv, prev !! kv.1 ≠ Some kv.2) items).
Proof.
  induction items as [| [key v] items IH]; [done |].
  cbn [log_changes]. rewrite IH, log_DEBUG.
  rewrite filter_cons. cbn [fst snd].
  destruct (decide (prev !! key ≠ Some v)) as [Hne | Heq].
  - assert (bool_decide (prev !! key = None)
            || bool_decide (prev !! key ≠ Some v) = true) as ->.
    { rewrite (bool_decide_eq_true_2 (prev !! key ≠ Some v)) by done.
      apply orb_true_r. }
    done.
  - assert (bool_decide (prev !! key = None)
            || bool_decide (prev !! key ≠ Some v) = false) as ->.
    { rewrite (bool_decide_eq_false_2 (prev !! key ≠ Some v)) by done.
      rewrite bool_decide_eq_false_2; [done |].
      intros Hnone. apply Heq. by rewrite Hnone. }
    done.
Qed.

(** What the logger prints of a list of debug messages: all of them when
    the configured level is DEBUG, none otherwise. *)
Lemma log_prints_debug_messages (messages : list string) :
  flat_map (_log_prints DEBUG) messages
  = if bool_decide (system_log_level = "DEBUG") then
      (λ message, (DEBUG, message)) <$> messages
    else [].
Proof.
  induction messages as [| m messages IH]; [by case_bool_decide |].
  cbn [flat_map]. rewrite IH, log_prints_DEBUG.
  by case_bool_decide.
Qed.
End LoggerFacts.

(** ** The bus and the retry loop *)

Section HardwareFacts.
Context `{Runtime} `{Config}.

Lemma same_lines_refl b : same_lines b b.
Proof. done. Qed.

Lemma same_lines_trans b1 b2 b3 :
  same_lines b1 b2 → same_lines b2 b3 → same_lines b1 b3.
Proof. intros [? ?] [? ?]. split; congruence. Qed.

Lemma transfer_lines b : same_lines b (transfer b).2.
Proof. unfold transfer. by destruct (faults b) as [| [] ?]. Qed.

Lemma transfer_clear b :
  clear b → ∃ b', transfer b = (Ok tt, b') ∧ clear b' ∧ same_lines b b'.
Proof.
  unfold clear, transfer. intros Hc.
  destruct (faults b) as [| f rest] eqn:Hf.
  - exists b. by rewrite Hf.
  - apply Forall_cons in Hc as [-> Hrest]. eexists. split; [done |].
    split; [exact Hrest | done].
Qed.

(** The retry loop: when every attempt either succeeds with [Q] or fails
    leaving the lines alone, so does the loop. *)
Lemma retry_rounds_spec {A} (Q : I2C → A → I2C → Prop) dev
    (operation : M I2C A) :
  (∀ b, match operation b with
        | (Ok a, b') => Q b a b'
        | (Err _, b') => same_lines b b'
        end) →
  (∀ b1 b2 a b3, same_lines b1 b2 → Q b2 a b3 → Q b1 a b3) →
  ∀ attempts last b,
    match retry_rounds dev attempts last operation b with
    | (Ok a, b') => Q b a b'
    | (Err _, b') => same_lines b b'
    end.
Proof.
  intros Hop Hq attempts.
  induction attempts as [| n IH]; intros last b; [done |].
  simpl. unfold try_except. specialize (Hop b).
  destruct (operation b) as [[a | e] b1]; [done |].
  unfold bind, lift.
  destruct (if bool_decide (n = 0%nat) then _log ERROR else _log DEBUG);
    [| done].
  specialize (IH (str_exn e) b1).
  destruct (retry_rounds dev n (str_exn e) operation b1) as [[a' | e'] b2].
  - by eapply Hq.
  - by eapply same_lines_trans.
Qed.

(** A first attempt that succeeds ends the loop. *)
Lemma retry_rounds_first {A} dev (operation : M I2C A) last b a b' n :
  operation b = (Ok a, b') →
  retry_rounds dev (S n) last operation b = (Ok a, b').
Proof. intros Hop. simpl. unfold try_except. by rewrite Hop. Qed.

Lemma _write_spec dev reg value b :
  match _write dev reg value b with
  | (Ok _, b') =>
      wire b' = (wire b ++ written dev reg value)%list ∧ port b' = port b
  | (Err _, b') => same_lines b b'
  end.
Proof.
  unfold _write, written. destruct (is_valid dev); simpl.
  { unfold _retry_operation.
    apply (retry_rounds_spec
             (λ b _ b', wire b' = (wire b ++ [(address dev, [reg; value])])%list
                        ∧ port b' = port b)).
    - intros b0. unfold bind, lift, writeto, bytes.
      destruct (forallb _ _); [| done]. unfold bind.
      pose proof (transfer_lines b0) as [Hw Hp].
      destruct (transfer b0) as [[[] | e] b1]; simpl in *; [| done].
      by rewrite Hw, Hp.
    - intros b1 b2 _ b3 [Hw Hp] [Hw' Hp']. split; congruence. }
  unfold ret. by rewrite app_nil_r.
Qed.

Lemma _write_clear dev reg value b :
  clear b → 0 ≤ reg ≤ 255 → 0 ≤ value ≤ 255 →
  ∃ b', _write dev reg value b = (Ok tt, b') ∧ clear b'.
Proof.
  intros Hc Hreg Hval. unfold _write.
  destruct (is_valid dev); simpl; [| by exists b].
  destruct (transfer_clear b Hc) as (b1 & Ht & Hc1 & _).
  eexists. split.
  - apply retry_rounds_first. unfold bind, lift, writeto, bytes. simpl.
    assert (between 0 reg 255 = true) as -> by by apply between_spec.
    assert (between 0 value 255 = true) as -> by by apply between_spec.
    simpl. unfold bind. by rewrite Ht.
  - exact Hc1.
Qed.

Lemma set_pwm_spec dev channel on off b b' :
  set_pwm dev channel on off b = (Ok tt, b') →
  wire b' = (wire b ++ pwm_writes dev channel on off)%list
  ∧ port b' = port b.
Proof.
  unfold set_pwm, pwm_writes, LED0_ON_L.
  destruct (between 0 channel 15); simpl; [| discriminate].
  destruct (negb (between 0 on 4095) || negb (between 0 off 4095));
    [discriminate |].
  unfold bind.
  pose proof (_write_spec dev (6 + 4 * channel) (Z.land on 255) b) as H1.
  destruct (_write dev (6 + 4 * channel) (Z.land on 255) b)
    as [[[] | ?] b1]; [| discriminate].
  pose proof (_write_spec dev (6 + 4 * channel + 1) (Z.shiftr on 8) b1) as H2.
  destruct (_write dev (6 + 4 * channel + 1) (Z.shiftr on 8) b1)
    as [[[] | ?] b2]; [| discriminate].
  pose proof (_write_spec dev (6 + 4 * channel + 2) (Z.land off 255) b2) as H3.
  destruct (_write dev (6 + 4 * channel + 2) (Z.land off 255) b2)
    as [[[] | ?] b3]; [| discriminate].
  pose proof (_write_spec dev (6 + 4 * channel + 3) (Z.shiftr off 8) b3) as H4.
  destruct (_write dev (6 + 4 * channel + 3) (Z.shiftr off 8) b3)
    as [[[] | ?] b4]; [| discriminate].
  intros [= <-].
  destruct H1 as [Hw1 Hp1], H2 as [Hw2 Hp2], H3 as [Hw3 Hp3],
    H4 as [Hw4 Hp4].
  split; [| congruence].
  rewrite Hw4, Hw3, Hw2, Hw1, <- !app_assoc. done.
Qed.
End HardwareFacts.

(** ** The PWM controller *)

Lemma pulse_of_level_floor (l : Z) :
  0 ≤ l → pulse_of_level l = l * 4095 / 100.
Proof. intros Hl. unfold pulse_of_level. apply Z.quot_div_nonneg; lia. Qed.

Lemma pulse_of_level_range (l : Z) :
  0 ≤ l ≤ 100 → 0 ≤ pulse_of_level l ≤ 4095.
Proof.
  intros Hl. rewrite pulse_of_level_floor by lia. split.
  - apply Z.div_pos; lia.
  - apply Z.div_le_upper_bound; lia.
Qed.

Lemma low_byte_range (x : Z) : 0 ≤ Z.land x 255 ≤ 255.
Proof.
  change 255 with (Z.ones 8). rewrite Z.land_ones by lia.
  pose proof (Z.mod_pos_bound x (2 ^ 8) ltac:(lia)). change (Z.ones 8) with 255.
  lia.
Qed.

Lemma high_byte_range (x : Z) : 0 ≤ x ≤ 4095 → 0 ≤ Z.shiftr x 8 ≤ 255.
Proof.
  intros Hx. rewrite Z.shiftr_div_pow2 by lia. split.
  - apply Z.div_pos; lia.
  - apply Z.div_le_upper_bound; lia.
Qed.

Lemma bytes_join (x : Z) : Z.land x 255 + 256 * Z.shiftr x 8 = x.
Proof.
  change 255 with (Z.ones 8). rewrite Z.land_ones, Z.shiftr_div_pow2 by lia.
  change (2 ^ 8) with 256. pose proof (Z.div_mod x 256 ltac:(lia)). lia.
Qed.

Lemma register_last addr reg value (w : list (Z * list Z)) :
  register addr reg (w ++ [(addr, [reg; value])]) = Some value.
Proof.
  unfold register. rewrite omap_app. simpl.
  rewrite bool_decide_eq_true_2 by done. apply last_snoc.
Qed.

Lemma register_other addr reg reg' value (w : list (Z * list Z)) :
  reg ≠ reg' →
  register addr reg (w ++ [(addr, [reg'; value])]) = register addr reg w.
Proof.
  intros Hne. unfold register. rewrite omap_app. simpl.
  rewrite bool_decide_eq_false_2 by (intros [_ ?]; congruence).
  by rewrite app_nil_r.
Qed.

(** After the four writes of [set_pwm] the channel holds the OFF count. *)
Lemma channel_duty_pwm_writes dev channel on off (w : list (Z * list Z)) :
  is_valid dev = true →
  channel_duty (address dev) channel (w ++ pwm_writes dev channel on off)
  = Some off.
Proof.
  intros Hv. unfold channel_duty, pwm_writes, written. rewrite Hv.
  rewrite !app_assoc.
  rewrite (register_other _ (6 + 4 * channel + 2)) by lia.
  rewrite !register_last. by rewrite bytes_join.
Qed.

Section PwmFacts.
Context `{Runtime} `{Config}.

Lemma set_level_spec dev channel l b b' :
  set_level dev channel l b = (Ok tt, b') →
  0 ≤ channel ≤ 15
  ∧ wire b' = (wire b ++ pwm_writes dev channel 0
                 (pulse_of_level (Z.max 0 (Z.min 100 l))))%list
  ∧ port b' = port b.
Proof.
  unfold set_level.
  destruct (between 0 channel 15) eqn:Hc; simpl; [| discriminate].
  apply between_spec in Hc. unfold bind, lift.
  destruct (set_pwm dev channel 0 _ b) as [[[] | ?] b1] eqn:Hpwm;
    [| discriminate].
  rewrite log_DEBUG. intros [= <-].
  by destruct (set_pwm_spec _ _ _ _ _ _ Hpwm).
Qed.

(** An invalid channel is refused before the bus is touched. *)
Lemma set_level_rejects dev channel l b :
  ¬ (0 ≤ channel ≤ 15) →
  set_level dev channel l b
  = (Err (ValueError "Channel must be between 0 and 15"), b).
Proof.
  intros Hc. unfold set_level.
  apply between_false in Hc. by rewrite Hc.
Qed.

(** On a bus without faults [set_level] goes through. *)
Lemma set_level_clear dev channel l b :
  clear b → 0 ≤ channel ≤ 15 →
  ∃ b', set_level dev channel l b = (Ok tt, b') ∧ clear b'.
Proof.
  intros Hb Hc. unfold set_level, set_pwm, LED0_ON_L.
  assert (between 0 channel 15 = true) as -> by by apply between_spec.
  pose proof (pulse_of_level_range (Z.max 0 (Z.min 100 l)) ltac:(lia))
    as Hp.
  set (pulse := pulse_of_level (Z.max 0 (Z.min 100 l))) in *.
  assert (between 0 pulse 4095 = true) as -> by by apply between_spec.
  simpl. unfold bind, lift.
  change (Z.land 0 255) with 0. change (Z.shiftr 0 8) with 0.
  destruct (_write_clear dev (6 + 4 * channel) 0 b Hb
              ltac:(lia) ltac:(lia)) as (b1 & -> & Hb1).
  destruct (_write_clear dev (6 + 4 * channel + 1) 0 b1 Hb1
              ltac:(lia) ltac:(lia)) as (b2 & -> & Hb2).
  destruct (_write_clear dev (6 + 4 * channel + 2) (Z.land pulse 255) b2
              Hb2 ltac:(lia) (low_byte_range _)) as (b3 & -> & Hb3).
  destruct (_write_clear dev (6 + 4 * channel + 3) (Z.shiftr pulse 8) b3
              Hb3 ltac:(lia) (high_byte_range _ Hp)) as (b4 & -> & Hb4).
  rewrite log_DEBUG. by exists b4.
Qed.
End PwmFacts.

(** ** Text *)

Lemma append_nil (b : string) : "" +:+ b = b.
Proof. reflexivity. Qed.

Lemma append_cons (x : ascii) (a b : string) :
  String x a +:+ b = String x (a +:+ b).
Proof. reflexivity. Qed.

Lemma append_assoc (a b c : string) : (a +:+ b) +:+ c = a +:+ (b +:+ c).
Proof.
  induction a as [| x a IH]; [done |].
  rewrite !append_cons. by f_equal.
Qed.

Lemma prefix_app (a b c : string) :
  String.prefix (a +:+ b) (a +:+ c) = String.prefix b c.
Proof.
  induction a as [| x a IH]; [done |].
  rewrite !append_cons. simpl. by destruct (ascii_dec x x).
Qed.

Lemma endswith_unfold (s p : string) :
  endswith s p = if String.eqb s p then true
                 else match s with
                      | String _ s' => endswith s' p
                      | EmptyString => false
                      end.
Proof. by destruct s. Qed.

Lemma endswith_refl (s : string) : endswith s s = true.
Proof. by rewrite endswith_unfold, String.eqb_refl. Qed.

Lemma endswith_app (a b p : string) :
  endswith b p = true → endswith (a +:+ b) p = true.
Proof.
  intros Hb. induction a as [| x a IH]; [done |].
  rewrite append_cons, endswith_unfold, IH. by destruct (String.eqb _ _).
Qed.

Lemma split_piece (sep : ascii) (a rest : string) :
  lacks sep a = true →
  split (a +:+ String sep rest) sep = a :: split rest sep.
Proof.
  unfold split. induction a as [| x a IH].
  - intros _. rewrite append_nil. simpl.
    destruct (split_go sep rest). by rewrite decide_True.
  - rewrite append_cons. simpl.
    intros [Hx Ha]%andb_true_iff. specialize (IH Ha).
    destruct (split_go sep (a +:+ String sep rest)) as [p ps].
    destruct (split_go sep rest) as [q qs].
    apply negb_true_iff, bool_decide_eq_false in Hx.
    rewrite decide_False by done. by simplify_eq.
Qed.

Lemma split_last (sep : ascii) (a : string) :
  lacks sep a = true → split a sep = [a].
Proof.
  unfold split. induction a as [| x a IH]; simpl; [done |].
  intros [Hx Ha]%andb_true_iff. specialize (IH Ha).
  destruct (split_go sep a) as [p ps].
  apply negb_true_iff, bool_decide_eq_false in Hx.
  rewrite decide_False by done. by simplify_eq.
Qed.

(** Splitting a run of channels off: what follows is used for every channel
    and relay number. *)
Ltac cases_0_15 c :=
  let Hcases := fresh "Hcases" in
  assert (c = 0 ∨ c = 1 ∨ c = 2 ∨ c = 3 ∨ c = 4 ∨ c = 5 ∨ c = 6 ∨ c = 7
          ∨ c = 8 ∨ c = 9 ∨ c = 10 ∨ c = 11 ∨ c = 12 ∨ c = 13 ∨ c = 14
          ∨ c = 15) as Hcases by lia;
  repeat (destruct Hcases as [-> | Hcases]); [.. | subst c].

Lemma replace_PWM_channel (c : Z) :
  0 ≤ c ≤ 15 → replace_PWM ("PWM" +:+ pretty c) = pretty c.
Proof. intros Hc. cases_0_15 c; reflexivity. Qed.

Lemma lacks_slash_channel (c : Z) :
  0 ≤ c ≤ 15 → lacks "/" (pretty c) = true.
Proof. intros Hc. cases_0_15 c; reflexivity. Qed.

Section TextFacts.
Context `{Runtime}.

Lemma int_of_text_pretty_Z (c : Z) :
  0 ≤ c → int_of_text (pretty c) = Some c.
Proof.
  intros Hc. destruct c as [| p | p]; [| | lia].
  - apply (int_of_text_pretty 0).
  - apply (int_of_text_pretty (N.pos p)).
Qed.
End TextFacts.

(** ** The direct dimmer command *)

Section CommandFacts.
Context `{Runtime} `{Config}.

Lemma startswith_append (p s : string) : startswith (p +:+ s) p = true.
Proof.
  unfold startswith. induction p as [| x p IH]; [by destruct s |].
  rewrite append_cons. simpl. by destruct (ascii_dec x x).
Qed.

Lemma channel_name_truthy (c : Z) :
  truthy (VStr ("PWM" +:+ pretty c)) = true
  ∧ startswith ("PWM" +:+ pretty c) "PWM" = true.
Proof. split; [reflexivity | apply startswith_append]. Qed.

(** A well-formed dimmer command reaches the hardware call. *)
Lemma handle_dimmer_run now c level app :
  0 ≤ c ≤ 15 →
  _handle_dimmer_command now (set_dimmer_command c level) app =
  (do _ <- on_pca9685 (λ dev, set_level dev c level);
   do _ <- on_state (update_dimmer now ("PWM" +:+ pretty c) level);
   lift (_log INFO)) app.
Proof.
  intros Hc. unfold _handle_dimmer_command, set_dimmer_command.
  unfold bind at 1. unfold lift at 1. unfold py_get.
  rewrite lookup_insert_ne by done. rewrite lookup_insert_eq.
  unfold bind at 1. unfold lift at 1. unfold py_get_default.
  rewrite !lookup_insert_ne by done. rewrite lookup_singleton_eq.
  unfold bind at 1. unfold lift at 1. unfold default. cbn [from_option id py_int].
  destruct (channel_name_truthy c) as [-> ->]. cbn [negb].
  unfold bind at 1. unfold ret at 1.
  unfold bind at 1. unfold lift at 1. unfold py_int.
  rewrite replace_PWM_channel, int_of_text_pretty_Z by lia.
  assert (between 0 c 15 = true) as -> by by apply between_spec.
  done.
Qed.

Lemma update_dimmer_ok now channel level sm :
  0 ≤ level ≤ 100 →
  update_dimmer now channel level sm
  = (Ok tt, dimmer_written now channel level sm).
Proof.
  intros Hl. unfold update_dimmer.
  assert (between 0 level 100 = true) as -> by by apply between_spec.
  done.
Qed.

Lemma update_dimmer_rejects now channel level sm :
  ¬ (0 ≤ level ≤ 100) →
  update_dimmer now channel level sm
  = (Err (ValueError "Dimmer level must be between 0 and 100"), sm).
Proof.
  intros Hl. unfold update_dimmer.
  apply between_false in Hl. by rewrite Hl.
Qed.

Lemma process_set_dimmer now c level app :
  0 ≤ c ≤ 15 →
  process_command now (set_dimmer_command c level) app =
  try_except
    (do _ <- (do _ <- on_pca9685 (λ dev, set_level dev c level);
              do _ <- on_state (update_dimmer now ("PWM" +:+ pretty c) level);
              lift (_log INFO));
     ret (VDict {[ "status" := VStr "success";
                   "command" := set_dimmer_command c level ]}))
    (λ e, do _ <- lift (_log ERROR);
          ret (VDict {[ "status" := VStr "error";
                        "message" := VStr (str_exn e) ]})) app.
Proof.
  intros Hc. unfold process_command, try_except.
  unfold bind at 1. unfold lift at 1.
  assert (py_get (set_dimmer_command c level) "type"
          = Ok (VStr "set_dimmer")) as -> by done.
  cbn [eq_str]. rewrite String.eqb_refl.
  unfold bind at 1. rewrite handle_dimmer_run by done.
  unfold bind at 5. done.
Qed.

(** The direct dimmer command when the bus carries the four writes. *)
Lemma process_set_dimmer_ok now c level app b' :
  0 ≤ c ≤ 15 → 0 ≤ level ≤ 100 →
  set_level (pca9685 (hardware_manager app)) c level
    (i2c (hardware_manager app)) = (Ok tt, b') →
  process_command now (set_dimmer_command c level) app =
  (Ok (VDict {[ "status" := VStr "success";
                "command" := set_dimmer_command c level ]}),
   {| state_manager :=
        dimmer_written now ("PWM" +:+ pretty c) level (state_manager app);
      hardware_manager := set_i2c b' (hardware_manager app);
      mqtt_out := mqtt_out app |}).
Proof.
  intros Hc Hl Hset. rewrite process_set_dimmer by done.
  unfold try_except, bind, on_pca9685, on_hardware, on_state, zoom, lift,
    ret. cbn. rewrite Hset. cbn.
  rewrite update_dimmer_ok by done. cbn. by rewrite log_INFO.
Qed.
End CommandFacts.

Lemma snapshot_dimmer_get_state (sm : StateManager) (channel : string) :
  snapshot_dimmer (get_state sm) channel
  = VInt <$> dimmer_levels sm !! channel.
Proof.
  unfold snapshot_dimmer, get_state, py_item.
  rewrite lookup_insert_eq. by rewrite lookup_fmap.
Qed.

(** C1, as the code has it: for every channel c in [0,15] and every level
    in [0,100], a set-dimmer command on a bus without faults succeeds; and
    whenever the command succeeds, on any bus, the snapshot reports
    dimmers[c] equal to the level and the duty value the PCA9685 holds for
    the channel is level * 4095 / 100 rounded down, which lies in
    [0,4095]. *)
Theorem C1_set_dimmer_duty_rounds_down `{Runtime} `{Config}
    (now c level : Z) (app : App) :
  0 ≤ c ≤ 15 → 0 ≤ level ≤ 100 →
  is_valid (pca9685 (hardware_manager app)) = true →
  let run := process_command now (set_dimmer_command c level) app in
  (clear (i2c (hardware_manager app)) →
   ∃ response, run.1 = Ok response
               ∧ status_of response = Some (VStr "success"))
  ∧ (∀ response,
       run.1 = Ok response → status_of response = Some (VStr "success") →
       snapshot_dimmer (get_state (state_manager run.2)) ("PWM" +:+ pretty c)
       = Some (VInt level)
       ∧ channel_duty (address (pca9685 (hardware_manager run.2))) c
           (wire (i2c (hardware_manager run.2)))
         = Some (level * 4095 / 100))
  ∧ 0 ≤ level * 4095 / 100 ≤ 4095.
Proof.
  intros Hc Hl Hvalid run. split; [| split].
  - intros Hbus.
    destruct (set_level_clear (pca9685 (hardware_manager app)) c level _
                Hbus Hc) as (b' & Hset & _).
    unfold run. rewrite (process_set_dimmer_ok _ _ _ _ b') by done.
    by eexists.
  - intros response Hrun Hstatus. unfold run in *. clear run.
    destruct (set_level (pca9685 (hardware_manager app)) c level
                (i2c (hardware_manager app))) as [[[] | e] b'] eqn:Hset.
    + rewrite (process_set_dimmer_ok _ _ _ _ b') by done.
      destruct (set_level_spec _ _ _ _ _ Hset) as (_ & Hwire & _).
      split.
      * rewrite snapshot_dimmer_get_state. cbn. by rewrite lookup_insert_eq.
      * cbn. rewrite Hwire, channel_duty_pwm_writes by done.
        f_equal. replace (Z.max 0 (Z.min 100 level)) with level by lia.
        apply pulse_of_level_floor. lia.
    + exfalso. revert Hrun Hstatus. rewrite process_set_dimmer by done.
      unfold try_except, bind, on_pca9685, on_hardware, zoom, lift, ret.
      cbn. rewrite Hset. cbn.
      destruct (_log ERROR); cbn; [| discriminate].
      intros [= <-]. unfold status_of, py_item.
      rewrite lookup_insert_eq. discriminate.
  - rewrite <- pulse_of_level_floor by lia. by apply pulse_of_level_range.
Qed.

Lemma C1_witness :
  let run := @process_command decimal_runtime DEFAULT_CONFIG 7
               (set_dimmer_command 3 50) demo_app in
  (∃ response, run.1 = Ok response
               ∧ status_of response = Some (VStr "success"))
  ∧ 0 ≤ 50 * 4095 / 100 ≤ 4095.
Proof.
  destruct (@C1_set_dimmer_duty_rounds_down decimal_runtime DEFAULT_CONFIG
              7 3 50 demo_app) as (Hok & _ & Hrange);
    [lia | lia | reflexivity |].
  split; [apply Hok; constructor | exact Hrange].
Defined.

(** C1 as stated fails: at level 1 the duty written is 40, while
    1 * 4095 / 100 = 40.95 rounds to 41. *)
Lemma C1_counterexample :
  ¬ (∀ c level : Z, 0 ≤ c ≤ 15 → 0 ≤ level ≤ 100 →
       ∃ duty,
         channel_duty 64 c
           (wire (i2c (hardware_manager
              (@process_command decimal_runtime DEFAULT_CONFIG 0
                 (set_dimmer_command c level) demo_app).2)))
         = Some duty
         ∧ is_rounding (level * 4095) 100 duty).
Proof.
  intros Hall.
  destruct (Hall 3 1 ltac:(lia) ltac:(lia)) as (duty & Hduty & Hround).
  vm_compute in Hduty. injection Hduty as <-.
  unfold is_rounding in Hround. lia.
Qed.

(** A level outside [0,100] on a valid channel: the PWM controller is
    written with the clamped level before [update_dimmer] refuses. *)
Lemma set_dimmer_overrange `{Runtime} `{Config} (now c level : Z) (app : App) :
  0 ≤ c ≤ 15 → ¬ (0 ≤ level ≤ 100) →
  clear (i2c (hardware_manager app)) →
  is_valid (pca9685 (hardware_manager app)) = true →
  let app' := (process_command now (set_dimmer_command c level) app).2 in
  state_manager app' = state_manager app
  ∧ channel_duty (address (pca9685 (hardware_manager app'))) c
      (wire (i2c (hardware_manager app')))
    = Some (pulse_of_level (clamp level)).
Proof.
  intros Hc Hl Hbus Hvalid.
  destruct (set_level_clear (pca9685 (hardware_manager app)) c level _
              Hbus Hc) as (b' & Hset & _).
  destruct (set_level_spec _ _ _ _ _ Hset) as (_ & Hwire & _).
  rewrite process_set_dimmer by done.
  unfold try_except, bind, on_pca9685, on_hardware, on_state, zoom, lift, ret.
  cbn. rewrite Hset. cbn. rewrite update_dimmer_rejects by done. cbn.
  destruct (_log ERROR); cbn; (split; [done |]);
    by rewrite Hwire, channel_duty_pwm_writes.
Qed.

(** A dimmer command whose channel names no number in [0,15] changes
    nothing, neither on the bus nor in the state mirror. *)
Lemma handle_dimmer_bad_channel `{Runtime} `{Config} (now : Z)
    (command : pyval) (app : App) :
  (∀ name n, py_get command "channel" = Ok (VStr name) →
             int_of_text (replace_PWM name) = Some n → ¬ (0 ≤ n ≤ 15)) →
  ∃ e, _handle_dimmer_command now command app = (Err e, app).
Proof.
  intros Hbad. unfold _handle_dimmer_command, bind, lift, raise, ret.
  destruct (py_get command "channel") as [channel | e]; [| by eexists].
  destruct (py_get_default command "value" (VInt 0)) as [raw | e];
    [| by eexists].
  destruct (py_int raw) as [value | e]; [| by eexists].
  destruct (negb (truthy channel)); [by eexists |].
  destruct channel as [| | | name | |]; try by eexists.
  destruct (negb (startswith name "PWM")); [by eexists |].
  unfold py_int.
  destruct (int_of_text (replace_PWM name)) as [n |] eqn:Hn; [| by eexists].
  specialize (Hbad name n eq_refl Hn). apply between_false in Hbad.
  rewrite Hbad. by eexists.
Qed.

(** C3 on the code: a direct set-dimmer request for channel 3 with level 150
    is answered with an error and leaves the state mirror as it was, but only
    after the PWM controller has been written: channel 3, which held no duty
    value, now holds 4095. *)
Theorem C3_level_150_written_before_rejection :
  let run := @process_command decimal_runtime DEFAULT_CONFIG 7
               (set_dimmer_command 3 150) demo_app in
  (∃ response, run.1 = Ok response
               ∧ status_of response = Some (VStr "error"))
  ∧ state_manager run.2 = state_manager demo_app
  ∧ channel_duty 64 3 (wire (i2c (hardware_manager demo_app))) = None
  ∧ channel_duty 64 3 (wire (i2c (hardware_manager run.2))) = Some 4095.
Proof.
  cbv zeta. split; [| split; [| split]].
  - eexists. split; [by vm_compute | by vm_compute].
  - by vm_compute.
  - by vm_compute.
  - by vm_compute.
Qed.

(** ** The state mirror *)

Lemma pwm_table_lookup (v : Z) (key : string) (x : Z) :
  pwm_table v !! key = Some x → x = v.
Proof.
  unfold pwm_table. intros Hk.
  apply elem_of_list_to_map_2, list_elem_of_fmap in Hk as (i & Heq & _).
  by simplify_eq.
Qed.

Lemma pwm_table_channel (v c : Z) :
  0 ≤ c ≤ 15 → pwm_table v !! ("PWM" +:+ pretty c) = Some v.
Proof. intros Hc. cases_0_15 c; reflexivity. Qed.

(** C5, as the code has it: at start-up every dimmer level is 0, every entry
    of last_non_zero_levels is 100, both relays are off in the state mirror
    and in the relay controller, and the input map is empty. *)
Theorem C5_initial_state `{Config} (now : Z) (bus : I2C) (v1 v2 v3 : bool) :
  let app := App_init now bus v1 v2 v3 in
  let sm := state_manager app in
  (∀ c, 0 ≤ c ≤ 15 → dimmer_levels sm !! ("PWM" +:+ pretty c) = Some 0)
  ∧ (∀ key x, dimmer_levels sm !! key = Some x → x = 0)
  ∧ (∀ c, 0 ≤ c ≤ 15 →
       last_non_zero_levels sm !! ("PWM" +:+ pretty c) = Some 100)
  ∧ (∀ key x, last_non_zero_levels sm !! key = Some x → x = 100)
  ∧ relay_states sm = {[ "Relay1" := false; "Relay2" := false ]}
  ∧ states (relay_controller (hardware_manager app))
    = {[ "Relay1" := false; "Relay2" := false ]}
  ∧ input_states sm = ∅.
Proof.
  cbn. repeat split.
  - apply pwm_table_channel.
  - apply pwm_table_lookup.
  - apply pwm_table_channel.
  - apply pwm_table_lookup.
Qed.

Lemma C5_witness :
  dimmer_levels (StateManager_init 0) !! ("PWM" +:+ pretty 15) = Some 0
  ∧ last_non_zero_levels (StateManager_init 0) !! ("PWM" +:+ pretty 15)
    = Some 100.
Proof.
  pose proof (@C5_initial_state DEFAULT_CONFIG 0 quiet_bus true true true)
    as (Hdim & _ & Hlast & _).
  split; [apply Hdim | apply Hlast]; lia.
Defined.

(** C5 as stated fails: the entries of last_non_zero_levels start at 100,
    not at 0. *)
Lemma C5_counterexample :
  ¬ (∀ key x,
       last_non_zero_levels (StateManager_init 0) !! key = Some x → x = 0).
Proof.
  intros Hall. specialize (Hall "PWM0" 100 eq_refl). discriminate.
Qed.


(** ** Relays *)

Section RelayFacts.
Context `{Runtime} `{Config}.

Lemma set_relay_run name state rc :
  name ∈ dom (states rc) →
  set_relay name state rc = (Ok tt, relay_switched name state rc).
Proof.
  intros Hin. unfold set_relay, relay_switched.
  rewrite bool_decide_eq_true_2 by done. cbn [negb]. rewrite log_DEBUG.
  f_equal. by repeat case_bool_decide.
Qed.

Lemma set_relay_unknown name state rc :
  name ∉ dom (states rc) → ∃ e, set_relay name state rc = (Err e, rc).
Proof.
  intros Hin. unfold set_relay.
  rewrite bool_decide_eq_false_2 by done. by eexists.
Qed.

Lemma toggle_relay_run name s rc :
  states rc !! name = Some s →
  toggle_relay name rc = (Ok (negb s), relay_switched name (negb s) rc).
Proof.
  intros Hs. unfold toggle_relay. rewrite Hs. unfold bind.
  rewrite set_relay_run; [done |]. apply elem_of_dom. by eexists.
Qed.

Lemma toggle_relay_unknown name rc :
  states rc !! name = None → ∃ e, toggle_relay name rc = (Err e, rc).
Proof. intros Hs. unfold toggle_relay. rewrite Hs. by eexists. Qed.

Lemma update_relay_run now name state sm :
  name ∈ dom (relay_states sm) →
  update_relay now name state sm = (Ok tt, relay_written now name state sm).
Proof.
  intros Hin. unfold update_relay.
  by rewrite bool_decide_eq_true_2 by done.
Qed.

(** The direct toggle command on a relay both copies know. *)
Lemma process_toggle_relay now name s app :
  states (relay_controller (hardware_manager app)) !! name = Some s →
  name ∈ dom (relay_states (state_manager app)) →
  process_command now (toggle_relay_command name) app =
  (Ok (VDict {[ "status" := VStr "success";
                "command" := toggle_relay_command name ]}),
   {| state_manager := relay_written now name (negb s) (state_manager app);
      hardware_manager :=
        set_relay_controller
          (relay_switched name (negb s)
             (relay_controller (hardware_manager app)))
          (hardware_manager app);
      mqtt_out := mqtt_out app |}).
Proof.
  intros Hs Hin. unfold process_command, try_except.
  unfold bind at 1. unfold lift at 1.
  assert (py_get (toggle_relay_command name) "type"
          = Ok (VStr "toggle_relay")) as -> by done.
  cbn [eq_str]. 
  change (String.eqb "toggle_relay" "set_dimmer") with false.
  rewrite String.eqb_refl. cbv iota.
  unfold bind at 1. unfold _handle_relay_command.
  unfold bind at 1. unfold lift at 1.
  assert (py_get (toggle_relay_command name) "channel"
          = Ok (VStr name)) as ->.
  { unfold py_get, toggle_relay_command.
    rewrite lookup_insert_ne by done. by rewrite lookup_singleton_eq. }
  unfold bind at 1. cbn [py_in].
  rewrite bool_decide_eq_true_2 by done. cbn [negb].
  unfold bind, on_relays, on_hardware, on_state, zoom, lift, ret. cbn.
  rewrite (toggle_relay_run _ _ _ Hs). cbn.
  rewrite update_relay_run by done. cbn. by rewrite log_INFO.
Qed.
End RelayFacts.

(** C9: for every relay, whatever its state, two toggle_relay commands in a
    row both succeed; the controller's toggle returns the negation of the
    relay's state each time, so the two returned values are each other's
    negation; after the first command the relay and its pin are inverted,
    after the second they are back where they were; and after each command
    the state mirror's entry for the relay equals the controller's. *)
Theorem C9_toggle_relay_twice `{Runtime} `{Config}
    (now1 now2 : Z) (name : string) (s : bool) (app : App) :
  states (relay_controller (hardware_manager app)) !! name = Some s →
  name ∈ dom (relay_states (state_manager app)) →
  ∃ r1 app1 r2 app2,
    process_command now1 (toggle_relay_command name) app = (Ok r1, app1)
    ∧ process_command now2 (toggle_relay_command name) app1 = (Ok r2, app2)
    ∧ status_of r1 = Some (VStr "success")
    ∧ status_of r2 = Some (VStr "success")
    ∧ (toggle_relay name (relay_controller (hardware_manager app))).1
      = Ok (negb s)
    ∧ (toggle_relay name (relay_controller (hardware_manager app1))).1
      = Ok (negb (negb s))
    ∧ states (relay_controller (hardware_manager app1)) !! name
      = Some (negb s)
    ∧ relay_states (state_manager app1) !! name = Some (negb s)
    ∧ states (relay_controller (hardware_manager app2)) !! name = Some s
    ∧ relay_states (state_manager app2) !! name = Some s
    ∧ states (relay_controller (hardware_manager app2))
      = states (relay_controller (hardware_manager app))
    ∧ (∀ level,
         relay_pin name (relay_controller (hardware_manager app))
         = Some level →
         level = (if s then 1 else 0) →
         relay_pin name (relay_controller (hardware_manager app2))
         = Some level).
Proof.
  intros Hs Hin.
  pose proof (process_toggle_relay now1 name s app Hs Hin) as Hrun1.
  set (app1 := {| state_manager :=
                    relay_written now1 name (negb s) (state_manager app);
                  hardware_manager :=
                    set_relay_controller
                      (relay_switched name (negb s)
                         (relay_controller (hardware_manager app)))
                      (hardware_manager app);
                  mqtt_out := mqtt_out app |}) in *.
  assert (states (relay_controller (hardware_manager app1)) !! name
          = Some (negb s)) as Hs1 by apply lookup_insert_eq.
  assert (name ∈ dom (relay_states (state_manager app1))) as Hin1.
  { cbn. rewrite dom_insert. set_solver. }
  pose proof (process_toggle_relay now2 name (negb s) app1 Hs1 Hin1) as Hrun2.
  eexists _, _, _, _. split; [exact Hrun1 |]. split; [exact Hrun2 |].
  split; [done |]. split; [done |].
  split; [by rewrite (toggle_relay_run _ _ _ Hs) |].
  split; [by rewrite (toggle_relay_run _ _ _ Hs1) |].
  split; [done |]. split; [apply lookup_insert_eq |].
  rewrite negb_involutive.
  split; [apply lookup_insert_eq |]. split; [apply lookup_insert_eq |].
  split.
  - cbn. rewrite insert_insert_eq. by apply insert_id.
  - intros level. unfold relay_pin. cbn.
    repeat case_bool_decide; try done; intros [= <-] ->; done.
Qed.

Lemma C9_witness :
  ∃ r1 app1 r2 app2,
    @process_command decimal_runtime DEFAULT_CONFIG 1
      (toggle_relay_command "Relay1") demo_app = (Ok r1, app1)
    ∧ @process_command decimal_runtime DEFAULT_CONFIG 2
        (toggle_relay_command "Relay1") app1 = (Ok r2, app2)
    ∧ states (relay_controller (hardware_manager app1)) !! "Relay1"
      = Some true
    ∧ relay_states (state_manager app1) !! "Relay1" = Some true
    ∧ states (relay_controller (hardware_manager app2)) !! "Relay1"
      = Some false
    ∧ relay_states (state_manager app2) !! "Relay1" = Some false.
Proof.
  destruct (@C9_toggle_relay_twice decimal_runtime DEFAULT_CONFIG 1 2
              "Relay1" false demo_app)
    as (r1 & app1 & r2 & app2 & H1 & H2 & _ & _ & _ & _ & H3 & H4 & H5 & H6
        & _).
  - reflexivity.
  - by vm_compute.
  - by exists r1, app1, r2, app2.
Defined.

(** ** The direct command interface *)

Lemma status_of_get_state (sm : StateManager) : status_of (get_state sm) = None.
Proof.
  unfold status_of, get_state, py_item.
  rewrite !lookup_insert_ne by done. by rewrite lookup_singleton_ne.
Qed.

Lemma status_of_success command :
  status_of (success_response command) = Some (VStr "success").
Proof. done. Qed.

Lemma status_of_error message :
  status_of (error_response message) = Some (VStr "error").
Proof. done. Qed.

Section Responses.
Context `{Runtime} `{Config}.

(** [process_command] turns the outcome of a handler into a response. *)
Lemma process_command_dimmer now command app t :
  system_debug = false →
  py_get command "type" = Ok t → eq_str t "set_dimmer" = true →
  process_command now command app
  = match _handle_dimmer_command now command app with
    | (Ok _, app') => (Ok (success_response command), app')
    | (Err e, app') => (Ok (error_response (str_exn e)), app')
    end.
Proof.
  intros Hd Ht Hdim. unfold process_command, try_except.
  unfold bind at 1. unfold lift at 1. rewrite Ht, Hdim.
  unfold bind at 1.
  destruct (_handle_dimmer_command now command app) as [[[] | e] app1];
    [done |].
  unfold bind, lift, ret. by rewrite log_no_debug.
Qed.

Lemma process_command_relay now command app t :
  system_debug = false →
  py_get command "type" = Ok t → eq_str t "toggle_relay" = true →
  process_command now command app
  = match _handle_relay_command now command app with
    | (Ok _, app') => (Ok (success_response command), app')
    | (Err e, app') => (Ok (error_response (str_exn e)), app')
    end.
Proof.
  intros Hd Ht Hrel. unfold process_command, try_except.
  unfold bind at 1. unfold lift at 1. rewrite Ht.
  assert (eq_str t "set_dimmer" = false) as ->.
  { destruct t; try done. cbn in *. apply String.eqb_eq in Hrel. by subst. }
  rewrite Hrel. unfold bind at 1.
  destruct (_handle_relay_command now command app) as [[[] | e] app1];
    [done |].
  unfold bind, lift, ret. by rewrite log_no_debug.
Qed.

(** A toggle whose channel is not the name of a relay is refused with
    nothing changed: a missing channel, a channel that is no string, a name
    the state mirror does not hold. *)
Lemma handle_relay_bad_channel now command app :
  (∀ name, py_get command "channel" = Ok (VStr name) →
           name ∉ dom (relay_states (state_manager app))) →
  ∃ e, _handle_relay_command now command app = (Err e, app).
Proof.
  intros Hbad. unfold _handle_relay_command, bind, lift, raise.
  destruct (py_get command "channel") as [channel | e]; [| by eexists].
  destruct channel as [| | | name | |]; cbn; try by eexists.
  rewrite bool_decide_eq_false_2 by by apply Hbad. by eexists.
Qed.

(** The message of that refusal when the channel is a name. *)
Lemma handle_relay_unknown_name now command app name :
  py_get command "channel" = Ok (VStr name) →
  name ∉ dom (relay_states (state_manager app)) →
  _handle_relay_command now command app
  = (Err (ValueError ("Invalid relay channel: " +:+ name)), app).
Proof.
  intros Hch Hbad. unfold _handle_relay_command, bind, lift, raise.
  rewrite Hch. cbn. by rewrite bool_decide_eq_false_2.
Qed.

(** A dimmer command whose value is no number is refused with nothing
    changed. *)
Lemma handle_dimmer_bad_value now command app raw e :
  py_get_default command "value" (VInt 0) = Ok raw → py_int raw = Err e →
  _handle_dimmer_command now command app = (Err e, app).
Proof.
  intros Hraw He. unfold _handle_dimmer_command, bind, lift.
  destruct (py_get command "channel") as [channel | e'] eqn:Hch.
  - by rewrite Hraw, He.
  - destruct command; by simplify_eq.
Qed.

(** A dimmer command whose level is outside 0..100 is never answered with
    success and never reaches the state mirror. *)
Lemma handle_dimmer_bad_level now command app raw level :
  py_get_default command "value" (VInt 0) = Ok raw → py_int raw = Ok level →
  ¬ (0 ≤ level ≤ 100) →
  ∃ e app', _handle_dimmer_command now command app = (Err e, app')
            ∧ state_manager app' = state_manager app.
Proof.
  intros Hraw Hl Hbad. unfold _handle_dimmer_command.
  unfold bind at 1. unfold lift at 1.
  destruct (py_get command "channel") as [channel | e]; [| by eexists _, _].
  unfold bind at 1. unfold lift at 1. rewrite Hraw.
  unfold bind at 1. unfold lift at 1. rewrite Hl.
  unfold bind at 1.
  destruct (negb (truthy channel)); [by eexists _, _ |].
  destruct channel as [| | | name | |]; try by eexists _, _.
  destruct (negb (startswith name "PWM")); [by eexists _, _ |].
  unfold ret at 1. unfold bind at 1. unfold lift at 1.
  destruct (py_int (VStr (replace_PWM name))) as [n | e]; [| by eexists _, _].
  destruct (negb (between 0 n 15)); [by eexists _, _ |].
  unfold bind at 1.
  assert (state_manager (on_pca9685 (λ dev, set_level dev n level) app).2
          = state_manager app) as Hf.
  { unfold on_pca9685, on_hardware, zoom. cbn. by destruct (set_level _ _ _ _). }
  destruct (on_pca9685 (λ dev, set_level dev n level) app)
    as [[[] | e] app1]; [| by eexists _, _].
  cbn in Hf. unfold bind, on_state, zoom.
  rewrite update_dimmer_rejects by done. cbn. eexists _, _.
  split; [done |]. cbn. by rewrite Hf.
Qed.

(** A dimmer command whose channel is missing, is no string, does not start
    with PWM or names no number in 0..15 is refused with nothing
    changed. *)
Lemma handle_dimmer_refuses_channel now command app :
  (∀ name n, py_get command "channel" = Ok (VStr name) →
             startswith name "PWM" = true →
             int_of_text (replace_PWM name) = Some n → ¬ (0 ≤ n ≤ 15)) →
  ∃ e, _handle_dimmer_command now command app = (Err e, app).
Proof.
  intros Hbad. unfold _handle_dimmer_command, bind, lift, raise, ret.
  destruct (py_get command "channel") as [channel | e]; [| by eexists].
  destruct (py_get_default command "value" (VInt 0)) as [raw | e];
    [| by eexists].
  destruct (py_int raw) as [value | e]; [| by eexists].
  destruct (negb (truthy channel)); [by eexists |].
  destruct channel as [| | | name | |]; try by eexists.
  destruct (startswith name "PWM") eqn:Hpre; cbn [negb]; [| by eexists].
  unfold py_int.
  destruct (int_of_text (replace_PWM name)) as [n |] eqn:Hn; [| by eexists].
  specialize (Hbad name n eq_refl Hpre Hn). apply between_false in Hbad.
  rewrite Hbad. by eexists.
Qed.
End Responses.

(** C4, as the code has it: with debug logging off, process_command always
    returns a response and raises nothing. The response is the state
    snapshot, which has no status field, for get_state (and nothing
    changes); else it is [{status: success, command}] or [{status: error,
    message}]. Malformed input gives an error result: a command that is no
    dictionary and a missing or unknown type, with nothing changed; a
    toggle_relay whose channel is not the name of a relay (missing, no
    string, or a name the state mirror does not hold), with nothing changed
    and, for a name, the message naming it; a set_dimmer whose channel is
    missing, is no string, does not start with PWM or names no number in
    0..15, or whose value is no number, with nothing changed; a set_dimmer
    whose level lies outside 0..100, with the state mirror unchanged. A
    toggle_relay of a relay both copies know, and a set_dimmer for a channel
    in 0..15 with a level in 0..100 whose writes the bus carries, are
    answered with success. *)
Theorem C4_process_command_responses `{Runtime} `{Config}
    (now : Z) (command : pyval) (app : App) :
  system_debug = false →
  ∃ response app',
    process_command now command app = (Ok response, app')
    ∧ (response = get_state (state_manager app)
       ∨ response = success_response command
       ∨ ∃ message, response = error_response message)
    ∧ match py_get command "type" with
      | Ok t =>
          if eq_str t "get_state" then
            response = get_state (state_manager app) ∧ app' = app
            ∧ status_of response = None
          else if eq_str t "set_dimmer" || eq_str t "toggle_relay" then
            status_of response = Some (VStr "success")
            ∨ status_of response = Some (VStr "error")
          else
            response
            = error_response ("Unknown command type: " +:+ py_str t)
            ∧ app' = app
      | Err _ => status_of response = Some (VStr "error") ∧ app' = app
      end
    ∧ (∀ t, py_get command "type" = Ok t → eq_str t "toggle_relay" = true →
         ((∀ name, py_get command "channel" = Ok (VStr name) →
                   name ∉ dom (relay_states (state_manager app))) →
          status_of response = Some (VStr "error") ∧ app' = app)
         ∧ (∀ name, py_get command "channel" = Ok (VStr name) →
                    name ∉ dom (relay_states (state_manager app)) →
                    response
                    = error_response ("Invalid relay channel: " +:+ name))
         ∧ (∀ name s, py_get command "channel" = Ok (VStr name) →
                      name ∈ dom (relay_states (state_manager app)) →
                      states (relay_controller (hardware_manager app))
                        !! name = Some s →
                      response = success_response command))
    ∧ (∀ t, py_get command "type" = Ok t → eq_str t "set_dimmer" = true →
         ((∀ name n, py_get command "channel" = Ok (VStr name) →
                     startswith name "PWM" = true →
                     int_of_text (replace_PWM name) = Some n →
                     ¬ (0 ≤ n ≤ 15)) →
          status_of response = Some (VStr "error") ∧ app' = app)
         ∧ (∀ raw e, py_get_default command "value" (VInt 0) = Ok raw →
                     py_int raw = Err e →
                     status_of response = Some (VStr "error") ∧ app' = app)
         ∧ (∀ raw level, py_get_default command "value" (VInt 0) = Ok raw →
                         py_int raw = Ok level → ¬ (0 ≤ level ≤ 100) →
                         status_of response = Some (VStr "error")
                         ∧ state_manager app' = state_manager app)
         ∧ (∀ c level b', command = set_dimmer_command c level →
                          0 ≤ c ≤ 15 → 0 ≤ level ≤ 100 →
                          set_level (pca9685 (hardware_manager app)) c level
                            (i2c (hardware_manager app)) = (Ok tt, b') →
                          response = success_response command)).
Proof.
  intros Hdebug.
  destruct (py_get command "type") as [t | e] eqn:Ht.
  2: { eexists _, _. split.
       { unfold process_command, try_except. unfold bind at 1.
         unfold lift at 1. rewrite Ht. unfold bind, lift, ret.
         by rewrite log_no_debug. }
       split; [right; right; by eexists |]. split; [done |].
       split; by intros t [=]. }
  destruct (eq_str t "set_dimmer") eqn:Hdim.
  { assert (eq_str t "get_state" = false) as Hget.
    { destruct t; try done. cbn in *. apply String.eqb_eq in Hdim. by subst. }
    assert (eq_str t "toggle_relay" = false) as Hrel.
    { destruct t; try done. cbn in *. apply String.eqb_eq in Hdim. by subst. }
    pose proof (process_command_dimmer now command app t Hdebug Ht Hdim)
      as Hrun.
    destruct (_handle_dimmer_command now command app) as [[[] | e] app1]
      eqn:Hh; eexists _, _; (split; [exact Hrun |]).
    - split; [by right; left |]. rewrite Hget. cbn [orb].
      split; [by left |]. split.
      { intros t' [= <-]. by rewrite Hrel. }
      intros t' _ _. split; [| split; [| split]].
      + intros Hbad.
        destruct (handle_dimmer_refuses_channel now command app Hbad)
          as [e He]. by rewrite He in Hh.
      + intros raw e Hraw He.
        by rewrite (handle_dimmer_bad_value _ _ _ _ _ Hraw He) in Hh.
      + intros raw level Hraw Hl Hbad.
        destruct (handle_dimmer_bad_level now command app raw level
                    Hraw Hl Hbad) as (e & a & He & _).
        by rewrite He in Hh.
      + done.
    - split; [right; right; by eexists |]. rewrite Hget. cbn [orb].
      split; [by right |]. split.
      { intros t' [= <-]. by rewrite Hrel. }
      intros t' _ _. split; [| split; [| split]].
      + intros Hbad.
        destruct (handle_dimmer_refuses_channel now command app Hbad)
          as [e' He]. rewrite He in Hh. by injection Hh as _ <-.
      + intros raw e' Hraw He.
        rewrite (handle_dimmer_bad_value _ _ _ _ _ Hraw He) in Hh.
        by injection Hh as _ <-.
      + intros raw level Hraw Hl Hbad.
        destruct (handle_dimmer_bad_level now command app raw level
                    Hraw Hl Hbad) as (e' & a & He & Hsm).
        rewrite He in Hh. by injection Hh as _ <-.
      + intros c level b' -> Hc Hl Hset.
        rewrite (process_set_dimmer_ok _ _ _ _ b') in Hrun by done.
        exfalso. clear -Hrun. by injection Hrun. }
  destruct (eq_str t "toggle_relay") eqn:Hrel.
  { assert (eq_str t "get_state" = false) as Hget.
    { destruct t; try done. cbn in *. apply String.eqb_eq in Hrel. by subst. }
    pose proof (process_command_relay now command app t Hdebug Ht Hrel)
      as Hrun.
    assert (∀ name s, py_get command "channel" = Ok (VStr name) →
              name ∈ dom (relay_states (state_manager app)) →
              states (relay_controller (hardware_manager app)) !! name
              = Some s →
              ∃ app1, _handle_relay_command now command app = (Ok tt, app1))
      as Hgood.
    { intros name s Hch Hin Hs. unfold _handle_relay_command.
      unfold bind at 1. unfold lift at 1. rewrite Hch.
      unfold bind at 1. cbn [py_in].
      rewrite bool_decide_eq_true_2 by done. cbn [negb].
      unfold bind, on_relays, on_hardware, on_state, zoom, lift, ret. cbn.
      rewrite (toggle_relay_run _ _ _ Hs). cbn.
      rewrite update_relay_run by done. cbn. rewrite log_INFO.
      by eexists. }
    destruct (_handle_relay_command now command app) as [[[] | e] app1]
      eqn:Hh; eexists _, _; (split; [exact Hrun |]).
    - split; [by right; left |]. rewrite Hget. cbn [orb].
      split; [by left |]. split; [| intros t' [= <-]; by rewrite Hdim].
      intros t' _ _. split; [| split].
      + intros Hbad.
        destruct (handle_relay_bad_channel now command app Hbad) as [e He].
        by rewrite He in Hh.
      + intros name Hch Hbad.
        by rewrite (handle_relay_unknown_name _ _ _ _ Hch Hbad) in Hh.
      + done.
    - split; [right; right; by eexists |]. rewrite Hget. cbn [orb].
      split; [by right |]. split; [| intros t' [= <-]; by rewrite Hdim].
      intros t' _ _. split; [| split].
      + intros Hbad.
        destruct (handle_relay_bad_channel now command app Hbad) as [e' He].
        rewrite He in Hh. by injection Hh as _ <-.
      + intros name Hch Hbad.
        rewrite (handle_relay_unknown_name _ _ _ _ Hch Hbad) in Hh.
        by injection Hh as <- _.
      + intros name s Hch Hin Hs.
        destruct (Hgood name s Hch Hin Hs) as [a Ha]. by rewrite Ha in Hh. }
  destruct (eq_str t "get_state") eqn:Hget.
  - eexists _, _. split.
    { unfold process_command, try_except. unfold bind at 1.
      unfold lift at 1. by rewrite Ht, Hdim, Hrel, Hget. }
    split; [by left |]. split; [by rewrite status_of_get_state |].
    split; intros t' [= <-]; [by rewrite Hrel | by rewrite Hdim].
  - eexists _, _. split.
    { unfold process_command, try_except. unfold bind at 1.
      unfold lift at 1. rewrite Ht, Hdim, Hrel, Hget.
      unfold raise, bind, lift, ret. by rewrite log_no_debug. }
    split; [right; right; by eexists |]. cbn [orb]. split; [done |].
    split; intros t' [= <-]; [by rewrite Hrel | by rewrite Hdim].
Qed.

Lemma demo_no_relay_9 :
  "Relay9" ∉ dom (relay_states (state_manager demo_app)).
Proof. apply not_elem_of_dom. by vm_compute. Qed.

Lemma C4_witness :
  ∃ response app',
    @process_command decimal_runtime DEFAULT_CONFIG 7
      (toggle_relay_command "Relay9") demo_app = (Ok response, app')
    ∧ response = error_response "Invalid relay channel: Relay9"
    ∧ status_of response = Some (VStr "error")
    ∧ app' = demo_app.
Proof.
  destruct (@C4_process_command_responses decimal_runtime DEFAULT_CONFIG
              7 (toggle_relay_command "Relay9") demo_app eq_refl)
    as (response & app' & Hrun & _ & _ & Hrelay & _).
  destruct (Hrelay (VStr "toggle_relay") eq_refl eq_refl)
    as (Hrefused & Hmessage & _).
  exists response, app'. split; [exact Hrun |].
  split; [exact (Hmessage "Relay9" eq_refl demo_no_relay_9) |].
  apply Hrefused. intros name Hname.
  injection Hname as <-. exact demo_no_relay_9.
Defined.

(** C4 as stated fails: the response to get_state is the snapshot, which
    carries no status field. *)
Lemma C4_counterexample :
  ¬ (∀ command : pyval,
       ∃ response app',
         @process_command decimal_runtime DEFAULT_CONFIG 0 command demo_app
         = (Ok response, app')
         ∧ (status_of response = Some (VStr "success")
            ∨ status_of response = Some (VStr "error"))).
Proof.
  intros Hall.
  destruct (Hall (VDict {[ "type" := VStr "get_state" ]}))
    as (response & app' & Hrun & Hstatus).
  assert (response = get_state (state_manager demo_app)) as ->.
  { vm_compute in Hrun. injection Hrun as <- _. by vm_compute. }
  rewrite status_of_get_state in Hstatus. by destruct Hstatus.
Qed.

(** With [system.debug] on, the error path of [process_command] itself
    raises: the handler's [logger.error] ends in [sys.print_exception()]. *)
Lemma process_command_debug_raises :
  ∃ msg,
    (@process_command decimal_runtime DEBUG_CONFIG 0
       (VDict {[ "type" := VStr "reboot" ]}) demo_app).1 = Err (TypeError msg).
Proof. eexists. by vm_compute. Qed.

(** ** Inputs *)

(** [bool(data & (1 << i))] is bit [i] of [data]. *)
Lemma mask_is_testbit (data i : Z) :
  0 ≤ i → negb (Z.eqb (Z.land data (Z.shiftl 1 i)) 0) = Z.testbit data i.
Proof.
  intros Hi. rewrite Z.shiftl_1_l.
  destruct (Z.testbit data i) eqn:Hbit.
  - apply negb_true_iff, Z.eqb_neq. intros Hz.
    assert (Z.testbit (Z.land data (2 ^ i)) i = true) as Hone.
    { by rewrite Z.land_spec, Hbit, Z.pow2_bits_true. }
    rewrite Hz, Z.bits_0 in Hone. done.
  - apply negb_false_iff, Z.eqb_eq, Z.bits_inj'. intros n Hn.
    rewrite Z.land_spec, Z.bits_0.
    destruct (decide (n = i)) as [-> | Hne].
    + by rewrite Hbit.
    + rewrite Z.pow2_bits_false by done. apply andb_false_r.
Qed.

(** The map [get_input_states] builds from the byte of one expander. *)
Lemma fill_inputs_1 (d : Z) (st : gmap string bool) :
  fill_inputs 1 d st
  = <["X08" := negb (Z.testbit d 7)]>
      (<["X07" := negb (Z.testbit d 6)]>
         (<["X06" := negb (Z.testbit d 5)]>
            (<["X05" := negb (Z.testbit d 4)]>
               (<["X04" := negb (Z.testbit d 3)]>
                  (<["X03" := negb (Z.testbit d 2)]>
                     (<["X02" := negb (Z.testbit d 1)]>
                        (<["X01" := negb (Z.testbit d 0)]> st))))))).
Proof.
  unfold fill_inputs. change (seqZ 0 8) with [0; 1; 2; 3; 4; 5; 6; 7].
  cbn [foldl]. by rewrite !mask_is_testbit by lia.
Qed.

Lemma fill_inputs_9 (d : Z) (st : gmap string bool) :
  fill_inputs 9 d st
  = <["X16" := negb (Z.testbit d 7)]>
      (<["X15" := negb (Z.testbit d 6)]>
         (<["X14" := negb (Z.testbit d 5)]>
            (<["X13" := negb (Z.testbit d 4)]>
               (<["X12" := negb (Z.testbit d 3)]>
                  (<["X11" := negb (Z.testbit d 2)]>
                     (<["X10" := negb (Z.testbit d 1)]>
                        (<["X09" := negb (Z.testbit d 0)]> st))))))).
Proof.
  unfold fill_inputs. change (seqZ 0 8) with [0; 1; 2; 3; 4; 5; 6; 7].
  cbn [foldl]. by rewrite !mask_is_testbit by lia.
Qed.

Section InputFacts.
Context `{Runtime} `{Config}.

Lemma readfrom_spec addr b :
  match readfrom addr b with
  | (Ok d, b') => d = port b addr ∧ same_lines b b'
  | (Err _, b') => same_lines b b'
  end.
Proof.
  unfold readfrom, bind. pose proof (transfer_lines b) as [Hw Hp].
  destruct (transfer b) as [[[] | e] b1]; cbn in *; [| done].
  by rewrite Hp.
Qed.

(** A read returns the byte the expander presents, or nothing. *)
Lemma read_all_spec dev b :
  match read_all dev b with
  | (Ok (Some d), b') => d = port b (address dev) ∧ same_lines b b'
  | (_, b') => same_lines b b'
  end.
Proof.
  unfold read_all. destruct (is_valid dev); cbn [negb]; [| done].
  unfold try_except, bind, _retry_operation.
  pose proof (retry_rounds_spec
                (λ b d b', d = port b (address dev) ∧ same_lines b b')
                dev (readfrom (address dev)) (readfrom_spec _)) as Hretry.
  specialize (Hretry ltac:(intros b1 b2 a b3 [Hw Hp] [-> [Hw' Hp']];
                           split; [congruence | split; congruence])
                retry_count "None" b).
  destruct (retry_rounds dev retry_count "None" (readfrom (address dev)) b)
    as [[d | e] b1]; cbn; [done |].
  by destruct e.
Qed.

Lemma read_all_clear dev b :
  clear b → is_valid dev = true →
  ∃ b', read_all dev b = (Ok (Some (port b (address dev))), b')
        ∧ clear b' ∧ same_lines b b'.
Proof.
  intros Hc Hv. unfold read_all. rewrite Hv. cbn [negb].
  destruct (transfer_clear b Hc) as (b1 & Ht & Hc1 & Hl).
  exists b1. split; [| done].
  unfold try_except, bind, _retry_operation, retry_count.
  rewrite (retry_rounds_first _ _ _ _ (port b (address dev)) b1); [done |].
  unfold readfrom, bind. rewrite Ht. by destruct Hl as [_ ->].
Qed.

(** What one block of [get_input_states] does: the map gains the eight
    inputs of the expander when the read gave a byte, the byte being the
    one the expander presents; the rest of the hardware is as before. *)
Lemma read_inputs_spec dev first st hw :
  let '(r, hw') := read_inputs dev first st hw in
  same_lines (i2c hw) (i2c hw')
  ∧ hw' = set_i2c (i2c hw') hw
  ∧ ∀ st', r = Ok st' →
      ∃ o, st' = fill_read first o st
           ∧ ∀ d, o = Some d → d = port (i2c hw) (address dev).
Proof.
  unfold read_inputs. destruct (is_valid dev).
  - unfold bind, zoom, ret.
    pose proof (read_all_spec dev (i2c hw)) as Hr.
    destruct (read_all dev (i2c hw)) as [[[d |] | e] b1].
    + destruct Hr as [-> Hl]. split; [done |]. split; [done |].
      intros st' [= <-]. exists (Some (port (i2c hw) (address dev))).
      split; [done |]. by intros d [= <-].
    + split; [done |]. split; [done |].
      intros st' [= <-]. by exists None.
    + done.
  - unfold ret. split; [done |]. split; [by destruct hw |].
    intros st' [= <-]. by exists None.
Qed.

Lemma get_input_states_shape hw current hw' :
  get_input_states hw = (Ok current, hw') →
  ∃ o1 o2,
    current = fill_read 9 o2 (fill_read 1 o1 ∅)
    ∧ (∀ d, o1 = Some d → d = port (i2c hw) (address (pcf_inputs_1_8 hw)))
    ∧ (∀ d, o2 = Some d → d = port (i2c hw) (address (pcf_inputs_9_16 hw))).
Proof.
  unfold get_input_states, bind.
  pose proof (read_inputs_spec (pcf_inputs_1_8 hw) 1 ∅ hw) as H1.
  destruct (read_inputs (pcf_inputs_1_8 hw) 1 ∅ hw) as [[st1 | e1] hw1];
    [| discriminate].
  destruct H1 as ([_ Hp1] & _ & Hst1).
  destruct (Hst1 st1 eq_refl) as (o1 & -> & Ho1).
  pose proof (read_inputs_spec (pcf_inputs_9_16 hw) 9
                (fill_read 1 o1 ∅) hw1) as H2.
  destruct (read_inputs (pcf_inputs_9_16 hw) 9 (fill_read 1 o1 ∅) hw1)
    as [[st2 | e2] hw2]; [| discriminate].
  destruct H2 as (_ & _ & Hst2).
  destruct (Hst2 st2 eq_refl) as (o2 & -> & Ho2).
  intros [= <- <-]. exists o1, o2. split; [done |]. split; [done |].
  intros d Hd. rewrite (Ho2 d Hd). by rewrite Hp1.
Qed.

(** Reading the inputs changes nothing but the bus. *)
Lemma get_input_states_frame hw :
  (get_input_states hw).2 = set_i2c (i2c (get_input_states hw).2) hw.
Proof.
  unfold get_input_states, bind.
  pose proof (read_inputs_spec (pcf_inputs_1_8 hw) 1 ∅ hw) as H1.
  destruct (read_inputs (pcf_inputs_1_8 hw) 1 ∅ hw) as [[st1 | e1] hw1];
    destruct H1 as (_ & Hf1 & _); [| done].
  pose proof (read_inputs_spec (pcf_inputs_9_16 hw) 9 st1 hw1) as H2.
  destruct (read_inputs (pcf_inputs_9_16 hw) 9 st1 hw1) as [r2 hw2].
  destruct H2 as (_ & Hf2 & _). cbn. rewrite Hf2 at 1. by rewrite Hf1.
Qed.
End InputFacts.

Ltac cases_1_16 n :=
  let Hcases := fresh "Hcases" in
  assert (n = 1 ∨ n = 2 ∨ n = 3 ∨ n = 4 ∨ n = 5 ∨ n = 6 ∨ n = 7 ∨ n = 8
          ∨ n = 9 ∨ n = 10 ∨ n = 11 ∨ n = 12 ∨ n = 13 ∨ n = 14 ∨ n = 15
          ∨ n = 16) as Hcases by lia;
  repeat (destruct Hcases as [-> | Hcases]); [.. | subst n].

(** The name of input line [n] is the key the scan stores it under, and the
    value stored is the inverted bit. *)
Lemma fill_read_lookup (o1 o2 : option Z) (n : Z) (v : bool) :
  1 ≤ n ≤ 16 →
  fill_read 9 o2 (fill_read 1 o1 ∅) !! ("X" +:+ fmt_02d n) = Some v →
  ∃ d, (if n <=? 8 then o1 else o2) = Some d
       ∧ v = negb (Z.testbit d ((n - 1) mod 8)).
Proof.
  intros Hn.
  destruct o1 as [d1 |], o2 as [d2 |]; cbn [fill_read];
    rewrite ?fill_inputs_1, ?fill_inputs_9;
    cases_1_16 n; vm_compute ("X" +:+ fmt_02d _);
    intros Hv; simplify_map_eq; by eexists.
Qed.

Lemma fill_read_present (d1 d2 : Z) (n : Z) :
  1 ≤ n ≤ 16 →
  fill_read 9 (Some d2) (fill_read 1 (Some d1) ∅) !! ("X" +:+ fmt_02d n)
  = Some (negb (Z.testbit (if n <=? 8 then d1 else d2) ((n - 1) mod 8))).
Proof.
  intros Hn. cbn [fill_read]. rewrite fill_inputs_1, fill_inputs_9.
  cases_1_16 n; vm_compute ("X" +:+ fmt_02d _); by simplify_map_eq.
Qed.

(** C8: every input line X01..X16 that a scan reports is reported as the
    inversion of its physical bit: a bit of 0 reads as true, a bit of 1 as
    false; and when both expanders answer, all sixteen lines are reported. *)
Theorem C8_inputs_active_low `{Runtime} `{Config} (hw : HardwareManager) :
  (∀ current hw' n v,
     get_input_states hw = (Ok current, hw') → 1 ≤ n ≤ 16 →
     current !! ("X" +:+ fmt_02d n) = Some v →
     v = negb (input_bit hw n))
  ∧ (clear (i2c hw) →
     is_valid (pcf_inputs_1_8 hw) = true →
     is_valid (pcf_inputs_9_16 hw) = true →
     ∃ current hw',
       get_input_states hw = (Ok current, hw')
       ∧ ∀ n, 1 ≤ n ≤ 16 →
           current !! ("X" +:+ fmt_02d n) = Some (negb (input_bit hw n))).
Proof.
  split.
  - intros current hw' n v Hrun Hn Hv.
    destruct (get_input_states_shape _ _ _ Hrun) as (o1 & o2 & -> & Ho1 & Ho2).
    destruct (fill_read_lookup _ _ _ _ Hn Hv) as (d & Hd & ->).
    unfold input_bit, input_expander.
    destruct (n <=? 8); [by rewrite (Ho1 d Hd) | by rewrite (Ho2 d Hd)].
  - intros Hbus Hv1 Hv2.
    destruct (read_all_clear (pcf_inputs_1_8 hw) (i2c hw) Hbus Hv1)
      as (b1 & Hr1 & Hb1 & [_ Hp1]).
    destruct (read_all_clear (pcf_inputs_9_16 hw) b1 Hb1 Hv2)
      as (b2 & Hr2 & _ & _).
    eexists _, _. split.
    + unfold get_input_states, read_inputs, bind, zoom, ret.
      rewrite Hv1, Hv2, Hr1. cbn. by rewrite Hr2.
    + intros n Hn.
      pose proof (fill_read_present (port (i2c hw) (address (pcf_inputs_1_8 hw)))
                    (port b1 (address (pcf_inputs_9_16 hw))) n Hn) as Hl.
      cbn [fill_read] in Hl. rewrite Hl. unfold input_bit, input_expander.
      rewrite Hp1. by destruct (n <=? 8).
Qed.

Lemma C8_witness :
  ∃ current hw',
    @get_input_states decimal_runtime DEFAULT_CONFIG
      (hardware_manager demo_app) = (Ok current, hw')
    ∧ current !! ("X" +:+ fmt_02d 12)
      = Some (negb (input_bit (hardware_manager demo_app) 12)).
Proof.
  destruct (proj2 (@C8_inputs_active_low decimal_runtime DEFAULT_CONFIG
                     (hardware_manager demo_app)))
    as (current & hw' & Hrun & Hall);
    [constructor | reflexivity | reflexivity |].
  exists current, hw'. split; [exact Hrun | apply Hall; lia].
Defined.

Section ScanFacts.
Context `{Runtime} `{Config}.

Lemma changed_inputs_spec (prev current : gmap string bool) key v :
  (key, v) ∈ changed_inputs prev current
  ↔ current !! key = Some v ∧ prev !! key ≠ Some v.
Proof.
  unfold changed_inputs.
  rewrite list_elem_of_filter, elem_of_map_to_list. cbn. tauto.
Qed.

Lemma changed_inputs_NoDup (prev current : gmap string bool) :
  NoDup (changed_inputs prev current).
Proof. apply NoDup_filter, NoDup_map_to_list. Qed.
End ScanFacts.

Section ScanReturns.
Context `{Runtime} `{Config}.

(** With debug logging off the retry loop fails with [HardwareError] only. *)
Lemma retry_rounds_error {A} dev (operation : M I2C A) attempts last b e b' :
  system_debug = false →
  retry_rounds dev attempts last operation b = (Err e, b') →
  ∃ msg, e = HardwareError msg.
Proof.
  intros Hdebug. revert last b.
  induction attempts as [| n IH]; intros last b.
  - cbn. unfold raise. intros [= <- _]. by eexists.
  - cbn. unfold try_except, bind, lift.
    destruct (operation b) as [[a | e1] b1]; [discriminate |].
    rewrite !log_no_debug by done.
    assert ((if bool_decide (n = 0%nat) then Ok tt else Ok tt)
            = @Ok unit tt) as -> by by case_bool_decide.
    apply IH.
Qed.

Lemma read_all_returns dev b :
  system_debug = false → ∃ data b', read_all dev b = (Ok data, b').
Proof.
  intros Hdebug. unfold read_all.
  destruct (is_valid dev); cbn [negb]; [| by eexists _, _].
  unfold try_except, bind, _retry_operation.
  destruct (retry_rounds dev retry_count "None" (readfrom (address dev)) b)
    as [[d | e] b1] eqn:Hretry; [by eexists _, _ |].
  destruct (retry_rounds_error _ _ _ _ _ _ _ Hdebug Hretry) as [msg ->].
  by eexists _, _.
Qed.

Lemma read_inputs_returns dev first st hw :
  system_debug = false → ∃ st' hw', read_inputs dev first st hw = (Ok st', hw').
Proof.
  intros Hdebug. unfold read_inputs.
  destruct (is_valid dev); [| by eexists _, _].
  unfold bind, zoom.
  destruct (read_all_returns dev (i2c hw) Hdebug) as (data & b' & ->).
  destruct data; by eexists _, _.
Qed.

(** With debug logging off every scanner round gets its snapshot. *)
Lemma scan_reads_without_debug app :
  system_debug = false →
  ∃ current app1, on_hardware get_input_states app = (Ok current, app1).
Proof.
  intros Hdebug. unfold on_hardware, zoom, get_input_states, bind.
  destruct (read_inputs_returns (pcf_inputs_1_8 (hardware_manager app)) 1 ∅
              (hardware_manager app) Hdebug) as (st1 & hw1 & ->).
  destruct (read_inputs_returns (pcf_inputs_9_16 (hardware_manager app)) 9
              st1 hw1 Hdebug) as (st2 & hw2 & ->).
  by eexists _, _.
Qed.
End ScanReturns.

(** C6: with debug mode off every scan round reads a snapshot; and in a
    round that read the snapshot [current]: when it equals the previously
    accepted snapshot, no change notification is emitted and the state
    mirror is left as it was; when it differs, [logger.debug] is handed the
    notification [Input <name>: ON] or [Input <name>: OFF] for exactly the
    entries of [current] whose value differs from, or is absent in, the
    previous snapshot, each once and nothing else, the whole of [current]
    is merged into the state mirror, and [current] becomes the accepted
    snapshot. Being debug lines, the notifications are printed by the
    logger when the configured log level is DEBUG, and none of them
    otherwise. *)
Theorem C6_scan_round `{Runtime} `{Config} (now : Z)
    (prev : gmap string bool) (app : App) :
  (system_debug = false →
   ∃ current app1, on_hardware get_input_states app = (Ok current, app1))
  ∧ ∀ current app1,
      on_hardware get_input_states app = (Ok current, app1) →
      (current = prev →
         scan_round now prev app = (Ok (prev, []), app1)
         ∧ state_manager app1 = state_manager app)
      ∧ (current ≠ prev →
         ∃ messages notes app2,
           scan_round now prev app = (Ok (current, messages), app2)
           ∧ (∀ key v, (key, v) ∈ notes
                       ↔ current !! key = Some v ∧ prev !! key ≠ Some v)
           ∧ NoDup notes
           ∧ messages
             = (λ entry : string * bool,
                  "Input " +:+ entry.1 +:+ ": "
                  +:+ (if entry.2 then "ON" else "OFF")) <$> notes
           ∧ flat_map (_log_prints DEBUG) messages
             = (if bool_decide (system_log_level = "DEBUG") then
                  (λ message, (DEBUG, message)) <$> messages
                else [])
           ∧ input_states (state_manager app2)
             = current ∪ input_states (state_manager app)
           ∧ (∀ key v, current !! key = Some v →
                       input_states (state_manager app2) !! key = Some v)
           ∧ (∀ key, current !! key = None →
                     input_states (state_manager app2) !! key
                     = input_states (state_manager app) !! key)).
Proof.
  split; [apply scan_reads_without_debug |].
  intros current app1 Hread.
  assert (state_manager app1 = state_manager app) as Hsm.
  { unfold on_hardware, zoom in Hread.
    destruct (get_input_states (hardware_manager app)).
    by injection Hread as _ <-. }
  split.
  - intros ->. split; [| done].
    unfold scan_round, try_except, bind. rewrite Hread.
    by rewrite bool_decide_eq_false_2 by (by intros []).
  - intros Hne. eexists _, (changed_inputs prev current), _. split.
    { unfold scan_round, try_except, bind. rewrite Hread.
      rewrite bool_decide_eq_true_2 by done.
      unfold lift. rewrite log_changes_run. done. }
    split; [apply changed_inputs_spec |].
    split; [apply changed_inputs_NoDup |].
    split; [done |].
    split; [apply log_prints_debug_messages |].
    cbn. rewrite Hsm. split; [done |].
    split.
    + intros key v Hk. by apply lookup_union_Some_l.
    + intros key Hk. by apply lookup_union_r.
Qed.

Lemma demo_scan_reads (C : Config) :
  @on_hardware _ (@get_input_states decimal_runtime C) demo_app
  = (Ok demo_inputs, demo_app).
Proof.
  destruct C as [dbg lvl topic a1 a2 a3]. vm_compute. reflexivity.
Qed.

Lemma demo_inputs_nonempty : demo_inputs ≠ ∅.
Proof.
  intros Heq. apply (f_equal (λ m, m !! "X01")) in Heq.
  vm_compute in Heq. discriminate Heq.
Qed.

Lemma C6_witness :
  ∃ messages notes app2,
    @scan_round decimal_runtime VERBOSE_CONFIG 5 ∅ demo_app
    = (Ok (demo_inputs, messages), app2)
    ∧ (∀ key v, (key, v) ∈ notes
                ↔ demo_inputs !! key = Some v
                  ∧ (∅ : gmap string bool) !! key ≠ Some v)
    ∧ messages = input_note <$> notes
    ∧ flat_map (@_log_prints VERBOSE_CONFIG DEBUG) messages
      = (λ message, (DEBUG, message)) <$> messages
    ∧ input_states (state_manager app2)
      = demo_inputs ∪ input_states (state_manager demo_app).
Proof.
  pose proof (proj2 (proj2 (@C6_scan_round decimal_runtime VERBOSE_CONFIG
                              5 ∅ demo_app)
                       demo_inputs demo_app (demo_scan_reads VERBOSE_CONFIG))
                demo_inputs_nonempty) as Hround.
  destruct Hround as (messages & notes & app2 & Hrun & Hnotes & _ & Hcalls
                      & Hprints & Hmerge & _).
  exists messages, notes, app2.
  split; [exact Hrun |]. split; [exact Hnotes |].
  split; [exact Hcalls |]. split; [exact Hprints | exact Hmerge].
Defined.

(** Under the default configuration, whose log level is INFO, the first
    round after start hands the logger a notification for every input and
    none of them is printed. *)
Lemma demo_scan_silent :
  ∃ messages app2,
    @scan_round decimal_runtime DEFAULT_CONFIG 5 ∅ demo_app
    = (Ok (demo_inputs, messages), app2)
    ∧ length messages = 16%nat
    ∧ flat_map (@_log_prints DEFAULT_CONFIG DEBUG) messages = [].
Proof.
  destruct (@scan_round decimal_runtime DEFAULT_CONFIG 5 ∅ demo_app)
    as [r app2] eqn:Hscan.
  assert (r = Ok (demo_inputs,
                  input_note <$> changed_inputs ∅ demo_inputs)) as ->.
  { apply (f_equal fst) in Hscan. cbn [fst] in Hscan. rewrite <- Hscan.
    vm_compute. reflexivity. }
  eexists _, _. split; [reflexivity |]. split; by vm_compute.
Qed.

(** ** The two copies of the relay state *)

Section Keeps.
Context `{Runtime} `{Config}.
Context (P : App → Prop).

Lemma keeps_ret {A} (a : A) : keeps P (ret a).
Proof. by intros app. Qed.

Lemma keeps_raise {A} e : keeps P (@raise App A e).
Proof. by intros app. Qed.

Lemma keeps_lift {A} (r : result A) : keeps P (lift r).
Proof. by intros app. Qed.

Lemma keeps_read {A} (f : App → result A) : keeps P (λ app, (f app, app)).
Proof. by intros app. Qed.

Lemma keeps_bind {A B} (m : M App A) (k : A → M App B) :
  keeps P m → (∀ a, keeps P (k a)) → keeps P (bind m k).
Proof.
  intros Hm Hk app Happ. unfold bind. specialize (Hm app Happ).
  destruct (m app) as [[a | e] app1]; [by apply Hk | done].
Qed.

Lemma keeps_try_except {A} (m : M App A) (h : pyexn → M App A) :
  keeps P m → (∀ e, keeps P (h e)) → keeps P (try_except m h).
Proof.
  intros Hm Hh app Happ. unfold try_except. specialize (Hm app Happ).
  destruct (m app) as [[a | e] app1]; [done | by apply Hh].
Qed.
End Keeps.

Section RelayInvariant.
Context `{Runtime} `{Config}.

(** Work on the bus leaves the relays alone. *)
Lemma keeps_on_pca9685 {A} (m : I2CDevice → M I2C A) :
  keeps relays_agree (on_pca9685 m).
Proof.
  intros app Happ. unfold on_pca9685, on_hardware, zoom, relays_agree.
  cbn. by destruct (m _ _).
Qed.

Lemma get_input_states_relays hw :
  relay_controller (get_input_states hw).2 = relay_controller hw.
Proof. by rewrite get_input_states_frame. Qed.

Lemma keeps_get_input_states :
  keeps relays_agree (on_hardware get_input_states).
Proof.
  intros app Happ. unfold on_hardware, zoom, relays_agree.
  pose proof (get_input_states_relays (hardware_manager app)) as Hrc.
  destruct (get_input_states (hardware_manager app)) as [r hw1].
  cbn in *. by rewrite Hrc.
Qed.

Lemma keeps_update_dimmer now channel level :
  keeps relays_agree (on_state (update_dimmer now channel level)).
Proof.
  intros app Happ. unfold on_state, zoom, update_dimmer, relays_agree.
  by destruct (negb _).
Qed.

Lemma keeps_update_inputs now inputs :
  keeps relays_agree (on_state (update_inputs now inputs)).
Proof. by intros app Happ. Qed.

Lemma keeps_publish_dimmer_state idx level :
  keeps relays_agree (publish_dimmer_state idx level).
Proof. by intros app Happ. Qed.

Lemma keeps_publish_relay_state idx on :
  keeps relays_agree (publish_relay_state idx on).
Proof. by intros app Happ. Qed.

(** Switching a relay and then recording it restores the agreement. *)
Lemma keeps_set_then_update {A} now name state (k : M App A) :
  keeps relays_agree k →
  keeps relays_agree
    (do _ <- on_relays (set_relay name state);
     do _ <- on_state (update_relay now name state); k).
Proof.
  intros Hk app Happ. unfold bind, on_relays, on_hardware, on_state, zoom.
  destruct (decide (name ∈ dom (states (relay_controller
                                          (hardware_manager app)))))
    as [Hin | Hin].
  - destruct Happ as [Heq Hdom].
    assert (name ∈ dom (relay_states (state_manager app))) as Hin'
      by by rewrite <- Heq.
    rewrite set_relay_run by done. cbn.
    rewrite update_relay_run by done. cbn.
    apply Hk. split; cbn; [by rewrite Heq |].
    rewrite dom_insert_L, subseteq_union_1_L;
      [exact Hdom | by apply singleton_subseteq_l].
  - by destruct (set_relay_unknown name state _ Hin) as [e ->].
Qed.

Lemma keeps_toggle_then_update {A} now name (k : M App A) :
  keeps relays_agree k →
  keeps relays_agree
    (do new_state <- on_relays (toggle_relay name);
     do _ <- on_state (update_relay now name new_state); k).
Proof.
  intros Hk app Happ. unfold bind, on_relays, on_hardware, on_state, zoom.
  destruct (states (relay_controller (hardware_manager app)) !! name)
    as [s |] eqn:Hs.
  - destruct Happ as [Heq Hdom].
    assert (name ∈ dom (relay_states (state_manager app))) as Hin.
    { rewrite <- Heq. apply elem_of_dom. by eexists. }
    rewrite (toggle_relay_run _ _ _ Hs). cbn.
    rewrite update_relay_run by done. cbn.
    apply Hk. split; cbn; [by rewrite Heq |].
    rewrite dom_insert_L, subseteq_union_1_L;
      [exact Hdom | by apply singleton_subseteq_l].
  - by destruct (toggle_relay_unknown name _ Hs) as [e ->].
Qed.

Ltac keeps_step :=
  first
    [ apply keeps_ret | apply keeps_raise | apply keeps_lift
    | apply keeps_read | apply keeps_on_pca9685
    | apply keeps_get_input_states | apply keeps_update_dimmer
    | apply keeps_update_inputs | apply keeps_publish_dimmer_state
    | apply keeps_publish_relay_state
    | apply keeps_toggle_then_update | apply keeps_set_then_update
    | apply keeps_try_except; [| intros ?]
    | apply keeps_bind; [| intros ?]
    | match goal with
      | |- keeps _ (if ?b then _ else _) => destruct b
      | |- keeps _ (match ?x with _ => _ end) => destruct x
      end ].

Lemma keeps_handle_dimmer now command :
  keeps relays_agree (_handle_dimmer_command now command).
Proof. unfold _handle_dimmer_command. repeat keeps_step. Qed.

Lemma keeps_handle_relay now command :
  keeps relays_agree (_handle_relay_command now command).
Proof. unfold _handle_relay_command. repeat keeps_step. Qed.

Lemma keeps_process_command now command :
  keeps relays_agree (process_command now command).
Proof.
  unfold process_command.
  repeat first [ apply keeps_handle_dimmer | apply keeps_handle_relay
               | keeps_step ].
Qed.

Lemma keeps_scan_round now prev_inputs :
  keeps relays_agree (scan_round now prev_inputs).
Proof. unfold scan_round. repeat keeps_step. Qed.

Lemma keeps_on_mqtt_command now topic payload :
  keeps relays_agree (_on_mqtt_command now topic payload).
Proof.
  unfold _on_mqtt_command.
  apply keeps_try_except; [| intros ?; apply keeps_lift].
  destruct (_ && _).
  { repeat keeps_step. }
  destruct (_ && _); [| apply keeps_ret].
  apply keeps_bind; [apply keeps_lift |]. intros idx app Happ.
  destruct (relay_states (state_manager app) !! _); [| done].
  revert app Happ. 
  apply (keeps_set_then_update now ("Relay" +:+ pretty idx) _
           (publish_relay_state idx _)).
  apply keeps_publish_relay_state.
Qed.
End RelayInvariant.

(** C10: the relay controller's [states] and the state mirror's
    [relay_states] start equal, with both relays off; every direct command
    and every MQTT command (and every scanner round) leaves them equal; so in
    every state the application reaches the two copies agree on Relay1 and
    on Relay2. *)
Theorem C10_relay_copies_agree `{Runtime} `{Config}
    (now : Z) (bus : I2C) (v1 v2 v3 : bool) :
  let init := App_init now bus v1 v2 v3 in
  relays_agree init
  ∧ states (relay_controller (hardware_manager init))
    = {[ "Relay1" := false; "Relay2" := false ]}
  ∧ (∀ app t command,
       relays_agree app → relays_agree (process_command t command app).2)
  ∧ (∀ app t topic payload,
       relays_agree app →
       relays_agree (_on_mqtt_command t topic payload app).2)
  ∧ (∀ app,
       reachable init app →
       states (relay_controller (hardware_manager app))
       = relay_states (state_manager app)
       ∧ (∀ name, name = "Relay1" ∨ name = "Relay2" →
            ∃ s, states (relay_controller (hardware_manager app)) !! name
                 = Some s
                 ∧ relay_states (state_manager app) !! name = Some s)).
Proof.
  intros init.
  assert (relays_agree init) as Hinit.
  { split; [done |]. cbn. rewrite !dom_insert_L. set_solver. }
  split; [exact Hinit |]. split; [done |].
  split; [intros app t command; apply keeps_process_command |].
  split; [intros app t topic payload; apply keeps_on_mqtt_command |].
  intros app Hreach.
  assert (relays_agree app) as [Heq Hdom].
  { induction Hreach as [| app t command _ IH | app t topic payload _ IH
                         | app t prev _ IH].
    - exact Hinit.
    - by apply keeps_process_command.
    - by apply keeps_on_mqtt_command.
    - by apply keeps_scan_round. }
  split; [exact Heq |]. intros name Hname.
  assert (name ∈ dom (relay_states (state_manager app))) as Hin.
  { rewrite Hdom. set_solver. }
  apply elem_of_dom in Hin as [s Hs]. exists s. by rewrite Heq.
Qed.

Lemma C10_witness :
  relays_agree
    (@_on_mqtt_command decimal_runtime DEFAULT_CONFIG 3
       "kc868-ap/relay/2/set" (VStr "ON")
       (@process_command decimal_runtime DEFAULT_CONFIG 2
          (toggle_relay_command "Relay1") demo_app).2).2.
Proof.
  pose proof (@C10_relay_copies_agree decimal_runtime DEFAULT_CONFIG
                0 quiet_bus true true true) as (Hinit & _ & Hcmd & Hmqtt & _).
  apply Hmqtt, Hcmd, Hinit.
Defined.

(** ** MQTT dimmer commands *)

Section MqttFacts.
Context `{Runtime} `{Config}.

Lemma dimmer_topic_startswith idx :
  startswith (dimmer_topic idx) (mqtt_base_topic +:+ "/dimmer/") = true.
Proof.
  unfold dimmer_topic, startswith. rewrite prefix_app.
  apply (startswith_append "/dimmer/").
Qed.

Lemma dimmer_topic_endswith idx : endswith (dimmer_topic idx) "/set" = true.
Proof.
  unfold dimmer_topic. do 2 apply endswith_app.
  apply (endswith_app (pretty idx) "/set"), endswith_refl.
Qed.

Lemma dimmer_topic_index idx :
  0 ≤ idx ≤ 15 → lacks "/" mqtt_base_topic = true →
  topic_index (dimmer_topic idx) = Ok idx.
Proof.
  intros Hidx Hbase. unfold topic_index, dimmer_topic.
  change (mqtt_base_topic +:+ "/dimmer/" +:+ pretty idx +:+ "/set")
    with (mqtt_base_topic
          +:+ String "/" ("dimmer"
                          +:+ String "/" (pretty idx +:+ String "/" "set"))).
  rewrite split_piece by done. rewrite split_piece by done.
  rewrite split_piece by by apply lacks_slash_channel.
  cbn [lookup list_lookup]. unfold py_int.
  by rewrite int_of_text_pretty_Z by lia.
Qed.

(** The code's payload analysis yields the resolved level. *)
Lemma dimmer_level_resolved payload :
  match dimmer_level payload with
  | Ok level => resolved_level payload = level
  | Err _ => resolved_level payload = None
  end.
Proof.
  unfold dimmer_level, resolved_level, says.
  destruct payload as [| b | n | s | l | d]; try done.
  - destruct (String.eqb (upper s) "OFF"); [done |].
    destruct (String.eqb (upper s) "ON"); [done |].
    cbn. by destruct (int_of_text s).
  - destruct (d !! "brightness") as [b |].
    + destruct (py_int b) as [n | e]; [| done].
      destruct (d !! "state") as [st |]; [| done].
      destruct (String.eqb (upper (py_str st)) "OFF"); [done |].
      by rewrite andb_false_r.
    + destruct (d !! "state") as [st |]; [| done].
      destruct (String.eqb (upper (py_str st)) "OFF"); [done |].
      by destruct (String.eqb (upper (py_str st)) "ON").
Qed.

Lemma clamp_range l : 0 ≤ clamp l ≤ 100.
Proof. unfold clamp. lia. Qed.

Lemma clamp_clamp l : Z.max 0 (Z.min 100 (clamp l)) = clamp l.
Proof. unfold clamp. lia. Qed.

(** A dimmer command on a well-formed topic: what the handler does with
    the level the payload resolves to. *)
Lemma on_mqtt_dimmer now idx payload app :
  0 ≤ idx ≤ 15 → lacks "/" mqtt_base_topic = true →
  _on_mqtt_command now (dimmer_topic idx) payload app =
  match resolved_level payload with
  | Some l =>
      try_except
        (do _ <- on_pca9685 (λ dev, set_level dev idx (clamp l));
         do _ <- on_state (update_dimmer now ("PWM" +:+ pretty idx)
                             (clamp l));
         publish_dimmer_state idx (clamp l))
        (λ _, lift (_log DEBUG)) app
  | None => (Ok tt, app)
  end.
Proof.
  intros Hidx Hbase. unfold _on_mqtt_command.
  rewrite dimmer_topic_startswith, dimmer_topic_endswith. cbn [andb].
  unfold try_except at 1. unfold bind at 1. unfold lift at 1.
  rewrite dimmer_topic_index by done.
  unfold bind at 1. unfold lift at 1.
  pose proof (dimmer_level_resolved payload) as Hres.
  destruct (dimmer_level payload) as [level | e].
  2: { rewrite Hres. unfold lift. by rewrite log_DEBUG. }
  rewrite Hres.
  assert (between 0 idx 15 = true) as -> by by apply between_spec.
  destruct level as [l |].
  - unfold try_except, bind, lift. cbn [int_of_level]. done.
  - unfold bind, lift. cbn. by rewrite log_DEBUG.
Qed.
End MqttFacts.

(** C2, as the code has it: for a dimmer command on topic
    <prefix>/dimmer/<idx>/set with idx in [0,15] (and a prefix without a
    slash) the handler never raises, and the level is resolved as
    [resolved_level] says: an object whose brightness is no number is
    dropped with nothing changed, whatever its state; otherwise a state of
    OFF gives 0 even next to a brightness, else the brightness counts, else
    a state of ON gives 100, and an object that yields no level this way is
    dropped with nothing changed; a string of OFF gives 0, of ON 100,
    any other its number, 0 when unparsable; any other value its number,
    0 when it has none. The level is clamped to [0,100] and, on a working
    bus, that clamped level is what is written to the PWM controller, stored
    in the state mirror and published. *)
Theorem C2_mqtt_dimmer_level `{Runtime} `{Config}
    (now idx : Z) (payload : pyval) (app : App) :
  0 ≤ idx ≤ 15 → lacks "/" mqtt_base_topic = true →
  clear (i2c (hardware_manager app)) →
  let '(r, app') := _on_mqtt_command now (dimmer_topic idx) payload app in
  r = Ok tt
  ∧ match resolved_level payload with
    | Some l =>
        state_manager app'
        = dimmer_written now ("PWM" +:+ pretty idx) (clamp l)
            (state_manager app)
        ∧ wire (i2c (hardware_manager app'))
          = (wire (i2c (hardware_manager app))
             ++ pwm_writes (pca9685 (hardware_manager app)) idx 0
                  (pulse_of_level (clamp l)))%list
        ∧ mqtt_out app' = (mqtt_out app ++ [dimmer_message idx (clamp l)])%list
    | None => app' = app
    end.
Proof.
  intros Hidx Hbase Hbus. rewrite on_mqtt_dimmer by done.
  destruct (resolved_level payload) as [l |]; [| done].
  destruct (set_level_clear (pca9685 (hardware_manager app)) idx (clamp l) _
              Hbus Hidx) as (b' & Hset & _).
  destruct (set_level_spec _ _ _ _ _ Hset) as (_ & Hwire & _).
  rewrite clamp_clamp in Hwire.
  unfold try_except, bind, on_pca9685, on_hardware, on_state, zoom.
  cbn. rewrite Hset. cbn.
  rewrite update_dimmer_ok by apply clamp_range. by cbn.
Qed.

Lemma C2_witness :
  let '(r, app') :=
    @_on_mqtt_command decimal_runtime DEFAULT_CONFIG 7
      (@dimmer_topic DEFAULT_CONFIG 3) (VDict {[ "brightness" := VInt 30 ]})
      demo_app in
  r = Ok tt
  ∧ match @resolved_level decimal_runtime
            (VDict {[ "brightness" := VInt 30 ]}) with
    | Some l =>
        state_manager app'
        = dimmer_written 7 ("PWM" +:+ pretty 3) (clamp l)
            (state_manager demo_app)
        ∧ wire (i2c (hardware_manager app'))
          = (wire (i2c (hardware_manager demo_app))
             ++ pwm_writes (pca9685 (hardware_manager demo_app)) 3 0
                  (pulse_of_level (clamp l)))%list
        ∧ mqtt_out app'
          = (mqtt_out demo_app
             ++ [@dimmer_message DEFAULT_CONFIG 3 (clamp l)])%list
    | None => app' = demo_app
    end.
Proof.
  apply (@C2_mqtt_dimmer_level decimal_runtime DEFAULT_CONFIG 7 3
           (VDict {[ "brightness" := VInt 30 ]}) demo_app);
    [lia | reflexivity | constructor].
Defined.

(** C2 as stated fails: for the payload {"brightness": 50, "state": "OFF"}
    the specification's order takes the brightness, 50, while the code
    applies 0. *)
Lemma C2_counterexample :
  ¬ (∀ payload : pyval,
       dimmer_levels
         (state_manager
            (@_on_mqtt_command decimal_runtime DEFAULT_CONFIG 0
               "kc868-ap/dimmer/3/set" payload demo_app).2) !! "PWM3"
       = Some (clamp (@claimed_level decimal_runtime payload))).
Proof.
  intros Hall.
  specialize (Hall (VDict {[ "brightness" := VInt 50;
                             "state" := VStr "OFF" ]})).
  vm_compute in Hall. discriminate Hall.
Qed.

(** ** The state mirror under the handlers *)

Section MirrorSteps.
Context `{Runtime} `{Config}.

Lemma frames_ret {A} (a : A) : sm_frames (ret a).
Proof. by intros app. Qed.

Lemma frames_raise {A} e : sm_frames (@raise App A e).
Proof. by intros app. Qed.

Lemma frames_lift {A} (r : result A) : sm_frames (lift r).
Proof. by intros app. Qed.

Lemma frames_read {A} (f : App → result A) : sm_frames (λ app, (f app, app)).
Proof. by intros app. Qed.

Lemma frames_on_hardware {A} (m : M HardwareManager A) :
  sm_frames (on_hardware m).
Proof. intros app. unfold on_hardware, zoom. by destruct (m _). Qed.

Lemma frames_on_pca9685 {A} (m : I2CDevice → M I2C A) :
  sm_frames (on_pca9685 m).
Proof. apply frames_on_hardware. Qed.

Lemma frames_on_relays {A} (m : M RelayController A) :
  sm_frames (on_relays m).
Proof. apply frames_on_hardware. Qed.

Lemma frames_publish_dimmer_state idx level :
  sm_frames (publish_dimmer_state idx level).
Proof. by intros app. Qed.

Lemma frames_publish_relay_state idx on :
  sm_frames (publish_relay_state idx on).
Proof. by intros app. Qed.

Lemma frames_bind {A B} (m : M App A) (k : A → M App B) :
  sm_frames m → (∀ a, sm_frames (k a)) → sm_frames (bind m k).
Proof.
  intros Hm Hk app. unfold bind. specialize (Hm app).
  destruct (m app) as [[a | e] app1]; [| done].
  by rewrite Hk.
Qed.

Lemma steps_frames {A} (m : M App A) : sm_frames m → sm_steps m.
Proof. intros Hm app. left. apply Hm. Qed.

Lemma steps_update_dimmer now name level :
  sm_steps (on_state (update_dimmer now name level)).
Proof.
  intros app. unfold on_state, zoom, update_dimmer.
  destruct (between 0 level 100) eqn:Hl; cbn; [| by left].
  apply between_spec in Hl. right. left. by exists now, name, level.
Qed.

Lemma steps_update_relay now name state :
  sm_steps (on_state (update_relay now name state)).
Proof.
  intros app. unfold on_state, zoom, update_relay.
  destruct (negb _); cbn; [by left |].
  right. right. left. by exists now, name, state.
Qed.

Lemma steps_update_inputs now inputs :
  sm_steps (on_state (update_inputs now inputs)).
Proof. intros app. right. right. right. by exists now, inputs. Qed.

(** Steps before the one update, and steps after it. *)
Lemma steps_bind_l {A B} (m : M App A) (k : A → M App B) :
  sm_frames m → (∀ a, sm_steps (k a)) → sm_steps (bind m k).
Proof.
  intros Hm Hk app. unfold bind. specialize (Hm app).
  destruct (m app) as [[a | e] app1]; cbn in *.
  - rewrite <- Hm. apply Hk.
  - left. exact Hm.
Qed.

Lemma steps_bind_r {A B} (m : M App A) (k : A → M App B) :
  sm_steps m → (∀ a, sm_frames (k a)) → sm_steps (bind m k).
Proof.
  intros Hm Hk app. unfold bind. specialize (Hm app).
  destruct (m app) as [[a | e] app1]; cbn in *; [| done].
  by rewrite Hk.
Qed.

Lemma steps_try_except {A} (m : M App A) (h : pyexn → M App A) :
  sm_steps m → (∀ e, sm_frames (h e)) → sm_steps (try_except m h).
Proof.
  intros Hm Hh app. unfold try_except. specialize (Hm app).
  destruct (m app) as [[a | e] app1]; cbn in *; [done |].
  by rewrite Hh.
Qed.

Ltac frames_step :=
  first
    [ apply frames_ret | apply frames_raise | apply frames_lift
    | apply frames_read | apply frames_on_pca9685 | apply frames_on_hardware
    | apply frames_on_relays | apply frames_publish_dimmer_state
    | apply frames_publish_relay_state
    | apply frames_bind; [| intros ?]
    | match goal with
      | |- sm_frames (if ?b then _ else _) => destruct b
      | |- sm_frames (match ?x with _ => _ end) => destruct x
      end ].

Ltac steps_step :=
  first
    [ apply steps_update_dimmer | apply steps_update_relay
    | apply steps_update_inputs
    | apply steps_try_except; [| intros ?; solve [repeat frames_step]]
    | apply steps_bind_l; [solve [repeat frames_step] | intros ?]
    | apply steps_bind_r; [| intros ?; solve [repeat frames_step]]
    | match goal with
      | |- sm_steps (if ?b then _ else _) => destruct b
      | |- sm_steps (match ?x with _ => _ end) => destruct x
      end
    | apply steps_frames; solve [repeat frames_step] ].

Lemma steps_handle_dimmer now command :
  sm_steps (_handle_dimmer_command now command).
Proof. unfold _handle_dimmer_command. repeat steps_step. Qed.

Lemma steps_handle_relay now command :
  sm_steps (_handle_relay_command now command).
Proof. unfold _handle_relay_command. repeat steps_step. Qed.

Lemma steps_process_command now command :
  sm_steps (process_command now command).
Proof.
  unfold process_command.
  apply steps_try_except; [| intros ?; solve [repeat frames_step]].
  apply steps_bind_l; [solve [repeat frames_step] | intros t].
  destruct (eq_str t "set_dimmer").
  { apply steps_bind_r; [apply steps_handle_dimmer |].
    intros ?; solve [repeat frames_step]. }
  destruct (eq_str t "toggle_relay").
  { apply steps_bind_r; [apply steps_handle_relay |].
    intros ?; solve [repeat frames_step]. }
  apply steps_frames. repeat frames_step.
Qed.

Lemma steps_scan_round now prev_inputs :
  sm_steps (scan_round now prev_inputs).
Proof. unfold scan_round. repeat steps_step. Qed.

Lemma steps_on_mqtt_command now topic payload :
  sm_steps (_on_mqtt_command now topic payload).
Proof.
  unfold _on_mqtt_command.
  apply steps_try_except; [| intros ?; solve [repeat frames_step]].
  destruct (_ && _); [repeat steps_step |].
  destruct (_ && _); [| apply steps_frames, frames_ret].
  apply steps_bind_l; [apply frames_lift |]. intros idx app.
  destruct (relay_states (state_manager app) !! _); [| by left].
  revert app.
  change (sm_steps
            (do _ <- on_relays (set_relay ("Relay" +:+ pretty idx)
                                  (relay_desired payload b));
             do _ <- on_state (update_relay now ("Relay" +:+ pretty idx)
                                 (relay_desired payload b));
             publish_relay_state idx (relay_desired payload b))).
  repeat steps_step.
Qed.

(** One update keeps the entries of last_non_zero_levels in the sense of
    [last_non_zero_kept]. *)
Lemma sm_step_last_non_zero sm sm' : sm_step sm sm' → last_non_zero_kept sm sm'.
Proof.
  intros [-> | [(now & name & level & Hl & ->) | [(now & name & s & ->)
                                                  | (now & inputs & ->)]]] c;
    cbn; try done.
  destruct (0 <? level) eqn:Hpos; [| done]. apply Z.ltb_lt in Hpos.
  destruct (decide (name = c)) as [-> | Hne].
  - intros _. exists level. by rewrite !lookup_insert_eq.
  - by rewrite lookup_insert_ne.
Qed.
End MirrorSteps.

(** C7: among the operations of the state mirror only update_dimmer touches
    last_non_zero_levels, and only for the written channel, only when the
    write goes through with a level above 0, which then is also the channel's
    dimmer level; a write of 0, a refused write, update_relay and
    update_inputs leave every entry as it was. So it is for the application
    as a whole: after a direct command, an MQTT command or a scanner round,
    an entry that differs from before holds a level above 0 that is also the
    channel's dimmer level. *)
Theorem C7_last_non_zero_levels `{Runtime} `{Config}
    (now : Z) (sm : StateManager) (app : App) :
  (∀ channel level c,
     let '(r, sm') := update_dimmer now channel level sm in
     last_non_zero_levels sm' !! c ≠ last_non_zero_levels sm !! c →
     c = channel ∧ r = Ok tt ∧ 0 < level
     ∧ dimmer_levels sm' !! c = Some level
     ∧ last_non_zero_levels sm' !! c = Some level)
  ∧ (∀ channel,
       let '(r, sm') := update_dimmer now channel 0 sm in
       r = Ok tt ∧ dimmer_levels sm' !! channel = Some 0
       ∧ last_non_zero_levels sm' = last_non_zero_levels sm)
  ∧ (∀ channel level,
       let '(r, sm') := update_dimmer now channel level sm in
       r ≠ Ok tt → sm' = sm)
  ∧ (∀ relay_name state,
       last_non_zero_levels (update_relay now relay_name state sm).2
       = last_non_zero_levels sm)
  ∧ (∀ inputs,
       last_non_zero_levels (update_inputs now inputs sm).2
       = last_non_zero_levels sm)
  ∧ (∀ command,
       last_non_zero_kept (state_manager app)
         (state_manager (process_command now command app).2))
  ∧ (∀ topic payload,
       last_non_zero_kept (state_manager app)
         (state_manager (_on_mqtt_command now topic payload app).2))
  ∧ (∀ prev_inputs,
       last_non_zero_kept (state_manager app)
         (state_manager (scan_round now prev_inputs app).2)).
Proof.
  split; [| split; [| split; [| split; [| split; [| split; [| split]]]]]].
  - intros channel level c. unfold update_dimmer.
    destruct (between 0 level 100); cbn; [| done].
    destruct (0 <? level) eqn:Hpos; [| done]. apply Z.ltb_lt in Hpos.
    destruct (decide (channel = c)) as [-> | Hne].
    + intros _. by rewrite !lookup_insert_eq.
    + by rewrite lookup_insert_ne.
  - intros channel. cbn. by rewrite lookup_insert_eq.
  - intros channel level. unfold update_dimmer.
    destruct (between 0 level 100); cbn; congruence.
  - intros relay_name state. unfold update_relay.
    by destruct (negb _).
  - done.
  - intros command. apply sm_step_last_non_zero, steps_process_command.
  - intros topic payload.
    apply sm_step_last_non_zero, steps_on_mqtt_command.
  - intros prev_inputs. apply sm_step_last_non_zero, steps_scan_round.
Qed.

Lemma C7_witness :
  last_non_zero_levels (update_dimmer 9 "PWM4" 35 (StateManager_init 0)).2
    !! "PWM4" = Some 35.
Proof.
  pose proof (@C7_last_non_zero_levels decimal_runtime DEFAULT_CONFIG
                9 (StateManager_init 0) demo_app)
    as (Hwrite & _).
  specialize (Hwrite "PWM4" 35 "PWM4").
  change (update_dimmer 9 "PWM4" 35 (StateManager_init 0))
    with (Ok tt, dimmer_written 9 "PWM4" 35 (StateManager_init 0)) in *.
  cbv beta iota in Hwrite. apply Hwrite. by vm_compute.
Defined.

(** * Further properties of the firmware *)

(** ** MQTT relay commands and foreign topics *)

(** Numerals in topics. *)

Lemma digit_not_slash (c : ascii) (d : Z) :
  digit_of c = Some d → c ≠ "/"%char.
Proof. intros Hd ->. vm_compute in Hd. discriminate Hd. Qed.

Lemma digits_lack_slash (s : string) (vw : Z * Z) :
  digits_value s = Some vw → lacks "/" s = true.
Proof.
  revert s vw. apply digits_value_shape.
  - intros c d Hc. cbn [lacks].
    by rewrite bool_decide_eq_false_2 by by eapply digit_not_slash.
  - intros c d s Hc _ Hs. cbn [lacks].
    by rewrite bool_decide_eq_false_2, Hs by by eapply digit_not_slash.
  - intros c d s Hc _ Hs. cbn [lacks].
    rewrite bool_decide_eq_false_2 by by eapply digit_not_slash.
    by rewrite bool_decide_eq_false_2, Hs by done.
Qed.

Lemma lacks_slash_pretty (n : Z) : 0 ≤ n → lacks "/" (pretty n) = true.
Proof.
  intros Hn. destruct n as [| p | p]; [done | | lia].
  destruct (digits_value_pretty (N.pos p)) as [w Hw].
  by apply (digits_lack_slash _ _ Hw).
Qed.

Section MqttRelayFacts.
Context `{Runtime} `{Config}.

Lemma relay_topic_not_dimmer idx :
  startswith (relay_topic idx) (mqtt_base_topic +:+ "/dimmer/") = false.
Proof. unfold relay_topic, startswith. by rewrite prefix_app. Qed.

Lemma relay_topic_startswith idx :
  startswith (relay_topic idx) (mqtt_base_topic +:+ "/relay/") = true.
Proof.
  unfold relay_topic, startswith. rewrite prefix_app.
  apply (startswith_append "/relay/").
Qed.

Lemma relay_topic_endswith idx : endswith (relay_topic idx) "/set" = true.
Proof.
  unfold relay_topic. do 2 apply endswith_app.
  apply (endswith_app (pretty idx) "/set"), endswith_refl.
Qed.

Lemma relay_topic_index idx :
  0 ≤ idx → lacks "/" mqtt_base_topic = true →
  topic_index (relay_topic idx) = Ok idx.
Proof.
  intros Hidx Hbase. unfold topic_index, relay_topic.
  change (mqtt_base_topic +:+ "/relay/" +:+ pretty idx +:+ "/set")
    with (mqtt_base_topic
          +:+ String "/" ("relay"
                          +:+ String "/" (pretty idx +:+ String "/" "set"))).
  rewrite split_piece by done. rewrite split_piece by done.
  rewrite split_piece by by apply lacks_slash_pretty.
  cbn [lookup list_lookup]. unfold py_int.
  by rewrite int_of_text_pretty_Z by lia.
Qed.

Lemma dimmer_topic_index_any idx :
  0 ≤ idx → lacks "/" mqtt_base_topic = true →
  topic_index (dimmer_topic idx) = Ok idx.
Proof.
  intros Hidx Hbase. unfold topic_index, dimmer_topic.
  change (mqtt_base_topic +:+ "/dimmer/" +:+ pretty idx +:+ "/set")
    with (mqtt_base_topic
          +:+ String "/" ("dimmer"
                          +:+ String "/" (pretty idx +:+ String "/" "set"))).
  rewrite split_piece by done. rewrite split_piece by done.
  rewrite split_piece by by apply lacks_slash_pretty.
  cbn [lookup list_lookup]. unfold py_int.
  by rewrite int_of_text_pretty_Z by lia.
Qed.

(** A relay command on a well-formed topic, as one run of the relay branch. *)
Lemma on_mqtt_relay now idx payload app :
  0 ≤ idx → lacks "/" mqtt_base_topic = true →
  _on_mqtt_command now (relay_topic idx) payload app =
  try_except
    (λ app,
       match relay_states (state_manager app) !! ("Relay" +:+ pretty idx) with
       | Some current =>
           let desired := relay_desired payload current in
           (do _ <- on_relays (set_relay ("Relay" +:+ pretty idx) desired);
            do _ <- on_state (update_relay now ("Relay" +:+ pretty idx)
                                desired);
            publish_relay_state idx desired) app
       | None => (Ok tt, app)
       end)
    (λ _, lift (_log DEBUG)) app.
Proof.
  intros Hidx Hbase. unfold _on_mqtt_command.
  rewrite relay_topic_not_dimmer, relay_topic_startswith,
    relay_topic_endswith.
  cbn [andb]. unfold try_except. unfold bind at 1. unfold lift at 1.
  by rewrite relay_topic_index by done.
Qed.

(** The MQTT handler returns normally, whatever it is given. *)
Lemma on_mqtt_command_returns now topic payload app :
  (_on_mqtt_command now topic payload app).1 = Ok tt.
Proof.
  unfold _on_mqtt_command, try_except.
  match goal with |- context [let (_, _) := ?body app in _] =>
    destruct (body app) as [[[] | e] app1] end; [done |].
  unfold lift. by rewrite log_DEBUG.
Qed.
End MqttRelayFacts.

Lemma relay_name_inj (i j : Z) :
  "Relay" +:+ pretty i = "Relay" +:+ pretty j → i = j.
Proof. intros Heq. by simplify_eq. Qed.

(** What the relay branch takes as desired state: a string, or the state of
    an object, switches the relay on when it reads ON in any letter case
    and off otherwise; anything else inverts the mirror's state. *)
Lemma relay_desired_reads `{Runtime} (payload : pyval) (current : bool) :
  relay_desired payload current
  = match payload with
    | VStr s => String.eqb (upper s) "ON"
    | VDict d =>
        match d !! "state" with
        | Some st => String.eqb (upper (py_str st)) "ON"
        | None => negb current
        end
    | _ => negb current
    end.
Proof.
  unfold relay_desired. destruct payload as [| | | | | d]; try done.
  by destruct (d !! "state").
Qed.

(** X1: an MQTT command on <prefix>/relay/<idx>/set for relay 1 or 2, when
    the two copies of the relay state agree: the handler returns normally;
    the relay controller and the state mirror both store the desired state
    for that relay, the relay's pin carries it, and the state message is
    published; the bus and the dimmer levels are untouched. The desired
    state is read off the payload: a string switches the relay on when its
    upper-case form is ON and off otherwise; so does the state entry of an
    object, taken as text; an object without a state entry, and any other
    payload, inverts the state the mirror holds. *)
Theorem mqtt_relay_command `{Runtime} `{Config}
    (now idx : Z) (payload : pyval) (app : App) :
  idx = 1 ∨ idx = 2 → lacks "/" mqtt_base_topic = true →
  relays_agree app →
  ∃ current,
    relay_states (state_manager app) !! ("Relay" +:+ pretty idx)
    = Some current
    ∧ let desired :=
        match payload with
        | VStr s => String.eqb (upper s) "ON"
        | VDict d =>
            match d !! "state" with
            | Some st => String.eqb (upper (py_str st)) "ON"
            | None => negb current
            end
        | _ => negb current
        end in
      let '(r, app') := _on_mqtt_command now (relay_topic idx) payload app in
      r = Ok tt
      ∧ states (relay_controller (hardware_manager app'))
        = <["Relay" +:+ pretty idx := desired]>
            (states (relay_controller (hardware_manager app)))
      ∧ relay_states (state_manager app')
        = <["Relay" +:+ pretty idx := desired]>
            (relay_states (state_manager app))
      ∧ relay_pin ("Relay" +:+ pretty idx)
          (relay_controller (hardware_manager app'))
        = Some (if desired then 1 else 0)
      ∧ mqtt_out app' = (mqtt_out app ++ [relay_message idx desired])%list
      ∧ i2c (hardware_manager app') = i2c (hardware_manager app)
      ∧ dimmer_levels (state_manager app') = dimmer_levels (state_manager app).
Proof.
  intros Hidx Hbase [Heq Hdom].
  assert ("Relay" +:+ pretty idx ∈ dom (relay_states (state_manager app)))
    as Hin.
  { rewrite Hdom. destruct Hidx as [-> | ->].
    - apply elem_of_union_l. by apply elem_of_singleton.
    - apply elem_of_union_r. by apply elem_of_singleton. }
  pose proof Hin as Hin'. apply elem_of_dom in Hin' as [current Hcur].
  exists current. split; [done |].
  rewrite <- relay_desired_reads. cbv zeta.
  rewrite on_mqtt_relay by (done || lia).
  unfold try_except. rewrite Hcur.
  unfold bind, on_relays, on_hardware, on_state, zoom. cbn.
  rewrite set_relay_run by by rewrite Heq. cbn.
  rewrite update_relay_run by done. cbn.
  split; [done |]. split; [done |]. split; [done |].
  split; [| done].
  unfold relay_pin. cbn.
  destruct Hidx as [-> | ->]; by destruct (relay_desired payload current).
Qed.

(** X2: the MQTT handler returns normally for every topic and payload, and
    changes nothing when the topic is none of its own: not under
    <prefix>/dimmer/ or <prefix>/relay/, not ending in /set, a dimmer index
    above 15, or a relay index other than 1 and 2. *)
Theorem mqtt_command_ignored `{Runtime} `{Config}
    (now : Z) (payload : pyval) (app : App) :
  (∀ topic, (_on_mqtt_command now topic payload app).1 = Ok tt)
  ∧ (∀ topic,
       startswith topic (mqtt_base_topic +:+ "/dimmer/") = false →
       startswith topic (mqtt_base_topic +:+ "/relay/") = false →
       _on_mqtt_command now topic payload app = (Ok tt, app))
  ∧ (∀ topic,
       endswith topic "/set" = false →
       _on_mqtt_command now topic payload app = (Ok tt, app))
  ∧ (∀ idx,
       15 < idx → lacks "/" mqtt_base_topic = true →
       _on_mqtt_command now (dimmer_topic idx) payload app = (Ok tt, app))
  ∧ (∀ idx,
       0 ≤ idx → idx ≠ 1 → idx ≠ 2 → lacks "/" mqtt_base_topic = true →
       dom (relay_states (state_manager app))
       = ({[ "Relay1"; "Relay2" ]} : gset string) →
       _on_mqtt_command now (relay_topic idx) payload app = (Ok tt, app)).
Proof.
  split; [intros topic; apply on_mqtt_command_returns |].
  split; [| split; [| split]].
  - intros topic Hd Hr. unfold _on_mqtt_command, try_except.
    by rewrite Hd, Hr.
  - intros topic Hs. unfold _on_mqtt_command, try_except.
    by rewrite Hs, !andb_false_r.
  - intros idx Hidx Hbase. unfold _on_mqtt_command, try_except.
    rewrite dimmer_topic_startswith, dimmer_topic_endswith. cbn [andb].
    unfold bind at 1. unfold lift at 1.
    rewrite dimmer_topic_index_any by (done || lia).
    unfold bind at 1. unfold lift at 1.
    destruct (dimmer_level payload) as [level | e].
    + assert (between 0 idx 15 = false) as ->
        by (apply between_false; lia).
      done.
    + unfold lift. by rewrite log_DEBUG.
  - intros idx Hidx H1 H2 Hbase Hdom.
    rewrite on_mqtt_relay by done. unfold try_except.
    assert (relay_states (state_manager app) !! ("Relay" +:+ pretty idx)
            = None) as ->; [| done].
    apply not_elem_of_dom. rewrite Hdom.
    intros [Hin | Hin]%elem_of_union; apply elem_of_singleton in Hin.
    + by apply (relay_name_inj idx 1) in Hin.
    + by apply (relay_name_inj idx 2) in Hin.
Qed.

Section BusFailure.
Context `{Runtime} `{Config}.

(** A device that was not found is never written: [set_level] returns at
    once and the bus is as it was. *)
Lemma set_level_invalid dev channel level b :
  is_valid dev = false → 0 ≤ channel ≤ 15 →
  set_level dev channel level b = (Ok tt, b).
Proof.
  intros Hv Hc. unfold set_level, set_pwm, _write.
  assert (between 0 channel 15 = true) as -> by by apply between_spec.
  pose proof (pulse_of_level_range (Z.max 0 (Z.min 100 level)) ltac:(lia))
    as Hp.
  assert (between 0 (pulse_of_level (Z.max 0 (Z.min 100 level))) 4095 = true)
    as -> by by apply between_spec.
  rewrite Hv. cbn. unfold bind, ret, lift. by rewrite log_DEBUG.
Qed.
End BusFailure.

(** X3: when the PWM controller was not found at start-up, a direct
    set-dimmer command still reports success and stores the level in the
    state mirror, while nothing at all happens on the bus. *)
Theorem dimmer_command_without_controller `{Runtime} `{Config}
    (now c level : Z) (app : App) :
  0 ≤ c ≤ 15 → 0 ≤ level ≤ 100 →
  is_valid (pca9685 (hardware_manager app)) = false →
  ∃ response app',
    process_command now (set_dimmer_command c level) app = (Ok response, app')
    ∧ status_of response = Some (VStr "success")
    ∧ hardware_manager app' = hardware_manager app
    ∧ dimmer_levels (state_manager app') !! ("PWM" +:+ pretty c) = Some level.
Proof.
  intros Hc Hl Hv. eexists _, _. split.
  - apply process_set_dimmer_ok; [done | done |].
    by apply set_level_invalid.
  - split; [done |]. split; [by destruct (hardware_manager app) |].
    cbn. apply lookup_insert_eq.
Qed.

(** ** The retry loop, exactly *)

Section RetryFacts.
Context `{Runtime} `{Config}.

(** One attempt of a register write, by the head of the fault script. *)
Lemma write_attempt dev reg value b :
  0 ≤ reg ≤ 255 → 0 ≤ value ≤ 255 →
  (do buf <- lift (bytes [reg; value]); writeto (address dev) buf) b
  = match faults b with
    | true :: rest =>
        (Err (OSError (fault_text BusFault)),
         {| faults := rest; port := port b; wire := wire b |})
    | false :: rest =>
        (Ok tt, {| faults := rest; port := port b;
                   wire := wire b ++ [(address dev, [reg; value])] |})
    | [] =>
        (Ok tt, {| faults := []; port := port b;
                   wire := wire b ++ [(address dev, [reg; value])] |})
    end.
Proof.
  intros Hreg Hval. unfold bind, lift, writeto, bytes, transfer. cbn.
  assert (between 0 reg 255 = true) as -> by by apply between_spec.
  assert (between 0 value 255 = true) as -> by by apply between_spec.
  cbn. unfold bind. destruct (faults b) as [| [] rest] eqn:Hf; cbn; [| done |].
  - by rewrite Hf.
  - done.
Qed.
Lemma retry_step {A} dev n last (operation : M I2C A) b :
  retry_rounds dev (S n) last operation b
  = match operation b with
    | (Ok a, b') => (Ok a, b')
    | (Err e, b') =>
        match (if bool_decide (n = 0%nat) then _log ERROR else _log DEBUG) with
        | Ok _ => retry_rounds dev n (str_exn e) operation b'
        | Err e' => (Err e', b')
        end
    end.
Proof. reflexivity. Qed.
End RetryFacts.

(** X5: a register write is tried at most three times: it goes through
    with the first transfer the bus does not fail, if that is among the
    first three, leaving one write on the wire and the later fault entries
    unused; after three failures in a row it raises HardwareError with the
    device name and the last fault, and the wire is as before. *)
Theorem write_retries_three_times `{Runtime} `{Config}
    (dev : I2CDevice) (reg value : Z) (b : I2C) :
  is_valid dev = true → 0 ≤ reg ≤ 255 → 0 ≤ value ≤ 255 →
  (∀ k rest,
     (k ≤ 2)%nat → faults b = (replicate k true ++ false :: rest)%list →
     _write dev reg value b
     = (Ok tt, {| faults := rest; port := port b;
                  wire := (wire b ++ [(address dev, [reg; value])])%list |}))
  ∧ (∀ k,
       (k ≤ 2)%nat → faults b = replicate k true →
       _write dev reg value b
       = (Ok tt, {| faults := []; port := port b;
                    wire := (wire b ++ [(address dev, [reg; value])])%list |}))
  ∧ (∀ rest,
       faults b = true :: true :: true :: rest → system_debug = false →
       _write dev reg value b
       = (Err (HardwareError (name dev +:+ " operation failed: "
                              +:+ fault_text BusFault)),
          {| faults := rest; port := port b; wire := wire b |})).
Proof.
  intros Hv Hreg Hval.
  assert (∀ b0, _write dev reg value b0
                = retry_rounds dev 3 "None"
                    (do buf <- lift (bytes [reg; value]);
                     writeto (address dev) buf) b0) as Hw.
  { intros b0. unfold _write. by rewrite Hv. }
  split; [| split].
  - intros k rest Hk Hf. rewrite Hw.
    assert (k = 0 ∨ k = 1 ∨ k = 2)%nat as [-> | [-> | ->]] by lia;
      cbn [replicate app] in Hf;
      repeat (rewrite retry_step, write_attempt by done;
              rewrite ?Hf; cbn [faults]; cbv beta iota;
              rewrite ?bool_decide_eq_false_2 by done; rewrite ?log_DEBUG);
      done.
  - intros k Hk Hf. rewrite Hw.
    assert (k = 0 ∨ k = 1 ∨ k = 2)%nat as [-> | [-> | ->]] by lia;
      cbn [replicate] in Hf;
      repeat (rewrite retry_step, write_attempt by done;
              rewrite ?Hf; cbn [faults]; cbv beta iota;
              rewrite ?bool_decide_eq_false_2 by done; rewrite ?log_DEBUG);
      done.
  - intros rest Hf Hd. rewrite Hw.
    do 3 (rewrite retry_step, write_attempt by done;
          rewrite ?Hf; cbn [faults]; cbv beta iota;
          rewrite ?bool_decide_eq_false_2 by done; rewrite ?log_DEBUG).
    rewrite bool_decide_eq_true_2 by done. rewrite log_no_debug by done.
    done.
Qed.

Section StuckBus.
Context `{Runtime} `{Config}.

(** Three failed transfers in a row end a register write, with debug
    logging on as well. *)
Lemma write_stuck dev reg value b rest :
  is_valid dev = true → 0 ≤ reg ≤ 255 → 0 ≤ value ≤ 255 →
  faults b = true :: true :: true :: rest →
  _write dev reg value b
  = (Err (match _log ERROR with
          | Ok _ => HardwareError (name dev +:+ " operation failed: "
                                   +:+ fault_text BusFault)
          | Err e => e
          end),
     {| faults := rest; port := port b; wire := wire b |}).
Proof.
  intros Hv Hreg Hval Hf. unfold _write. rewrite Hv. cbn [negb].
  unfold _retry_operation, retry_count.
  do 3 (rewrite retry_step, write_attempt by done;
        rewrite ?Hf; cbn [faults]; cbv beta iota;
        rewrite ?bool_decide_eq_false_2 by done; rewrite ?log_DEBUG).
  rewrite bool_decide_eq_true_2 by done. by destruct (_log ERROR).
Qed.

Lemma set_level_stuck dev channel level b rest :
  is_valid dev = true → 0 ≤ channel ≤ 15 →
  faults b = true :: true :: true :: rest →
  set_level dev channel level b
  = (Err (match _log ERROR with
          | Ok _ => HardwareError (name dev +:+ " operation failed: "
                                   +:+ fault_text BusFault)
          | Err e => e
          end),
     {| faults := rest; port := port b; wire := wire b |}).
Proof.
  intros Hv Hc Hf. unfold set_level, set_pwm, LED0_ON_L.
  assert (between 0 channel 15 = true) as -> by by apply between_spec.
  pose proof (pulse_of_level_range (Z.max 0 (Z.min 100 level)) ltac:(lia))
    as Hp.
  assert (between 0 (pulse_of_level (Z.max 0 (Z.min 100 level))) 4095 = true)
    as -> by by apply between_spec.
  cbn. unfold bind.
  change (Z.land 0 255) with 0.
  by rewrite (write_stuck dev (6 + 4 * channel) 0 b rest) by (done || lia).
Qed.
End StuckBus.

(** X4: when the first register write of a dimmer command fails three
    times in a row, the command stops there: nothing reached the PWM
    controller, the state mirror is as before and nothing is published. The
    direct command answers with an error response (debug logging off), the
    MQTT handler returns normally. *)
Theorem dimmer_command_bus_failure `{Runtime} `{Config}
    (now c level : Z) (payload : pyval) (app : App) (rest : list bool) :
  0 ≤ c ≤ 15 → lacks "/" mqtt_base_topic = true →
  is_valid (pca9685 (hardware_manager app)) = true →
  faults (i2c (hardware_manager app)) = true :: true :: true :: rest →
  (let '(r, app') := process_command now (set_dimmer_command c level) app in
   state_manager app' = state_manager app
   ∧ mqtt_out app' = mqtt_out app
   ∧ wire (i2c (hardware_manager app')) = wire (i2c (hardware_manager app))
   ∧ (system_debug = false →
      ∃ response, r = Ok response
                  ∧ status_of response = Some (VStr "error")))
  ∧ (let '(r, app') := _on_mqtt_command now (dimmer_topic c) payload app in
     r = Ok tt
     ∧ state_manager app' = state_manager app
     ∧ mqtt_out app' = mqtt_out app
     ∧ wire (i2c (hardware_manager app'))
       = wire (i2c (hardware_manager app))).
Proof.
  intros Hc Hbase Hv Hf. split.
  - rewrite process_set_dimmer by done.
    unfold try_except, bind, on_pca9685, on_hardware, on_state, zoom, lift,
      ret. cbn. rewrite (set_level_stuck _ _ _ _ rest) by done. cbn.
    destruct (_log ERROR) eqn:Hlog; cbn.
    + split; [done |]. split; [done |]. split; [done |]. intros _.
      by eexists.
    + split; [done |]. split; [done |]. split; [done |]. intros Hd.
      by rewrite log_no_debug in Hlog by done.
  - rewrite on_mqtt_dimmer by done.
    destruct (resolved_level payload) as [l |]; [| done].
    unfold try_except, bind, on_pca9685, on_hardware, on_state, zoom, lift.
    cbn. rewrite (set_level_stuck _ _ _ _ rest) by done. cbn.
    by rewrite log_DEBUG.
Qed.

(** ** Levels and channel texts *)

Lemma pulse_of_clamp_mono (l l' : Z) :
  l ≤ l' → pulse_of_level (clamp l) ≤ pulse_of_level (clamp l').
Proof.
  intros Hl. rewrite !pulse_of_level_floor by (unfold clamp; lia).
  apply Z.div_le_mono; [lia |]. unfold clamp. lia.
Qed.

(** X6: set_level accepts every integer level: on a valid channel of a bus
    without faults it succeeds and the channel holds the duty of the level
    clamped to [0,100], which is within [0,4095], is 0 for levels up to 0,
    4095 for levels from 100, and never decreases when the level grows. *)
Theorem set_level_clamps `{Runtime} `{Config}
    (dev : I2CDevice) (channel level : Z) (b : I2C) :
  is_valid dev = true → 0 ≤ channel ≤ 15 → clear b →
  ∃ b',
    set_level dev channel level b = (Ok tt, b')
    ∧ channel_duty (address dev) channel (wire b')
      = Some (pulse_of_level (clamp level))
    ∧ 0 ≤ pulse_of_level (clamp level) ≤ 4095
    ∧ (level ≤ 0 → pulse_of_level (clamp level) = 0)
    ∧ (100 ≤ level → pulse_of_level (clamp level) = 4095)
    ∧ (∀ level', level ≤ level' →
         pulse_of_level (clamp level) ≤ pulse_of_level (clamp level')).
Proof.
  intros Hv Hc Hb.
  destruct (set_level_clear dev channel level b Hb Hc) as (b' & Hset & _).
  destruct (set_level_spec _ _ _ _ _ Hset) as (_ & Hwire & _).
  exists b'. split; [done |].
  split; [by rewrite Hwire, channel_duty_pwm_writes |].
  split; [apply pulse_of_level_range, clamp_range |].
  split; [| split].
  - intros Hl. by replace (clamp level) with 0 by (unfold clamp; lia).
  - intros Hl. by replace (clamp level) with 100 by (unfold clamp; lia).
  - intros level'. apply pulse_of_clamp_mono.
Qed.

Section NamedChannel.
Context `{Runtime} `{Config}.

Lemma handle_dimmer_run_named now name c level app :
  name ≠ "" → startswith name "PWM" = true →
  int_of_text (replace_PWM name) = Some c → 0 ≤ c ≤ 15 →
  _handle_dimmer_command now (named_dimmer_command name level) app =
  (do _ <- on_pca9685 (λ dev, set_level dev c level);
   do _ <- on_state (update_dimmer now name level);
   lift (_log INFO)) app.
Proof.
  intros Hne Hpre Hint Hc.
  unfold _handle_dimmer_command, named_dimmer_command.
  unfold bind at 1. unfold lift at 1. unfold py_get.
  rewrite lookup_insert_ne by done. rewrite lookup_insert_eq.
  unfold bind at 1. unfold lift at 1. unfold py_get_default.
  rewrite !lookup_insert_ne by done. rewrite lookup_singleton_eq.
  unfold bind at 1. unfold lift at 1. unfold default.
  cbn [from_option id py_int truthy].
  assert (String.eqb name "" = false) as -> by by apply String.eqb_neq.
  rewrite Hpre. cbn [negb].
  unfold bind at 1. unfold ret at 1.
  unfold bind at 1. unfold lift at 1. unfold py_int. rewrite Hint.
  assert (between 0 c 15 = true) as -> by by apply between_spec.
  done.
Qed.
End NamedChannel.

(** X7: the direct set-dimmer command stores the level under the channel
    text as it was sent. A text that starts with PWM and reads as channel c
    once every PWM is removed drives hardware channel c; when the text is
    not exactly PWM<c> (as with PWM03), the entry dimmers[PWM<c>] of the
    state mirror stays as it was. *)
Theorem dimmer_state_key_is_channel_text `{Runtime} `{Config}
    (now c level : Z) (name : string) (app : App) :
  name ≠ "" → startswith name "PWM" = true →
  int_of_text (replace_PWM name) = Some c → 0 ≤ c ≤ 15 →
  0 ≤ level ≤ 100 →
  clear (i2c (hardware_manager app)) →
  is_valid (pca9685 (hardware_manager app)) = true →
  ∃ response app',
    process_command now (named_dimmer_command name level) app
    = (Ok response, app')
    ∧ status_of response = Some (VStr "success")
    ∧ channel_duty (address (pca9685 (hardware_manager app'))) c
        (wire (i2c (hardware_manager app')))
      = Some (level * 4095 / 100)
    ∧ dimmer_levels (state_manager app')
      = <[name := level]> (dimmer_levels (state_manager app))
    ∧ (name ≠ "PWM" +:+ pretty c →
       dimmer_levels (state_manager app') !! ("PWM" +:+ pretty c)
       = dimmer_levels (state_manager app) !! ("PWM" +:+ pretty c)).
Proof.
  intros Hne Hpre Hint Hc Hl Hbus Hv.
  destruct (set_level_clear (pca9685 (hardware_manager app)) c level _
              Hbus Hc) as (b' & Hset & _).
  destruct (set_level_spec _ _ _ _ _ Hset) as (_ & Hwire & _).
  eexists _, _. split.
  { unfold process_command, try_except.
    unfold bind at 1. unfold lift at 1.
    assert (py_get (named_dimmer_command name level) "type"
            = Ok (VStr "set_dimmer")) as -> by done.
    cbn [eq_str]. rewrite String.eqb_refl.
    unfold bind at 1.
    rewrite (handle_dimmer_run_named _ _ c) by done.
    unfold bind, on_pca9685, on_hardware, on_state, zoom, lift, ret.
    cbn. rewrite Hset. cbn.
    rewrite update_dimmer_ok by done. cbn. by rewrite log_INFO. }
  split; [done |]. split.
  { cbn. rewrite Hwire, channel_duty_pwm_writes by done.
    f_equal. replace (Z.max 0 (Z.min 100 level)) with level by lia.
    apply pulse_of_level_floor. lia. }
  split; [done |].
  intros Hdiff. cbn. by rewrite lookup_insert_ne.
Qed.

Lemma dimmer_state_key_witness :
  ∃ response app',
    @process_command decimal_runtime DEFAULT_CONFIG 7
      (named_dimmer_command "PWM03" 60) demo_app = (Ok response, app')
    ∧ status_of response = Some (VStr "success")
    ∧ channel_duty (address (pca9685 (hardware_manager app'))) 3
        (wire (i2c (hardware_manager app')))
      = Some (60 * 4095 / 100)
    ∧ dimmer_levels (state_manager app')
      = <["PWM03" := 60]> (dimmer_levels (state_manager demo_app))
    ∧ ("PWM03" ≠ "PWM" +:+ pretty 3 →
       dimmer_levels (state_manager app') !! ("PWM" +:+ pretty 3)
       = dimmer_levels (state_manager demo_app) !! ("PWM" +:+ pretty 3)).
Proof.
  apply (@dimmer_state_key_is_channel_text decimal_runtime DEFAULT_CONFIG
           7 3 60 "PWM03" demo_app);
    [discriminate | reflexivity | reflexivity | lia | lia | constructor
    | reflexivity].
Defined.

(** ** Consecutive scans *)

Section ScanClear.
Context `{Runtime} `{Config}.

Lemma read_inputs_clear dev first st hw :
  clear (i2c hw) →
  ∃ hw',
    read_inputs dev first st hw
    = (Ok (fill_read first (expander_byte (i2c hw) dev) st), hw')
    ∧ clear (i2c hw') ∧ port (i2c hw') = port (i2c hw)
    ∧ hw' = set_i2c (i2c hw') hw.
Proof.
  intros Hb. unfold read_inputs, expander_byte.
  destruct (is_valid dev) eqn:Hv.
  - destruct (read_all_clear dev (i2c hw) Hb Hv) as (b1 & Hr & Hb1 & _ & Hp).
    exists (set_i2c b1 hw). unfold bind, zoom. rewrite Hr. by cbn.
  - exists hw. unfold ret. by destruct hw.
Qed.

(** On a bus without faults a scan reads [snapshot_of] and leaves a bus
    without faults that presents the same bytes. *)
Lemma get_input_states_clear hw :
  clear (i2c hw) →
  ∃ hw',
    get_input_states hw = (Ok (snapshot_of hw), hw')
    ∧ clear (i2c hw') ∧ snapshot_of hw' = snapshot_of hw.
Proof.
  intros Hb. unfold get_input_states, bind.
  destruct (read_inputs_clear (pcf_inputs_1_8 hw) 1 ∅ hw Hb)
    as (hw1 & -> & Hb1 & Hp1 & Hf1).
  destruct (read_inputs_clear (pcf_inputs_9_16 hw) 9
              (fill_read 1 (expander_byte (i2c hw) (pcf_inputs_1_8 hw)) ∅)
              hw1 Hb1) as (hw2 & -> & Hb2 & Hp2 & Hf2).
  exists hw2. unfold snapshot_of, expander_byte.
  rewrite Hp1. split; [done |]. split; [done |].
  rewrite Hf2. cbn. rewrite Hf1. cbn. by rewrite Hp2, Hp1.
Qed.

(** A round that read [current]: nothing happens when it is the accepted
    snapshot; else its new entries are logged and all of it is merged. *)
Lemma scan_round_read now (prev : gmap string bool) app current app1 :
  on_hardware get_input_states app = (Ok current, app1) →
  (current = prev →
     scan_round now prev app = (Ok (prev, []), app1)
     ∧ state_manager app1 = state_manager app)
  ∧ (current ≠ prev →
     ∃ notes app2,
       scan_round now prev app = (Ok (current, notes), app2)
       ∧ notes = input_note <$> changed_inputs prev current
       ∧ hardware_manager app2 = hardware_manager app1
       ∧ input_states (state_manager app2)
         = current ∪ input_states (state_manager app)
       ∧ (∀ key v, current !! key = Some v →
                   input_states (state_manager app2) !! key = Some v)
       ∧ dimmer_levels (state_manager app2)
         = dimmer_levels (state_manager app)).
Proof.
  intros Hread.
  assert (state_manager app1 = state_manager app) as Hsm.
  { unfold on_hardware, zoom in Hread.
    destruct (get_input_states (hardware_manager app)).
    by injection Hread as _ <-. }
  split.
  - intros ->. split; [| done].
    unfold scan_round, try_except, bind. rewrite Hread.
    by rewrite bool_decide_eq_false_2 by (by intros []).
  - intros Hne. eexists _, _. split.
    { unfold scan_round, try_except, bind. rewrite Hread.
      rewrite bool_decide_eq_true_2 by done.
      unfold lift. rewrite log_changes_run. done. }
    cbn. rewrite Hsm. split; [done |]. split; [done |]. split; [done |].
    split; [| done].
    intros key v Hk. by apply lookup_union_Some_l.
Qed.
End ScanClear.

(** X8: on a bus without faults, a scan round accepts the snapshot the
    expanders present, and the round after it, started from that accepted
    snapshot, emits no notification and leaves the state mirror alone; when
    the first round's snapshot was new, all of it is in the state mirror. *)
Theorem scan_twice_is_quiet `{Runtime} `{Config}
    (now1 now2 : Z) (prev : gmap string bool) (app : App) :
  clear (i2c (hardware_manager app)) →
  let current := snapshot_of (hardware_manager app) in
  ∃ notes app1 app2,
    scan_round now1 prev app = (Ok (current, notes), app1)
    ∧ scan_round now2 current app1 = (Ok (current, []), app2)
    ∧ state_manager app2 = state_manager app1
    ∧ (current = prev → notes = []
                        ∧ state_manager app1 = state_manager app)
    ∧ (current ≠ prev →
       ∀ key v, current !! key = Some v →
                input_states (state_manager app1) !! key = Some v).
Proof.
  intros Hb current.
  destruct (get_input_states_clear _ Hb) as (hw1 & Hread & Hb1 & Hsnap).
  assert (on_hardware get_input_states app
          = (Ok current, set_hardware_manager hw1 app)) as Hread1.
  { unfold on_hardware, zoom. by rewrite Hread. }
  destruct (scan_round_read now1 prev app _ _ Hread1)
    as [Hsame Hdiff].
  destruct (decide (current = prev)) as [Heq | Hne].
  - destruct (Hsame Heq) as [Hrun Hsm].
    destruct (get_input_states_clear hw1 Hb1) as (hw2 & Hread2 & _ & _).
    rewrite Hsnap in Hread2. fold current in Hread2.
    assert (on_hardware get_input_states (set_hardware_manager hw1 app)
            = (Ok current,
               set_hardware_manager hw2 (set_hardware_manager hw1 app)))
      as Hread2'.
    { unfold on_hardware, zoom. cbn. by rewrite Hread2. }
    destruct (proj1 (scan_round_read now2 current _ _ _ Hread2')
                eq_refl) as [Hrun2 Hsm2].
    eexists [], _, _. rewrite <- Heq in Hrun at 2.
    split; [exact Hrun |]. split; [exact Hrun2 |]. split; [done |].
    split; [done |]. by intros Hne.
  - destruct (Hdiff Hne) as (notes & app1 & Hrun & _ & Hhw & _ & Hall & _).
    cbn in Hhw.
    destruct (get_input_states_clear hw1 Hb1) as (hw2 & Hread2 & _ & _).
    rewrite Hsnap in Hread2. fold current in Hread2.
    assert (on_hardware get_input_states app1
            = (Ok current, set_hardware_manager hw2 app1)) as Hread2'.
    { unfold on_hardware, zoom. by rewrite Hhw, Hread2. }
    destruct (proj1 (scan_round_read now2 current _ _ _ Hread2')
                eq_refl) as [Hrun2 Hsm2].
    eexists notes, app1, _.
    split; [exact Hrun |]. split; [exact Hrun2 |]. split; [done |].
    split; [by intros Heq | by intros _].
Qed.

(** ** Failing reads *)

Section StuckReads.
Context `{Runtime} `{Config}.

Lemma read_attempt addr b :
  readfrom addr b
  = match faults b with
    | true :: rest =>
        (Err (OSError (fault_text BusFault)),
         {| faults := rest; port := port b; wire := wire b |})
    | false :: rest =>
        (Ok (port b addr),
         {| faults := rest; port := port b; wire := wire b |})
    | [] => (Ok (port b addr), b)
    end.
Proof.
  unfold readfrom, bind, transfer. by destruct (faults b) as [| [] rest].
Qed.

Lemma log_ERROR_debug :
  system_debug = true → logger_level ≤ 3 →
  _log ERROR = Err (TypeError (fault_text (BadCall "print_exception"))).
Proof.
  intros Hd Hl. unfold _log, logger_debug_mode. rewrite Hd. cbn.
  rewrite bool_decide_eq_true_2; [done |].
  change (default 0 (LEVELS !! "ERROR")) with 3. lia.
Qed.

(** Three failed transfers in a row: the read gives nothing when debug
    logging is off, and raises when it is on. *)
Lemma read_all_stuck dev b rest :
  is_valid dev = true → faults b = true :: true :: true :: rest →
  read_all dev b
  = (match _log ERROR with
     | Ok _ => Ok None
     | Err e => Err e
     end,
     {| faults := rest; port := port b; wire := wire b |}).
Proof.
  intros Hv Hf. unfold read_all. rewrite Hv. cbn [negb].
  unfold try_except at 1. unfold bind at 1.
  unfold _retry_operation, retry_count.
  do 3 (rewrite retry_step, read_attempt;
        rewrite ?Hf; cbn [faults]; cbv beta iota;
        rewrite ?bool_decide_eq_false_2 by done; rewrite ?log_DEBUG).
  rewrite bool_decide_eq_true_2 by done.
  destruct (_log ERROR) as [[] | e] eqn:Hlog; cbn; [done |].
  unfold _log in Hlog.
  case_bool_decide; [| discriminate].
  destruct (logger_debug_mode && _); [| discriminate].
  by injection Hlog as <-.
Qed.
End StuckReads.

(** X9: with debug logging off a scan round never raises, whatever the
    bus does. When the reads of both expanders fail three times each, the
    round accepts the empty snapshot, emits no notification and keeps the
    inputs of the state mirror as they were. *)
Theorem scanner_survives_bus_failure `{Runtime} `{Config}
    (now : Z) (app : App) :
  system_debug = false →
  (∀ prev, ∃ accepted notes app',
     scan_round now prev app = (Ok (accepted, notes), app'))
  ∧ (∀ prev rest,
       is_valid (pcf_inputs_1_8 (hardware_manager app)) = true →
       is_valid (pcf_inputs_9_16 (hardware_manager app)) = true →
       faults (i2c (hardware_manager app))
       = (replicate 6 true ++ rest)%list →
       ∃ app',
         scan_round now prev app = (Ok (∅, []), app')
         ∧ input_states (state_manager app')
           = input_states (state_manager app)
         ∧ faults (i2c (hardware_manager app')) = rest).
Proof.
  intros Hd. split.
  - intros prev.
    destruct (scan_reads_without_debug app Hd) as (current & app1 & Hread).
    destruct (scan_round_read now prev app current app1 Hread)
      as [Hsame Hdiff].
    destruct (decide (current = prev)) as [Heq | Hne].
    + destruct (Hsame Heq) as [Hrun _]. by eexists _, _, _.
    + destruct (Hdiff Hne) as (notes & app2 & Hrun & _). by eexists _, _, _.
  - intros prev rest Hv1 Hv2 Hf.
    set (hw := hardware_manager app) in *.
    assert (on_hardware get_input_states app
            = (Ok ∅,
               set_hardware_manager
                 (set_i2c {| faults := rest; port := port (i2c hw);
                             wire := wire (i2c hw) |} hw) app)) as Hread.
    { unfold on_hardware, zoom, get_input_states, read_inputs, bind, zoom.
      fold hw. rewrite Hv1, Hv2.
      rewrite (read_all_stuck _ _ (true :: true :: true :: rest)) by done.
      rewrite log_no_debug by done. cbn.
      rewrite (read_all_stuck _ _ rest) by done.
      by rewrite log_no_debug by done. }
    destruct (scan_round_read now prev app _ _ Hread) as [Hsame Hdiff].
    destruct (decide (∅ = prev)) as [Heq | Hne].
    + destruct (Hsame Heq) as [Hrun Hsm]. subst prev. eexists.
      split; [exact Hrun |]. by rewrite Hsm.
    + destruct (Hdiff Hne) as (notes & app2 & Hrun & Hnotes & Hhw & Hin & _).
      assert (notes = []) as ->.
      { rewrite Hnotes. unfold changed_inputs. by rewrite map_to_list_empty. }
      exists app2. split; [exact Hrun |].
      split; [by rewrite Hin, (left_id_L ∅ (∪)) | by rewrite Hhw].
Qed.

Lemma scanner_survives_witness :
  ∃ app',
    @scan_round decimal_runtime DEFAULT_CONFIG 5 demo_inputs
      (@App_init DEFAULT_CONFIG 0
         {| faults := replicate 6 true; port := λ _, 255; wire := [] |}
         true true true)
    = (Ok (∅, []), app')
    ∧ faults (i2c (hardware_manager app')) = [].
Proof.
  destruct (proj2 (@scanner_survives_bus_failure decimal_runtime
                     DEFAULT_CONFIG 5
                     (@App_init DEFAULT_CONFIG 0
                        {| faults := replicate 6 true; port := λ _, 255;
                           wire := [] |} true true true) eq_refl)
              demo_inputs [] eq_refl eq_refl eq_refl)
    as (app' & Hrun & _ & Hfaults).
  exists app'. split; [exact Hrun | exact Hfaults].
Defined.

(** X10: with debug logging on (and the log level not above ERROR) the
    error paths themselves raise: process_command never returns an error
    response, a command of unknown type ends in TypeError with nothing
    changed, and a scan round whose first expander read fails three times
    raises, which ends the scanner's loop. *)
Theorem debug_mode_error_paths_raise `{Runtime} `{Config} (now : Z) (app : App) :
  system_debug = true → logger_level ≤ 3 →
  (∀ command response app',
     process_command now command app = (Ok response, app') →
     status_of response ≠ Some (VStr "error"))
  ∧ (∀ command t,
       py_get command "type" = Ok t →
       eq_str t "set_dimmer" = false → eq_str t "toggle_relay" = false →
       eq_str t "get_state" = false →
       process_command now command app
       = (Err (TypeError (fault_text (BadCall "print_exception"))), app))
  ∧ (∀ prev rest,
       is_valid (pcf_inputs_1_8 (hardware_manager app)) = true →
       faults (i2c (hardware_manager app))
       = true :: true :: true :: rest →
       (scan_round now prev app).1
       = Err (TypeError (fault_text (BadCall "print_exception")))).
Proof.
  intros Hd Hlevel. pose proof (log_ERROR_debug Hd Hlevel) as Hlog.
  split; [| split].
  - intros command response app'. unfold process_command, try_except.
    unfold bind at 1. unfold lift at 1.
    destruct (py_get command "type") as [t | e].
    2: { unfold bind, lift. rewrite Hlog. discriminate. }
    destruct (eq_str t "set_dimmer").
    { unfold bind at 1.
      destruct (_handle_dimmer_command now command app) as [[[] | e] app1].
      - unfold ret. intros [= <- _]. unfold status_of, py_item.
        rewrite lookup_insert_eq. discriminate.
      - unfold bind, lift. rewrite Hlog. discriminate. }
    destruct (eq_str t "toggle_relay").
    { unfold bind at 1.
      destruct (_handle_relay_command now command app) as [[[] | e] app1].
      - unfold ret. intros [= <- _]. unfold status_of, py_item.
        rewrite lookup_insert_eq. discriminate.
      - unfold bind, lift. rewrite Hlog. discriminate. }
    destruct (eq_str t "get_state").
    + intros [= <- _]. by rewrite status_of_get_state.
    + unfold raise, bind, lift. rewrite Hlog. discriminate.
  - intros command t Ht H1 H2 H3. unfold process_command, try_except.
    unfold bind at 1. unfold lift at 1. rewrite Ht, H1, H2, H3.
    unfold raise, bind, lift. by rewrite Hlog.
  - intros prev rest Hv Hf. unfold scan_round, try_except.
    unfold bind at 1. unfold on_hardware, zoom, get_input_states, read_inputs.
    unfold bind at 1. rewrite Hv. unfold bind at 1. unfold zoom.
    rewrite (read_all_stuck _ _ rest) by done. rewrite Hlog. by cbn.
Qed.

Lemma debug_mode_witness :
  @process_command decimal_runtime DEBUG_CONFIG 0
    (VDict {[ "type" := VStr "reboot" ]}) demo_app
  = (Err (TypeError (@fault_text decimal_runtime
                       (BadCall "print_exception"))), demo_app).
Proof.
  destruct (@debug_mode_error_paths_raise decimal_runtime DEBUG_CONFIG 0
              demo_app eq_refl) as (_ & Hunknown & _).
  - change (1 ≤ 3). lia.
  - apply (Hunknown _ (VStr "reboot")); reflexivity.
Defined.

(** ** Runs of the properties above *)

Lemma demo_app_relays_agree : relays_agree demo_app.
Proof. split; [done |]. by vm_compute. Qed.

Lemma mqtt_relay_command_witness :
  ∃ current,
    relay_states (state_manager demo_app) !! ("Relay" +:+ pretty 2)
    = Some current
    ∧ let '(r, app') :=
        @_on_mqtt_command decimal_runtime DEFAULT_CONFIG 4
          (@relay_topic DEFAULT_CONFIG 2) (VStr "on") demo_app in
      r = Ok tt
      ∧ states (relay_controller (hardware_manager app'))
        = <["Relay" +:+ pretty 2 := true]>
            (states (relay_controller (hardware_manager demo_app)))
      ∧ relay_states (state_manager app')
        = <["Relay" +:+ pretty 2 := true]>
            (relay_states (state_manager demo_app))
      ∧ relay_pin ("Relay" +:+ pretty 2)
          (relay_controller (hardware_manager app'))
        = Some 1
      ∧ mqtt_out app'
        = (mqtt_out demo_app ++ [@relay_message DEFAULT_CONFIG 2 true])%list
      ∧ i2c (hardware_manager app') = i2c (hardware_manager demo_app)
      ∧ dimmer_levels (state_manager app')
        = dimmer_levels (state_manager demo_app).
Proof.
  exact (@mqtt_relay_command decimal_runtime DEFAULT_CONFIG 4 2 (VStr "on")
           demo_app (or_intror eq_refl) eq_refl demo_app_relays_agree).
Defined.

Lemma mqtt_command_ignored_witness :
  @_on_mqtt_command decimal_runtime DEFAULT_CONFIG 4
    (@dimmer_topic DEFAULT_CONFIG 99) (VStr "ON") demo_app
  = (Ok tt, demo_app).
Proof.
  destruct (@mqtt_command_ignored decimal_runtime DEFAULT_CONFIG 4
              (VStr "ON") demo_app) as (_ & _ & _ & Hdim & _).
  apply Hdim; [lia | reflexivity].
Defined.

Lemma dimmer_command_without_controller_witness :
  ∃ response app',
    @process_command decimal_runtime DEFAULT_CONFIG 4
      (set_dimmer_command 5 40)
      (@App_init DEFAULT_CONFIG 0 stuck_bus true true false)
    = (Ok response, app')
    ∧ status_of response = Some (VStr "success")
    ∧ hardware_manager app'
      = hardware_manager (@App_init DEFAULT_CONFIG 0 stuck_bus true true false)
    ∧ dimmer_levels (state_manager app') !! ("PWM" +:+ pretty 5) = Some 40.
Proof.
  apply (@dimmer_command_without_controller decimal_runtime DEFAULT_CONFIG
           4 5 40 (@App_init DEFAULT_CONFIG 0 stuck_bus true true false));
    [lia | lia | reflexivity].
Defined.

Lemma dimmer_command_bus_failure_witness :
  (let '(r, app') :=
     @process_command decimal_runtime DEFAULT_CONFIG 4
       (set_dimmer_command 5 40) stuck_app in
   state_manager app' = state_manager stuck_app
   ∧ mqtt_out app' = mqtt_out stuck_app
   ∧ wire (i2c (hardware_manager app'))
     = wire (i2c (hardware_manager stuck_app))
   ∧ (@system_debug DEFAULT_CONFIG = false →
      ∃ response, r = Ok response
                  ∧ status_of response = Some (VStr "error")))
  ∧ (let '(r, app') :=
       @_on_mqtt_command decimal_runtime DEFAULT_CONFIG 4
         (@dimmer_topic DEFAULT_CONFIG 5) (VInt 40) stuck_app in
     r = Ok tt
     ∧ state_manager app' = state_manager stuck_app
     ∧ mqtt_out app' = mqtt_out stuck_app
     ∧ wire (i2c (hardware_manager app'))
       = wire (i2c (hardware_manager stuck_app))).
Proof.
  apply (@dimmer_command_bus_failure decimal_runtime DEFAULT_CONFIG
           4 5 40 (VInt 40) stuck_app []);
    [lia | reflexivity | reflexivity | reflexivity].
Defined.

Lemma write_retries_witness :
  @_write decimal_runtime DEFAULT_CONFIG
    {| address := 64; name := "PCA9685_Dimmers"; is_valid := true |} 8 255
    {| faults := [true; true; false; true]; port := λ _, 255; wire := [] |}
  = (Ok tt, {| faults := [true]; port := λ _, 255;
               wire := [(64, [8; 255])] |}).
Proof.
  destruct (@write_retries_three_times decimal_runtime DEFAULT_CONFIG
              {| address := 64; name := "PCA9685_Dimmers"; is_valid := true |}
              8 255
              {| faults := [true; true; false; true]; port := λ _, 255;
                 wire := [] |} eq_refl) as (Hok & _); [lia | lia |].
  apply (Hok 2%nat [true]); [lia | reflexivity].
Defined.

Lemma set_level_clamps_witness :
  ∃ b',
    @set_level decimal_runtime DEFAULT_CONFIG
      {| address := 64; name := "PCA9685_Dimmers"; is_valid := true |} 7 250
      quiet_bus = (Ok tt, b')
    ∧ channel_duty 64 7 (wire b') = Some (pulse_of_level (clamp 250))
    ∧ pulse_of_level (clamp 250) = 4095.
Proof.
  destruct (@set_level_clamps decimal_runtime DEFAULT_CONFIG
              {| address := 64; name := "PCA9685_Dimmers"; is_valid := true |}
              7 250 quiet_bus eq_refl)
    as (b' & Hrun & Hduty & _ & _ & Hfull & _); [lia | constructor |].
  exists b'. split; [exact Hrun |]. split; [exact Hduty | apply Hfull; lia].
Defined.

Lemma scan_twice_witness :
  ∃ notes app1 app2,
    @scan_round decimal_runtime DEFAULT_CONFIG 1 ∅ demo_app
    = (Ok (snapshot_of (hardware_manager demo_app), notes), app1)
    ∧ @scan_round decimal_runtime DEFAULT_CONFIG 2
        (snapshot_of (hardware_manager demo_app)) app1
      = (Ok (snapshot_of (hardware_manager demo_app), []), app2)
    ∧ state_manager app2 = state_manager app1.
Proof.
  destruct (@scan_twice_is_quiet decimal_runtime DEFAULT_CONFIG 1 2 ∅
              demo_app) as (notes & app1 & app2 & H1 & H2 & H3 & _);
    [constructor |].
  exists notes, app1, app2.
  split; [exact H1 |]. split; [exact H2 | exact H3].
Defined.

(** * Properties of the rest of the firmware *)

(** ** Shutdown *)

Lemma register_app_other addr reg (w extra : list (Z * list Z)) :
  Forall (λ m, ∀ v, m ≠ (addr, [reg; v])) extra →
  register addr reg (w ++ extra) = register addr reg w.
Proof.
  intros Hex. unfold register. rewrite omap_app.
  replace (omap _ extra) with (@nil Z); [by rewrite app_nil_r |].
  induction Hex as [| [a l] extra Hm _ IH]; [done |].
  cbn. rewrite <- IH.
  destruct l as [| r [| v [| ? ?]]]; try done.
  case_bool_decide as Heq; [| done].
  destruct Heq as [-> ->]. by destruct (Hm v).
Qed.

Lemma channel_duty_other dev c c' on off (w : list (Z * list Z)) :
  c ≠ c' →
  channel_duty (address dev) c (w ++ pwm_writes dev c' on off)
  = channel_duty (address dev) c w.
Proof.
  intros Hc. unfold channel_duty.
  rewrite !register_app_other; [done | |];
    unfold pwm_writes, written; destruct (is_valid dev); cbn;
    repeat constructor; intros v [=]; lia.
Qed.

Lemma channel_duty_off_all dev c (cs : list Z) (w : list (Z * list Z)) :
  is_valid dev = true → c ∈ cs →
  channel_duty (address dev) c
    (w ++ concat ((λ c', pwm_writes dev c' 0 0) <$> cs))
  = Some 0.
Proof.
  intros Hv. revert c. induction cs as [| c' cs IH] using rev_ind;
    intros c Hin; [by apply elem_of_nil in Hin |].
  rewrite fmap_app, concat_app. cbn. rewrite app_nil_r, app_assoc.
  destruct (decide (c = c')) as [-> | Hne].
  - by apply channel_duty_pwm_writes.
  - rewrite channel_duty_other by done. apply IH.
    apply elem_of_app in Hin as [Hin | Hin]; [done |].
    apply list_elem_of_singleton in Hin. done.
Qed.

Section ShutdownFacts.
Context `{Runtime} `{Config}.

Lemma for_each_set_level_clear dev (cs : list Z) b :
  clear b → Forall (λ c, 0 ≤ c ≤ 15) cs →
  ∃ b', for_each cs (λ channel, set_level dev channel 0) b = (Ok tt, b')
        ∧ clear b'
        ∧ wire b' = (wire b ++ concat ((λ c, pwm_writes dev c 0 0) <$> cs))%list
        ∧ port b' = port b.
Proof.
  intros Hb Hcs. revert b Hb.
  induction Hcs as [| c cs Hc _ IH]; intros b Hb.
  { exists b. cbn. by rewrite app_nil_r. }
  destruct (set_level_clear dev c 0 b Hb Hc) as (b1 & Hrun & Hb1).
  destruct (set_level_spec _ _ _ _ _ Hrun) as (_ & Hw1 & Hp1).
  destruct (IH b1 Hb1) as (b2 & Hrun2 & Hb2 & Hw2 & Hp2).
  exists b2. cbn. unfold bind. rewrite Hrun, Hrun2.
  split; [done |]. split; [done |]. split; [| congruence].
  rewrite Hw2, Hw1. by rewrite <- app_assoc.
Qed.

Lemma all_off_clear dev b :
  clear b →
  ∃ b', PCA9685_all_off dev b = (Ok tt, b')
        ∧ clear b'
        ∧ wire b' = (wire b
                     ++ concat ((λ c, pwm_writes dev c 0 0) <$> seqZ 0 16))%list
        ∧ port b' = port b.
Proof.
  intros Hb. unfold PCA9685_all_off, bind, lift.
  destruct (for_each_set_level_clear dev (seqZ 0 16) b Hb)
    as (b' & -> & Hb' & Hw & Hp).
  { apply Forall_forall. intros c Hc. apply elem_of_seqZ in Hc. lia. }
  rewrite log_INFO. by exists b'.
Qed.

Lemma all_off_stuck dev b rest :
  is_valid dev = true →
  faults b = true :: true :: true :: rest →
  PCA9685_all_off dev b
  = (Err (match _log ERROR with
          | Ok _ => HardwareError (name dev +:+ " operation failed: "
                                   +:+ fault_text BusFault)
          | Err e => e
          end),
     {| faults := rest; port := port b; wire := wire b |}).
Proof.
  intros Hv Hf. unfold PCA9685_all_off, bind.
  change (seqZ 0 16) with (0 :: seqZ 1 15). cbn [for_each]. unfold bind.
  by rewrite (set_level_stuck dev 0 0 b rest) by (done || lia).
Qed.

Lemma relays_all_off rc :
  dom (states rc) = ({[ "Relay1"; "Relay2" ]} : gset string) →
  RelayController_all_off rc
  = (Ok tt, {| relay1 := 0; relay2 := 0;
               states := {[ "Relay1" := false; "Relay2" := false ]} |}).
Proof.
  intros Hdom. unfold RelayController_all_off, bind, lift.
  assert ("Relay1" ∈ dom (states rc)) as H1
    by (rewrite Hdom; apply elem_of_union_l; by apply elem_of_singleton).
  assert ("Relay2" ∈ dom (states rc)) as H2
    by (rewrite Hdom; apply elem_of_union_r; by apply elem_of_singleton).
  rewrite set_relay_run by done.
  rewrite set_relay_run
    by (cbn; rewrite dom_insert_L; by apply elem_of_union_r).
  rewrite log_INFO. f_equal. unfold relay_switched. cbn.
  f_equal. apply map_eq. intros k.
  destruct (decide (k = "Relay2")) as [-> | Hk2]; [by simplify_map_eq |].
  destruct (decide (k = "Relay1")) as [-> | Hk1]; [by simplify_map_eq |].
  simplify_map_eq. apply not_elem_of_dom. rewrite Hdom.
  intros [Hk | Hk]%elem_of_union; by apply elem_of_singleton in Hk.
Qed.
End ShutdownFacts.

(** X11: on a bus without faults, or when the PWM controller was not found
    at start-up, [HardwareManager.shutdown] returns normally and leaves both
    relay pins low with both relays recorded as off; when the controller is
    there, every one of its sixteen channels then holds duty 0. The inputs'
    lines are as before. *)
Theorem shutdown_switches_everything_off `{Runtime} `{Config}
    (hw : HardwareManager) :
  clear (i2c hw) ∨ is_valid (pca9685 hw) = false →
  dom (states (relay_controller hw)) = ({[ "Relay1"; "Relay2" ]} : gset string) →
  ∃ hw',
    HardwareManager_shutdown hw = (Ok tt, hw')
    ∧ relay_controller hw'
      = {| relay1 := 0; relay2 := 0;
           states := {[ "Relay1" := false; "Relay2" := false ]} |}
    ∧ port (i2c hw') = port (i2c hw)
    ∧ (is_valid (pca9685 hw) = true →
       ∀ c, 0 ≤ c ≤ 15 →
            channel_duty (address (pca9685 hw)) c (wire (i2c hw')) = Some 0)
    ∧ (is_valid (pca9685 hw) = false → i2c hw' = i2c hw).
Proof.
  intros Hbus Hdom. unfold HardwareManager_shutdown, bind, lift, try_except.
  rewrite log_INFO.
  destruct (is_valid (pca9685 hw)) eqn:Hv.
  - destruct Hbus as [Hb | ?]; [| done]. unfold zoom at 1.
    destruct (all_off_clear (pca9685 hw) (i2c hw) Hb)
      as (b' & -> & _ & Hw & Hp).
    unfold zoom. cbn. rewrite relays_all_off by done.
    eexists. split; [done |]. cbn. split; [done |]. split; [done |].
    split; [| done]. intros _ c Hc. rewrite Hw.
    apply channel_duty_off_all; [done |]. apply elem_of_seqZ. lia.
  - unfold ret, zoom. cbn. rewrite relays_all_off by done.
    eexists. split; [done |]. cbn. by destruct hw.
Qed.

(** X12: when the PWM controller is there and the first three transfers on
    the bus fail, [HardwareManager.shutdown] gives up in [all_off] and never
    reaches the relays: with debug logging off it returns normally, and the
    relay pins and the recorded relay states are exactly as before, a relay
    that was on stays on. Nothing was written to the controller. *)
Theorem shutdown_skips_relays_on_bus_failure `{Runtime} `{Config}
    (hw : HardwareManager) (rest : list bool) :
  system_debug = false →
  is_valid (pca9685 hw) = true →
  faults (i2c hw) = true :: true :: true :: rest →
  ∃ hw',
    HardwareManager_shutdown hw = (Ok tt, hw')
    ∧ relay_controller hw' = relay_controller hw
    ∧ wire (i2c hw') = wire (i2c hw)
    ∧ faults (i2c hw') = rest.
Proof.
  intros Hd Hv Hf. unfold HardwareManager_shutdown, bind, lift, try_except.
  rewrite log_INFO, Hv. unfold zoom.
  rewrite (all_off_stuck _ _ rest) by done.
  rewrite !log_no_debug by done. by eexists.
Qed.

(** ** Single pins *)

Section PinFacts.
Context `{Runtime} `{Config}.

Lemma read_pin_spec dev pin b :
  0 ≤ pin ≤ 7 →
  match read_pin dev pin b with
  | (Ok (Some v), b') =>
      v = Z.testbit (port b (address dev)) pin ∧ same_lines b b'
  | (_, b') => same_lines b b'
  end.
Proof.
  intros Hpin. unfold read_pin.
  assert (between 0 pin 7 = true) as -> by by apply between_spec.
  cbn [negb]. unfold bind, ret.
  pose proof (read_all_spec dev b) as Hr.
  destruct (read_all dev b) as [[[d |] | e] b1]; [| done | done].
  destruct Hr as [-> Hl]. split; [| done]. apply mask_is_testbit. lia.
Qed.

Lemma read_pin_clear dev pin b :
  0 ≤ pin ≤ 7 → clear b → is_valid dev = true →
  ∃ b', read_pin dev pin b
        = (Ok (Some (Z.testbit (port b (address dev)) pin)), b')
        ∧ same_lines b b'.
Proof.
  intros Hpin Hb Hv. unfold read_pin.
  assert (between 0 pin 7 = true) as -> by by apply between_spec.
  cbn [negb]. unfold bind, ret.
  destruct (read_all_clear dev b Hb Hv) as (b' & -> & _ & Hl).
  exists b'. split; [| done]. by rewrite mask_is_testbit by lia.
Qed.

Lemma snapshot_of_present hw n :
  1 ≤ n ≤ 16 →
  is_valid (pcf_inputs_1_8 hw) = true →
  is_valid (pcf_inputs_9_16 hw) = true →
  snapshot_of hw !! ("X" +:+ fmt_02d n) = Some (negb (input_bit hw n)).
Proof.
  intros Hn Hv1 Hv2. unfold snapshot_of, expander_byte. rewrite Hv1, Hv2.
  rewrite fill_read_present by done.
  unfold input_bit, input_expander. by destruct (n <=? 8).
Qed.
End PinFacts.

(** X13: [PCF8574.read_pin] reports the level of the line itself, while
    the scan reports its inversion. A pin number outside 0..7 is refused
    with ValueError before the bus is touched; a pin that is read is bit
    [pin] of the byte the expander presents; and on a bus without faults,
    with both expanders found, reading the pin of input line n gives its
    physical bit whereas [get_input_states] stores the negation of that bit
    under the line's name. *)
Theorem read_pin_is_not_inverted `{Runtime} `{Config}
    (dev : I2CDevice) (pin : Z) (b : I2C) :
  (¬ (0 ≤ pin ≤ 7) →
   read_pin dev pin b
   = (Err (ValueError "Pin number must be between 0 and 7"), b))
  ∧ (0 ≤ pin ≤ 7 →
     ∀ v b', read_pin dev pin b = (Ok (Some v), b') →
             v = Z.testbit (port b (address dev)) pin
             ∧ wire b' = wire b)
  ∧ (∀ hw n,
       1 ≤ n ≤ 16 → clear (i2c hw) →
       is_valid (pcf_inputs_1_8 hw) = true →
       is_valid (pcf_inputs_9_16 hw) = true →
       ∃ b' current hw',
         read_pin (input_expander hw n) ((n - 1) mod 8) (i2c hw)
         = (Ok (Some (input_bit hw n)), b')
         ∧ get_input_states hw = (Ok current, hw')
         ∧ current !! ("X" +:+ fmt_02d n) = Some (negb (input_bit hw n))).
Proof.
  split; [| split].
  - intros Hpin. unfold read_pin. apply between_false in Hpin.
    by rewrite Hpin.
  - intros Hpin v b' Hrun. pose proof (read_pin_spec dev pin b Hpin) as Hs.
    rewrite Hrun in Hs. destruct Hs as [-> [Hw _]]. done.
  - intros hw n Hn Hb Hv1 Hv2.
    assert (is_valid (input_expander hw n) = true) as Hv.
    { unfold input_expander. by destruct (n <=? 8). }
    destruct (read_pin_clear (input_expander hw n) ((n - 1) mod 8) (i2c hw))
      as (b' & Hrun & _);
      [pose proof (Z.mod_pos_bound (n - 1) 8); lia | done | done |].
    destruct (get_input_states_clear hw Hb) as (hw' & Hscan & _).
    exists b', (snapshot_of hw), hw'. split; [exact Hrun |].
    split; [exact Hscan |]. by apply snapshot_of_present.
Qed.

(** ** Relay reports and relay pins *)

Lemma pins_match_dom rc :
  pins_match rc → dom (states rc) = ({[ "Relay1"; "Relay2" ]} : gset string).
Proof.
  intros (s1 & s2 & -> & _).
  by rewrite dom_insert_L, dom_singleton_L.
Qed.

Lemma pins_match_switched name state rc :
  pins_match rc → name ∈ dom (states rc) →
  pins_match (relay_switched name state rc).
Proof.
  intros Hm Hin. rewrite (pins_match_dom rc Hm) in Hin.
  destruct Hm as (s1 & s2 & Hs & Hp1 & Hp2).
  apply elem_of_union in Hin as [Hin | Hin];
    apply elem_of_singleton in Hin; subst name; unfold relay_switched; cbn.
  - exists state, s2. rewrite Hs. split; [| done].
    by rewrite insert_insert_eq.
  - exists s1, state. rewrite Hs. split; [| done].
    apply map_eq. intros k.
    destruct (decide (k = "Relay2")) as [-> | Hk2]; [by simplify_map_eq |].
    destruct (decide (k = "Relay1")) as [-> | Hk1]; by simplify_map_eq.
Qed.

Section RelayPins.
Context `{Runtime} `{Config}.

Lemma get_relay_states_run hw :
  pins_match (relay_controller hw) →
  get_relay_states hw = (Ok (states (relay_controller hw)), hw).
Proof.
  intros (s1 & s2 & Hs & _). unfold get_relay_states, zoom, bind,
    RelayController_get_state, ret.
  rewrite Hs. rewrite lookup_insert_eq. rewrite Hs.
  rewrite lookup_insert_ne by done. rewrite lookup_singleton_eq.
  cbn. by destruct hw.
Qed.

Lemma follow_on_pca9685 {A} (m : I2CDevice → M I2C A) :
  keeps relays_follow (on_pca9685 m).
Proof.
  intros app Happ. unfold on_pca9685, on_hardware, zoom, relays_follow.
  cbn. by destruct (m _ _).
Qed.

Lemma follow_get_input_states :
  keeps relays_follow (on_hardware get_input_states).
Proof.
  intros app Happ. unfold on_hardware, zoom, relays_follow.
  pose proof (get_input_states_relays (hardware_manager app)) as Hrc.
  destruct (get_input_states (hardware_manager app)) as [r hw1].
  cbn in *. by rewrite Hrc.
Qed.

Lemma follow_on_state {A} (m : M StateManager A) :
  keeps relays_follow (on_state m).
Proof.
  intros app Happ. unfold on_state, zoom, relays_follow.
  by destruct (m _).
Qed.

Lemma follow_publish_dimmer_state idx level :
  keeps relays_follow (publish_dimmer_state idx level).
Proof. by intros app Happ. Qed.

Lemma follow_publish_relay_state idx on :
  keeps relays_follow (publish_relay_state idx on).
Proof. by intros app Happ. Qed.

Lemma follow_set_relay name state :
  keeps relays_follow (on_relays (set_relay name state)).
Proof.
  intros app Happ. unfold on_relays, on_hardware, zoom.
  destruct (decide (name ∈ dom (states (relay_controller
                                          (hardware_manager app)))))
    as [Hin | Hin].
  - rewrite set_relay_run by done. by apply pins_match_switched.
  - destruct (set_relay_unknown name state _ Hin) as [e ->].
    unfold relays_follow. cbn. exact Happ.
Qed.

Lemma follow_toggle_relay name :
  keeps relays_follow (on_relays (toggle_relay name)).
Proof.
  intros app Happ. unfold on_relays, on_hardware, zoom.
  destruct (states (relay_controller (hardware_manager app)) !! name)
    as [s |] eqn:Hs.
  - rewrite (toggle_relay_run _ _ _ Hs). apply pins_match_switched; [done |].
    apply elem_of_dom. by eexists.
  - destruct (toggle_relay_unknown name _ Hs) as [e ->].
    unfold relays_follow. cbn. exact Happ.
Qed.

Ltac follow_step :=
  first
    [ apply keeps_ret | apply keeps_raise | apply keeps_lift
    | apply keeps_read | apply follow_on_pca9685
    | apply follow_get_input_states | apply follow_on_state
    | apply follow_publish_dimmer_state | apply follow_publish_relay_state
    | apply follow_toggle_relay | apply follow_set_relay
    | apply keeps_try_except; [| intros ?]
    | apply keeps_bind; [| intros ?]
    | match goal with
      | |- keeps _ (if ?b then _ else _) => destruct b
      | |- keeps _ (match ?x with _ => _ end) => destruct x
      end ].

Lemma follow_process_command now command :
  keeps relays_follow (process_command now command).
Proof.
  unfold process_command, _handle_dimmer_command, _handle_relay_command.
  repeat follow_step.
Qed.

Lemma follow_scan_round now prev_inputs :
  keeps relays_follow (scan_round now prev_inputs).
Proof. unfold scan_round. repeat follow_step. Qed.

Lemma follow_on_mqtt_command now topic payload :
  keeps relays_follow (_on_mqtt_command now topic payload).
Proof.
  unfold _on_mqtt_command.
  apply keeps_try_except; [| intros ?; apply keeps_lift].
  destruct (_ && _).
  { repeat follow_step. }
  destruct (_ && _); [| apply keeps_ret].
  apply keeps_bind; [apply keeps_lift |]. intros idx app Happ.
  destruct (relay_states (state_manager app) !! _); [| done].
  revert app Happ. repeat follow_step.
Qed.

Lemma reachable_follow now bus v1 v2 v3 app :
  reachable (App_init now bus v1 v2 v3) app → relays_follow app.
Proof.
  induction 1 as [| app now' command _ IH | app now' topic payload _ IH
                  | app now' prev _ IH].
  - exists false, false. done.
  - by apply follow_process_command.
  - by apply follow_on_mqtt_command.
  - by apply follow_scan_round.
Qed.
End RelayPins.

(** X14: what the relay controller reports is what its pins carry. In
    every state the application reaches from start-up by direct commands,
    MQTT commands and scanner rounds, [HardwareManager.get_relay_states]
    returns, without raising and without changing anything, a state for
    exactly Relay1 and Relay2, and each relay's pin is high exactly when its
    reported state is on. *)
Theorem relay_report_matches_pins `{Runtime} `{Config}
    (now : Z) (bus : I2C) (v1 v2 v3 : bool) (app : App) :
  reachable (App_init now bus v1 v2 v3) app →
  ∃ s1 s2,
    get_relay_states (hardware_manager app)
    = (Ok {[ "Relay1" := s1; "Relay2" := s2 ]}, hardware_manager app)
    ∧ relay1 (relay_controller (hardware_manager app)) = pin_level s1
    ∧ relay2 (relay_controller (hardware_manager app)) = pin_level s2.
Proof.
  intros Hreach. pose proof (reachable_follow _ _ _ _ _ _ Hreach) as Hm.
  pose proof (get_relay_states_run _ Hm) as Hrun.
  destruct Hm as (s1 & s2 & Hs & Hp1 & Hp2).
  exists s1, s2. by rewrite Hrun, Hs.
Qed.

(** ** Levels in the state mirror *)

Lemma levels_in_range_init now : levels_in_range (StateManager_init now).
Proof.
  split; [| split]; cbn.
  - intros key l Hl. apply pwm_table_lookup in Hl. lia.
  - intros key l Hl. apply pwm_table_lookup in Hl. lia.
  - intros c Hc. rewrite !pwm_table_channel by done. by split.
Qed.

Lemma levels_in_range_step sm sm' :
  sm_step sm sm' → levels_in_range sm → levels_in_range sm'.
Proof.
  intros [-> | [(now & name & level & Hl & ->) | [(now & name & s & ->)
                                                  | (now & inputs & ->)]]];
    try done.
  intros (Hd & Hn & Hc). split; [| split]; cbn.
  - intros key l. destruct (decide (key = name)) as [-> | Hne].
    + rewrite lookup_insert_eq. intros [= <-]. done.
    + rewrite lookup_insert_ne by done. apply Hd.
  - intros key l. destruct (0 <? level) eqn:Hpos; [| apply Hn].
    apply Z.ltb_lt in Hpos.
    destruct (decide (key = name)) as [-> | Hne].
    + rewrite lookup_insert_eq. intros [= <-]. lia.
    + rewrite lookup_insert_ne by done. apply Hn.
  - intros c Hcr. destruct (Hc c Hcr) as [H1 H2]. split.
    + destruct (decide ("PWM" +:+ pretty c = name)) as [<- | Hne].
      * rewrite lookup_insert_eq. by eexists.
      * by rewrite lookup_insert_ne.
    + destruct (0 <? level); [| done].
      destruct (decide ("PWM" +:+ pretty c = name)) as [<- | Hne].
      * rewrite lookup_insert_eq. by eexists.
      * by rewrite lookup_insert_ne.
Qed.

Lemma reachable_levels_in_range `{Runtime} `{Config}
    (now : Z) (bus : I2C) (v1 v2 v3 : bool) (app : App) :
  reachable (App_init now bus v1 v2 v3) app →
  levels_in_range (state_manager app).
Proof.
  induction 1 as [| app now' command _ IH | app now' topic payload _ IH
                  | app now' prev _ IH].
  - apply levels_in_range_init.
  - exact (levels_in_range_step _ _ (steps_process_command _ _ app) IH).
  - exact (levels_in_range_step _ _ (steps_on_mqtt_command _ _ _ app) IH).
  - exact (levels_in_range_step _ _ (steps_scan_round _ _ app) IH).
Qed.

(** X15: the levels of the state mirror stay in range. In every state the
    application reaches from start-up by direct commands, MQTT commands and
    scanner rounds, every dimmer level stored in the mirror lies in 0..100,
    every remembered last non-zero level lies in 1..100, and each of the
    channels PWM0..PWM15 has both a level and a remembered level. *)
Theorem mirror_levels_stay_in_range `{Runtime} `{Config}
    (now : Z) (bus : I2C) (v1 v2 v3 : bool) (app : App) :
  reachable (App_init now bus v1 v2 v3) app →
  (∀ key l, dimmer_levels (state_manager app) !! key = Some l → 0 ≤ l ≤ 100)
  ∧ (∀ key l, last_non_zero_levels (state_manager app) !! key = Some l →
              1 ≤ l ≤ 100)
  ∧ (∀ c, 0 ≤ c ≤ 15 →
          is_Some (dimmer_levels (state_manager app) !! ("PWM" +:+ pretty c))
          ∧ is_Some (last_non_zero_levels (state_manager app)
                       !! ("PWM" +:+ pretty c))).
Proof. apply reachable_levels_in_range. Qed.

(** ** The state broadcast *)

Lemma published_nil app : published [] app = app.
Proof. unfold published. rewrite app_nil_r. by destruct app. Qed.

Lemma published_app l1 l2 app :
  published l2 (published l1 app) = published (l1 ++ l2) app.
Proof. unfold published. cbn. by rewrite app_assoc. Qed.

Lemma for_each_published {X} (xs : list X) (f : X → option (string * pyval))
    (body : X → M App unit) app :
  (∀ x app, body x app = (Ok tt, published (option_list (f x)) app)) →
  for_each xs body app = (Ok tt, published (omap f xs) app).
Proof.
  intros Hbody. revert app. induction xs as [| x xs IH]; intros app.
  { cbn. by rewrite published_nil. }
  cbn. unfold bind. rewrite Hbody, IH, published_app.
  by destruct (f x).
Qed.

Lemma omap_all_present {X Y} (f : X → option Y) (g : X → Y) (xs : list X) :
  (∀ x, x ∈ xs → f x = Some (g x)) → omap f xs = g <$> xs.
Proof.
  induction xs as [| x xs IH]; intros Hf; [done |].
  cbn. rewrite (Hf x) by apply list_elem_of_here. f_equal.
  apply IH. intros y Hy. apply Hf. by apply list_elem_of_further.
Qed.

Section Broadcast.
Context `{Runtime} `{Config}.

(** A broadcast hands over, in this order, the level of each channel
    PWM0..PWM15 the mirror holds, the state of Relay1 and Relay2, and the
    inputs it knows; it changes nothing else. *)
Lemma broadcast_run app :
  _broadcast_state true app
  = (Ok tt,
     published
       (omap (λ i, dimmer_message i
                     <$> dimmer_levels (state_manager app)
                           !! ("PWM" +:+ pretty i)) (seqZ 0 16)
        ++ omap (λ i, relay_message i
                        <$> relay_states (state_manager app)
                              !! ("Relay" +:+ pretty i)) (seqZ 1 2)
        ++ input_messages (state_manager app))
       app).
Proof.
  unfold _broadcast_state, try_except, bind.
  rewrite (for_each_published _
             (λ i, dimmer_message i
                     <$> dimmer_levels (state_manager app)
                           !! ("PWM" +:+ pretty i)));
    [| intros i a; destruct (_ !! _); [done |];
       unfold ret; by rewrite published_nil].
  rewrite (for_each_published _
             (λ i, relay_message i
                     <$> relay_states (state_manager app)
                           !! ("Relay" +:+ pretty i)));
    [| intros i a; destruct (_ !! _); [done |];
       unfold ret; by rewrite published_nil].
  rewrite (for_each_published _
             (λ i, input_message i
                     <$> input_states (state_manager app)
                           !! ("X" +:+ fmt_02d i)));
    [| intros i a; destruct (_ !! _); [done |];
       unfold ret; by rewrite published_nil].
  rewrite !published_app. unfold input_messages.
  first [done | by rewrite <- app_assoc | by rewrite app_assoc].
Qed.

Lemma reachable_relays_agree now bus v1 v2 v3 app :
  reachable (App_init now bus v1 v2 v3) app → relays_agree app.
Proof.
  induction 1 as [| app now' command _ IH | app now' topic payload _ IH
                  | app now' prev _ IH].
  - split; [done |]. cbn. by rewrite dom_insert_L, dom_singleton_L.
  - by apply keeps_process_command.
  - by apply keeps_on_mqtt_command.
  - by apply keeps_scan_round.
Qed.
End Broadcast.

(** X16: the periodic broadcast publishes the state mirror, and what it
    says about the relays is what the pins carry. In every state the
    application reaches from start-up, [_broadcast_state] returns normally
    and changes nothing but the messages handed over: none when MQTT is not
    connected; when it is, one state message for each of the dimmers 0..15,
    in order, each with a brightness in 0..100 that is the mirror's level of
    PWM<i>, then the states of relay 1 and relay 2, each the level of the
    relay's pin, then one message for each input the mirror knows. *)
Theorem broadcast_publishes_the_mirror `{Runtime} `{Config}
    (now : Z) (bus : I2C) (v1 v2 v3 : bool) (app : App) :
  reachable (App_init now bus v1 v2 v3) app →
  _broadcast_state false app = (Ok tt, app)
  ∧ ∃ (level : Z → Z) (s1 s2 : bool),
      _broadcast_state true app
      = (Ok tt,
         published (((λ i, dimmer_message i (level i)) <$> seqZ 0 16)
                    ++ [relay_message 1 s1; relay_message 2 s2]
                    ++ input_messages (state_manager app)) app)
      ∧ (∀ i, 0 ≤ i ≤ 15 →
              dimmer_levels (state_manager app) !! ("PWM" +:+ pretty i)
              = Some (level i)
              ∧ 0 ≤ level i ≤ 100)
      ∧ relay1 (relay_controller (hardware_manager app)) = pin_level s1
      ∧ relay2 (relay_controller (hardware_manager app)) = pin_level s2.
Proof.
  intros Hreach. split; [done |].
  destruct (reachable_levels_in_range _ _ _ _ _ _ Hreach) as (Hd & _ & Hc).
  destruct (reachable_relays_agree _ _ _ _ _ _ Hreach) as [Heq _].
  destruct (reachable_follow _ _ _ _ _ _ Hreach) as (s1 & s2 & Hs & Hp1 & Hp2).
  exists (λ i, default 0 (dimmer_levels (state_manager app)
                            !! ("PWM" +:+ pretty i))), s1, s2.
  assert (∀ i, 0 ≤ i ≤ 15 →
            dimmer_levels (state_manager app) !! ("PWM" +:+ pretty i)
            = Some (default 0 (dimmer_levels (state_manager app)
                                 !! ("PWM" +:+ pretty i)))) as Hlev.
  { intros i Hi. destruct (Hc i Hi) as [[l Hl] _]. by rewrite Hl. }
  split; [| split; [| done]].
  - rewrite broadcast_run.
    rewrite (omap_all_present _
               (λ i, dimmer_message i
                       (default 0 (dimmer_levels (state_manager app)
                                     !! ("PWM" +:+ pretty i)))))
      by (intros i Hi; apply elem_of_seqZ in Hi; by rewrite Hlev by lia).
    by rewrite <- Heq, Hs.
  - intros i Hi. split; [by apply Hlev |].
    apply (Hd ("PWM" +:+ pretty i)). by apply Hlev.
Qed.

(** ** Home Assistant discovery *)






Section Discovery.
Context `{Runtime} `{Config}.




End Discovery.

Section DiscoveryFacts.
Context `{Runtime} `{Config}.



End DiscoveryFacts.


(** ** Settings by dotted path *)

Lemma split_cons (s : string) (sep : ascii) :
  ∃ piece pieces, split s sep = piece :: pieces.
Proof. unfold split. destruct (split_go sep s). by eexists _, _. Qed.

Lemma config_walk_app dicts (v : object) (ks ks' : list string) :
  config_walk dicts v (ks ++ ks')
  = match config_walk dicts v ks with
    | Some v' => config_walk dicts v' ks'
    | None => None
    end.
Proof.
  revert v. induction ks as [| k ks IH]; intros v; [done |].
  cbn [app config_walk]. destruct v; try done.
  destruct (dicts !! l) as [d |]; [| done].
  destruct (d !! k) as [v |]; [| done]. apply IH.
Qed.

Lemma config_walk_plain dicts (v : object) (key : string)
    (rest : list string) :
  ¬ is_dict v → config_walk dicts v (key :: rest) = None.
Proof. intros Hv. destruct v; try done. destruct Hv. by eexists. Qed.

(** The walk of a path that avoids the entry that was changed is the walk
    it was. *)
Lemma config_walk_same_but dicts dicts' (l : positive) (key : string)
    (config : positive) (keys : list string) :
  closed dicts → config ∈ dom dicts →
  same_but l key dicts dicts' →
  avoids dicts config keys l key →
  config_walk dicts' (ODict config) keys
  = config_walk dicts (ODict config) keys.
Proof.
  intros Hclosed Hin Hsame. revert config Hin.
  induction keys as [| k rest IH]; intros config Hin Havoid; [done |].
  apply elem_of_dom in Hin as [d Hd].
  destruct (Hsame _ _ Hd) as (d' & Hd' & Hkeys).
  cbn [config_walk]. rewrite Hd, Hd'.
  rewrite Hkeys.
  2: { intros [= -> ->]. by apply (Havoid [] key rest). }
  destruct (d !! k) as [v |] eqn:Hk; [| done].
  destruct v as [| | | | | l1];
    try (destruct rest; [done | by cbn]).
  apply IH; [by eapply Hclosed |].
  intros ks k' ks' -> [Hw ->].
  apply (Havoid (k :: ks) key ks'); [done |].
  split; [| done]. cbn [config_walk]. by rewrite Hd, Hk.
Qed.

Section SettingsFacts.
Context `{Runtime}.

Lemma config_store_last key value l d dicts :
  dicts !! l = Some d →
  config_store [key] value (ODict l) dicts
  = (Ok tt, <[l := <[key := value]> d]> dicts).
Proof. intros Hd. cbn. by rewrite Hd. Qed.

Lemma config_store_unfold key key' rest value l d dicts :
  dicts !! l = Some d →
  config_store (key :: key' :: rest) value (ODict l) dicts
  = match d !! key with
    | Some v => config_store (key' :: rest) value v dicts
    | None =>
        let l' := fresh (dom dicts) in
        config_store (key' :: rest) value (ODict l')
          (<[l := <[key := ODict l']> d]> (<[l' := ∅]> dicts))
    end.
Proof. intros Hd. cbn [config_store]. by rewrite Hd. Qed.

Lemma config_store_plain keys value v dicts :
  keys ≠ [] → ¬ is_dict v →
  config_store keys value v dicts
  = (Err (TypeError (fault_text (BadCall "item"))), dicts).
Proof.
  intros Hne Hv. destruct keys as [| key [| key' rest]]; [done | |];
    (destruct v; try done; destruct Hv; by eexists).
Qed.

(** From a new, empty dictionary [Config.set] lays the rest of the path
    without fail. *)
Lemma config_store_new keys value l dicts :
  keys ≠ [] → dicts !! l = Some ∅ →
  ∃ dicts', config_store keys value (ODict l) dicts = (Ok tt, dicts').
Proof.
  revert l dicts. induction keys as [| key [| key' rest] IH];
    intros l dicts Hne Hnew; [done | |].
  - rewrite (config_store_last _ _ _ _ _ Hnew). by eexists.
  - rewrite (config_store_unfold _ _ _ _ _ _ _ Hnew).
    rewrite lookup_empty. cbv zeta. apply IH; [done |].
    rewrite lookup_insert_ne.
    + by rewrite lookup_insert_eq.
    + intros Heq. apply (is_fresh (dom dicts)). rewrite <- Heq.
      apply elem_of_dom. by eexists.
Qed.

(** What [Config.set] does from a dictionary of a closed store. *)
Lemma config_store_spec keys value config dicts :
  keys ≠ [] → closed dicts → config ∈ dom dicts →
  (∀ l, value = ODict l → l ∈ dom dicts) →
  (∃ dicts' l key ks ks',
     config_store keys value (ODict config) dicts = (Ok tt, dicts')
     ∧ keys = (ks ++ key :: ks')%list
     ∧ config_walk dicts (ODict config) ks = Some (ODict l)
     ∧ (ks' = [] ∨ ∃ d, dicts !! l = Some d ∧ d !! key = None)
     ∧ same_but l key dicts dicts'
     ∧ closed dicts'
     ∧ l ∈ dom dicts
     ∧ config_walk dicts' (ODict l) (key :: ks') = Some value)
  ∨ config_store keys value (ODict config) dicts
    = (Err (TypeError (fault_text (BadCall "item"))), dicts).
Proof.
  revert config dicts.
  induction keys as [| key [| key' rest] IH];
    intros config dicts Hne Hclosed Hin Hvalue; [done | |].
  - (* the last key: the assignment *)
    left. apply elem_of_dom in Hin as Hd. destruct Hd as [d Hd].
    exists (<[config := <[key := value]> d]> dicts), config, key, [], [].
    split; [by apply config_store_last |].
    split; [done |]. split; [done |]. split; [by left |].
    split; [| split; [| split; [done |]]].
    + intros l' d0 Hd0. destruct (decide (l' = config)) as [-> | Hl].
      * rewrite lookup_insert_eq. eexists. split; [done |].
        intros key' Hk. rewrite Hd in Hd0. injection Hd0 as <-.
        rewrite lookup_insert_ne; [done |]. intros <-. by apply Hk.
      * rewrite lookup_insert_ne by done. by exists d0.
    + intros l' d0 k l1 Hd0 Hk. rewrite dom_insert_L.
      apply elem_of_union_r.
      destruct (decide (l' = config)) as [-> | Hl].
      * rewrite lookup_insert_eq in Hd0. injection Hd0 as <-.
        destruct (decide (k = key)) as [-> | Hkey].
        -- rewrite lookup_insert_eq in Hk. injection Hk as ->.
           by apply Hvalue.
        -- rewrite lookup_insert_ne in Hk by done. by eapply Hclosed.
      * rewrite lookup_insert_ne in Hd0 by done. by eapply Hclosed.
    + cbn [config_walk]. by rewrite !lookup_insert_eq.
  - (* a key before the last *)
    apply elem_of_dom in Hin as Hd. destruct Hd as [d Hd].
    rewrite (config_store_unfold _ _ _ _ _ _ _ Hd).
    destruct (d !! key) as [v |] eqn:Hk.
    + (* the key is there *)
      destruct v as [| | | | | l1];
        try (right; by apply config_store_plain; [| intros [l0 [=]]]).
      destruct (IH l1 dicts ltac:(done) Hclosed
                  ltac:(by eapply Hclosed) Hvalue)
        as [(dicts' & l & k & ks & ks' & Hrun & Hkeys & Hwalk & Hlast
             & Hsame & Hclosed' & Hl & Htail) | Herr];
        [left | by right].
      exists dicts', l, k, (key :: ks), ks'.
      split; [done |]. split; [by rewrite Hkeys |].
      split; [cbn [config_walk]; by rewrite Hd, Hk |]. done.
    + (* the key is missing: a new dictionary *)
      cbv zeta. set (l' := fresh (dom dicts)).
      assert (l' ∉ dom dicts) as Hfresh by apply is_fresh.
      assert (l' ≠ config) as Hneq.
      { intros Heq. apply Hfresh. rewrite Heq. apply elem_of_dom.
        by eexists. }
      set (dicts1 := <[config := <[key := ODict l']> d]> (<[l' := ∅]> dicts)).
      assert (closed dicts1) as Hclosed1.
      { intros l0 d0 k l1 Hd0 Hk0. unfold dicts1.
        rewrite !dom_insert_L.
        destruct (decide (l0 = config)) as [-> | Hl0].
        - unfold dicts1 in Hd0. rewrite lookup_insert_eq in Hd0.
          injection Hd0 as <-.
          destruct (decide (k = key)) as [-> | Hkey].
          + rewrite lookup_insert_eq in Hk0. injection Hk0 as <-.
            apply elem_of_union_r, elem_of_union_l.
            by apply elem_of_singleton.
          + rewrite lookup_insert_ne in Hk0 by done.
            do 2 apply elem_of_union_r. by eapply Hclosed.
        - unfold dicts1 in Hd0. rewrite lookup_insert_ne in Hd0 by done.
          destruct (decide (l0 = l')) as [-> | Hl0'].
          + rewrite lookup_insert_eq in Hd0. injection Hd0 as <-.
            by rewrite lookup_empty in Hk0.
          + rewrite lookup_insert_ne in Hd0 by done.
            do 2 apply elem_of_union_r. by eapply Hclosed. }
      assert (l' ∈ dom dicts1) as Hin1.
      { unfold dicts1. rewrite !dom_insert_L.
        apply elem_of_union_r, elem_of_union_l. by apply elem_of_singleton. }
      assert (∀ l, value = ODict l → l ∈ dom dicts1) as Hvalue1.
      { intros l Hl. unfold dicts1. rewrite !dom_insert_L.
        do 2 apply elem_of_union_r. by apply Hvalue. }
      assert (dicts1 !! l' = Some ∅) as Hnew.
      { unfold dicts1. rewrite lookup_insert_ne by done.
        by rewrite lookup_insert_eq. }
      destruct (IH l' dicts1 ltac:(done) Hclosed1 Hin1 Hvalue1)
        as [(dicts' & l & k & ks & ks' & Hrun & Hkeys & Hwalk & Hlast
             & Hsame & Hclosed' & Hl & Htail) | Herr].
      2: { destruct (config_store_new (key' :: rest) value l' dicts1
                       ltac:(done) Hnew) as [dicts' Hrun].
           rewrite Hrun in Herr. discriminate Herr. }
      (* the new dictionary is empty: the entry changed next is its own *)
      assert (ks = [] ∧ l = l') as [-> ->].
      { destruct ks as [| k0 ks].
        - cbn in Hwalk. by injection Hwalk as <-.
        - cbn [config_walk] in Hwalk. rewrite Hnew, lookup_empty in Hwalk.
          discriminate Hwalk. }
      cbn [app] in Hkeys. injection Hkeys as <- <-.
      left. exists dicts', config, key, [], (key' :: rest).
      split; [done |]. split; [done |]. split; [done |].
      split; [right; by exists d |].
      assert (dicts1 !! config = Some (<[key := ODict l']> d)) as Hd1.
      { unfold dicts1. by rewrite lookup_insert_eq. }
      destruct (Hsame _ _ Hd1) as (dc & Hdc & Hdc_keys).
      split; [| split; [done | split; [apply elem_of_dom; by eexists |]]].
      * intros l0 d0 Hd0. destruct (decide (l0 = config)) as [-> | Hl0].
        -- exists dc. split; [done |]. intros k' Hk'.
           rewrite Hdc_keys by (intros [= Heq _]; by apply Hneq).
           rewrite Hd in Hd0. injection Hd0 as <-.
           rewrite lookup_insert_ne; [done |]. intros <-. by apply Hk'.
        -- assert (l0 ≠ l') as Hl0'.
           { intros ->. apply Hfresh. apply elem_of_dom. by eexists. }
           assert (dicts1 !! l0 = Some d0) as Hd01.
           { unfold dicts1. by rewrite !lookup_insert_ne by done. }
           destruct (Hsame _ _ Hd01) as (d' & Hd' & Hd'_keys).
           exists d'. split; [done |]. intros k' _.
           apply Hd'_keys. intros [= Heq _]. by apply Hl0'.
      * cbn [config_walk]. rewrite Hdc.
        rewrite Hdc_keys by (intros [= Heq _]; by apply Hneq).
        rewrite lookup_insert_eq. exact Htail.
Qed.

(** [Config.set] goes through exactly when no part of the path before its
    last key leads to a value that is no dictionary. *)
Lemma config_store_succeeds keys value config dicts :
  keys ≠ [] → closed dicts → config ∈ dom dicts →
  (∃ dicts', config_store keys value (ODict config) dicts = (Ok tt, dicts'))
  ↔ (∀ ks k ks' v, keys = (ks ++ k :: ks')%list →
                   config_walk dicts (ODict config) ks = Some v → is_dict v).
Proof.
  revert config.
  induction keys as [| key [| key' rest] IH];
    intros config Hne Hclosed Hin; [done | |].
  - apply elem_of_dom in Hin as [d Hd]. split.
    + intros _ ks k ks' v Heq Hw.
      destruct ks as [| k0 [| k1 ks]]; [| by simplify_eq..].
      cbn in Hw. injection Hw as <-. by eexists.
    + intros _. rewrite (config_store_last _ _ _ _ _ Hd). by eexists.
  - apply elem_of_dom in Hin as Hd. destruct Hd as [d Hd].
    rewrite (config_store_unfold _ _ _ _ _ _ _ Hd).
    destruct (d !! key) as [v |] eqn:Hk.
    + assert (is_dict v ∨ ¬ is_dict v) as [[l1 ->] | Hplain].
      { destruct v; try (right; by intros [l0 [=]]). left. by eexists. }
      * rewrite (IH l1 ltac:(done) Hclosed ltac:(by eapply Hclosed)).
        split.
        -- intros Hall ks k ks' v Heq Hw. destruct ks as [| k0 ks].
           { cbn in Hw. injection Hw as <-. by eexists. }
           injection Heq as <- Heq. cbn [config_walk] in Hw.
           rewrite Hd, Hk in Hw. by apply (Hall ks k ks' v).
        -- intros Hall ks k ks' v Heq Hw.
           apply (Hall (key :: ks) k ks' v); [by rewrite Heq |].
           cbn [config_walk]. by rewrite Hd, Hk.
      * rewrite config_store_plain by done. split.
        -- intros [dicts' [=]].
        -- intros Hall. destruct Hplain.
           apply (Hall [key] key' rest v); [done |].
           cbn [config_walk]. by rewrite Hd, Hk.
    + cbv zeta. split.
      * intros _ ks k ks' v Heq Hw. destruct ks as [| k0 ks].
        { cbn in Hw. injection Hw as <-. by eexists. }
        injection Heq as <- Heq. cbn [config_walk] in Hw.
        by rewrite Hd, Hk in Hw.
      * intros _. apply config_store_new; [done |].
        rewrite lookup_insert_ne.
        -- by rewrite lookup_insert_eq.
        -- intros Heq. apply (is_fresh (dom dicts)). rewrite <- Heq.
           apply elem_of_dom. by eexists.
Qed.
End SettingsFacts.

(** X18: settings by dotted path, with the dictionaries held by reference.
    For every closed store of dictionaries, path and value, [Config.set]
    either raises TypeError and leaves every dictionary as it was, or goes
    through; it goes through exactly when no part of the path before its
    last key leads to a value that is no dictionary. When it goes through,
    one entry of one dictionary that was there is assigned, and every other
    entry of every dictionary that was there is as before: the entry is the
    last key in the dictionary the path leads to, or, where a key of the
    path is missing, that key in the dictionary reached so far (it then
    holds a new dictionary). Hence [Config.get] of a path that does not go
    through the assigned entry returns what it returned before; a path that
    does, as after [c.set("backup", c.get("mqtt"))] a path under [mqtt] when
    [backup.host] is set, may not. And [Config.get] of the path that was set
    returns the value, whatever the default, when the path does not go
    through the assigned entry before it reaches it, as is the case
    whenever a key was missing. *)
Theorem config_set_then_get `{Runtime}
    (config : positive) (dicts : gmap positive (gmap string object))
    (key_path : string) (value : object) :
  closed dicts → config ∈ dom dicts →
  (∀ l, value = ODict l → l ∈ dom dicts) →
  ((∃ dicts' l key ks ks',
      Config_set config key_path value dicts = (Ok tt, dicts')
      ∧ split key_path "." = (ks ++ key :: ks')%list
      ∧ config_walk dicts (ODict config) ks = Some (ODict l)
      ∧ (ks' = [] ∨ ∃ d, dicts !! l = Some d ∧ d !! key = None)
      ∧ (∀ l' d, dicts !! l' = Some d →
           ∃ d', dicts' !! l' = Some d'
                 ∧ ∀ key', (l', key') ≠ (l, key) → d' !! key' = d !! key')
      ∧ closed dicts'
      ∧ (∀ other dflt,
           (∀ os o os', split other "." = (os ++ o :: os')%list →
              ¬ (config_walk dicts (ODict config) os = Some (ODict l)
                 ∧ o = key)) →
           Config_get config dicts' other dflt
           = Config_get config dicts other dflt)
      ∧ ((∀ ks1 k ks2, ks = (ks1 ++ k :: ks2)%list →
            ¬ (config_walk dicts (ODict config) ks1 = Some (ODict l)
               ∧ k = key)) →
         ∀ dflt, Config_get config dicts' key_path dflt = value)
      ∧ (ks' ≠ [] → ∀ dflt, Config_get config dicts' key_path dflt = value))
   ∨ (∃ msg,
        Config_set config key_path value dicts
        = (Err (TypeError msg), dicts)))
  ∧ ((∃ dicts', Config_set config key_path value dicts = (Ok tt, dicts'))
     ↔ (∀ ks k ks' v,
          split key_path "." = (ks ++ k :: ks')%list →
          config_walk dicts (ODict config) ks = Some v → is_dict v)).
Proof.
  intros Hclosed Hin Hvalue.
  destruct (split_cons key_path ".") as (piece & pieces & Hsplit).
  assert (split key_path "." ≠ []) as Hne by by rewrite Hsplit.
  unfold Config_set, Config_get.
  split; [| by apply config_store_succeeds].
  destruct (config_store_spec (split key_path ".") value config dicts
              Hne Hclosed Hin Hvalue)
    as [(dicts' & l & key & ks & ks' & Hrun & Hkeys & Hwalk & Hlast
         & Hsame & Hclosed' & Hl & Htail) | Herr];
    [left | right; by eexists].
  exists dicts', l, key, ks, ks'.
  split; [done |]. split; [done |]. split; [done |]. split; [done |].
  split; [done |]. split; [done |].
  assert ((∀ ks1 k ks2, ks = (ks1 ++ k :: ks2)%list →
             ¬ (config_walk dicts (ODict config) ks1 = Some (ODict l)
                ∧ k = key)) →
          ∀ dflt,
            default dflt (config_walk dicts' (ODict config)
                            (split key_path ".")) = value) as Hround.
  { intros Havoid dflt. rewrite Hkeys, config_walk_app.
    rewrite (config_walk_same_but dicts dicts' l key) by done.
    by rewrite Hwalk, Htail. }
  split; [| split; [done |]].
  - intros other dflt Havoid.
    by rewrite (config_walk_same_but dicts dicts' l key).
  - intros Hmore. apply Hround. intros ks1 k ks2 -> [Hw ->].
    destruct Hlast as [-> | (d & Hd & Hk)]; [done |].
    rewrite config_walk_app, Hw in Hwalk. cbn [config_walk] in Hwalk.
    by rewrite Hd, Hk in Hwalk.
Qed.

(** ** Runs of the further properties *)

Lemma demo_relay_names :
  dom (states (relay_controller (hardware_manager demo_app)))
  = ({[ "Relay1"; "Relay2" ]} : gset string).
Proof. by vm_compute. Qed.

Lemma shutdown_switches_everything_off_witness :
  ∃ hw',
    @HardwareManager_shutdown decimal_runtime DEFAULT_CONFIG
      (hardware_manager demo_app) = (Ok tt, hw')
    ∧ relay_controller hw'
      = {| relay1 := 0; relay2 := 0;
           states := {[ "Relay1" := false; "Relay2" := false ]} |}
    ∧ channel_duty (address (pca9685 (hardware_manager demo_app))) 9
        (wire (i2c hw')) = Some 0.
Proof.
  destruct (@shutdown_switches_everything_off decimal_runtime DEFAULT_CONFIG
              (hardware_manager demo_app))
    as (hw' & Hrun & Hrc & _ & Hduty & _);
    [left; constructor | exact demo_relay_names |].
  exists hw'. split; [exact Hrun |]. split; [exact Hrc |].
  apply Hduty; [reflexivity | lia].
Defined.

Lemma shutdown_skips_relays_witness :
  ∃ hw',
    @HardwareManager_shutdown decimal_runtime DEFAULT_CONFIG
      stuck_hardware_relay_on = (Ok tt, hw')
    ∧ relay_controller hw' = relay_controller stuck_hardware_relay_on
    ∧ wire (i2c hw') = wire (i2c stuck_hardware_relay_on)
    ∧ faults (i2c hw') = [].
Proof.
  apply (@shutdown_skips_relays_on_bus_failure decimal_runtime DEFAULT_CONFIG
           stuck_hardware_relay_on []); reflexivity.
Defined.

Lemma read_pin_witness :
  ∃ b' current hw',
    @read_pin decimal_runtime DEFAULT_CONFIG
      (input_expander (hardware_manager demo_app) 12) ((12 - 1) mod 8)
      (i2c (hardware_manager demo_app))
    = (Ok (Some (input_bit (hardware_manager demo_app) 12)), b')
    ∧ @get_input_states decimal_runtime DEFAULT_CONFIG
        (hardware_manager demo_app) = (Ok current, hw')
    ∧ current !! ("X" +:+ fmt_02d 12)
      = Some (negb (input_bit (hardware_manager demo_app) 12)).
Proof.
  destruct (@read_pin_is_not_inverted decimal_runtime DEFAULT_CONFIG
              (pcf_inputs_1_8 (hardware_manager demo_app)) 0 quiet_bus)
    as (_ & _ & Hline).
  apply (Hline (hardware_manager demo_app) 12);
    [lia | constructor | reflexivity | reflexivity].
Defined.

Lemma relay_report_witness :
  ∃ s1 s2,
    get_relay_states
      (hardware_manager
         (@_on_mqtt_command decimal_runtime DEFAULT_CONFIG 4
            (@relay_topic DEFAULT_CONFIG 1) (VStr "ON") demo_app).2)
    = (Ok {[ "Relay1" := s1; "Relay2" := s2 ]},
       hardware_manager
         (@_on_mqtt_command decimal_runtime DEFAULT_CONFIG 4
            (@relay_topic DEFAULT_CONFIG 1) (VStr "ON") demo_app).2)
    ∧ relay1 (relay_controller
                (hardware_manager
                   (@_on_mqtt_command decimal_runtime DEFAULT_CONFIG 4
                      (@relay_topic DEFAULT_CONFIG 1) (VStr "ON")
                      demo_app).2)) = pin_level s1
    ∧ relay2 (relay_controller
                (hardware_manager
                   (@_on_mqtt_command decimal_runtime DEFAULT_CONFIG 4
                      (@relay_topic DEFAULT_CONFIG 1) (VStr "ON")
                      demo_app).2)) = pin_level s2.
Proof.
  apply (@relay_report_matches_pins decimal_runtime DEFAULT_CONFIG
           0 quiet_bus true true true).
  apply (@reach_mqtt decimal_runtime DEFAULT_CONFIG). apply reach_init.
Defined.

Lemma demo_dimmer_3_at_50 :
  dimmer_levels
    (state_manager
       (@process_command decimal_runtime DEFAULT_CONFIG 5
          (set_dimmer_command 3 50) demo_app).2) !! ("PWM" +:+ pretty 3)
  = Some 50.
Proof. by vm_compute. Qed.

Lemma mirror_levels_witness :
  0 ≤ 50 ≤ 100
  ∧ is_Some (last_non_zero_levels
               (state_manager
                  (@process_command decimal_runtime DEFAULT_CONFIG 5
                     (set_dimmer_command 3 50) demo_app).2)
             !! ("PWM" +:+ pretty 3)).
Proof.
  destruct (@mirror_levels_stay_in_range decimal_runtime DEFAULT_CONFIG
              0 quiet_bus true true true
              (@process_command decimal_runtime DEFAULT_CONFIG 5
                 (set_dimmer_command 3 50) demo_app).2) as (Hd & _ & Hc).
  - apply (@reach_command decimal_runtime DEFAULT_CONFIG). apply reach_init.
  - split.
    + exact (Hd ("PWM" +:+ pretty 3) 50 demo_dimmer_3_at_50).
    + apply (Hc 3). lia.
Defined.

Lemma broadcast_witness :
  ∃ (level : Z → Z) (s1 s2 : bool),
    @_broadcast_state decimal_runtime DEFAULT_CONFIG true demo_app
    = (Ok tt,
       published (((λ i, @dimmer_message DEFAULT_CONFIG i (level i))
                     <$> seqZ 0 16)
                  ++ [@relay_message DEFAULT_CONFIG 1 s1;
                      @relay_message DEFAULT_CONFIG 2 s2]
                  ++ @input_messages DEFAULT_CONFIG (state_manager demo_app))
         demo_app)
    ∧ relay1 (relay_controller (hardware_manager demo_app)) = pin_level s1
    ∧ relay2 (relay_controller (hardware_manager demo_app)) = pin_level s2.
Proof.
  destruct (@broadcast_publishes_the_mirror decimal_runtime DEFAULT_CONFIG
              0 quiet_bus true true true demo_app)
    as (_ & level & s1 & s2 & Hrun & _ & Hp1 & Hp2);
    [apply reach_init |].
  exists level, s1, s2. split; [exact Hrun |]. split; [exact Hp1 | exact Hp2].
Defined.


(** The settings of [demo_settings] form a closed store. *)
Lemma demo_settings_closed : closed demo_settings.
Proof.
  intros l d key l' Hd Hk. unfold demo_settings in *.
  rewrite !dom_insert_L, dom_singleton_L.
  destruct (decide (l = 1%positive)) as [-> | H1].
  { rewrite lookup_insert_eq in Hd. injection Hd as <-.
    destruct (decide (key = "mqtt")) as [-> | Hk1].
    { rewrite lookup_insert_eq in Hk. injection Hk as <-.
      apply elem_of_union_r, elem_of_union_l. by apply elem_of_singleton. }
    rewrite lookup_insert_ne in Hk by done.
    destruct (decide (key = "backup")) as [-> | Hk2].
    { rewrite lookup_insert_eq in Hk. injection Hk as <-.
      apply elem_of_union_r, elem_of_union_l. by apply elem_of_singleton. }
    rewrite lookup_insert_ne in Hk by done.
    destruct (decide (key = "system")) as [-> | Hk3].
    { rewrite lookup_singleton_eq in Hk. injection Hk as <-.
      do 2 apply elem_of_union_r. by apply elem_of_singleton. }
    by rewrite lookup_singleton_ne in Hk. }
  rewrite lookup_insert_ne in Hd by done.
  destruct (decide (l = 2%positive)) as [-> | H2].
  { rewrite lookup_insert_eq in Hd. injection Hd as <-.
    destruct (decide (key = "host")) as [-> | Hk1].
    { by rewrite lookup_insert_eq in Hk. }
    rewrite lookup_insert_ne in Hk by done.
    destruct (decide (key = "port")) as [-> | Hk2].
    { by rewrite lookup_singleton_eq in Hk. }
    by rewrite lookup_singleton_ne in Hk. }
  rewrite lookup_insert_ne in Hd by done.
  destruct (decide (l = 3%positive)) as [-> | H3].
  { rewrite lookup_singleton_eq in Hd. injection Hd as <-.
    destruct (decide (key = "debug")) as [-> | Hk1].
    { by rewrite lookup_singleton_eq in Hk. }
    by rewrite lookup_singleton_ne in Hk. }
  by rewrite lookup_singleton_ne in Hd.
Qed.

Lemma demo_settings_root : 1%positive ∈ dom demo_settings.
Proof. apply elem_of_dom. by eexists. Qed.

(** Two paths to one dictionary: setting [backup.host] changes what
    [mqtt.host] reads, and leaves [system.debug] alone. *)
Lemma demo_settings_alias :
  ∃ dicts',
    @Config_set decimal_runtime 1 "backup.host" (OStr "broker") demo_settings
    = (Ok tt, dicts')
    ∧ Config_get 1 demo_settings "mqtt.host" ONone = OStr "10.0.0.2"
    ∧ Config_get 1 dicts' "mqtt.host" ONone = OStr "broker"
    ∧ Config_get 1 dicts' "backup.host" ONone = OStr "broker"
    ∧ Config_get 1 dicts' "system.debug" ONone = OBool false.
Proof. eexists. split; [by vm_compute |]. by vm_compute. Qed.

Lemma config_set_then_get_witness :
  ∃ dicts',
    @Config_set decimal_runtime 1 "backup.host" (OStr "broker") demo_settings
    = (Ok tt, dicts')
    ∧ closed dicts'.
Proof.
  destruct (proj1 (@config_set_then_get decimal_runtime 1 demo_settings
                     "backup.host" (OStr "broker") demo_settings_closed
                     demo_settings_root ltac:(discriminate)))
    as [(dicts' & l & key & ks & ks' & Hrun & _ & _ & _ & _ & Hclosed & _)
       | (msg & Herr)].
  - exists dicts'. split; [exact Hrun | exact Hclosed].
  - vm_compute in Herr. discriminate Herr.
Defined.
